(** * ol/source/WMTS: tile addressing and capabilities resolution

    A shallow embedding of [src/ol/webgl/Fragment.js] (the part that holds
    the module [ol/source/WMTS]): the [WMTS] constructor with its template
    compiler [createFromWMTSTemplate_], the dimension and key manager
    ([getKeyForDimensions_], [updateDimensions]) and the capabilities
    resolver [optionsFromCapabilities].

    Conventions of the embedding.
    - A JavaScript string is a [string]; its characters are the bytes of its
      UTF-8 form, so that ASCII text is represented character by character.
      A surrogate that has no partner is written in the three-byte form that
      generalised UTF-8 gives it.
    - [undefined] is the [JUndefined] value where a slot can hold values of
      several types, and [None] where it holds a string, a record or a list.
    - A number is an integer [n], which stands for the double nearest to
      [n]; arithmetic rounds as doubles do and [ToString] prints as
      [Number::toString] does.  Fractions, [NaN] and negative zero are
      outside the model.
    - A plain object used as a dictionary is an association list of its own
      properties in insertion order ([JsObj]); enumeration order is computed
      by [ownEntries].  Its prototype is [Object.prototype], whose members
      the [in] operator and a property read find as well ([hasIn],
      [getIn]).  An own property named [__proto__] is outside the model.
    - Tile coordinates are integers ([Z]).
    - Code of the source that can raise lives in the [Outcome] monad, code
      of the resolver, which raises [TypeError]s only, in the [Completion]
      monad. *)

From Stdlib Require Import String Ascii List ZArith NArith Bool Lia DecimalString Permutation.
Import ListNotations.
Open Scope string_scope.

(* ===================================================================== *)
(** ** JavaScript values, strings and objects *)
(* ===================================================================== *)

Module Js.

(** The values that flow through the template contexts: [undefined],
    strings, numbers, and what a plain object inherits, built-in functions
    and the prototype object itself. *)
Inductive JsVal : Type :=
| JUndefined
| JString (s : string)
| JNumber (n : Z)
| JFunction (name : string)
| JObject.

(** The decimal form of an integer. *)
Definition string_of_Z (n : Z) : string :=
  NilEmpty.string_of_int (Z.to_int n).

(** *** Numbers *)

(** 2^53: below it every integer is a double. *)
Definition two53 : Z := 9007199254740992.

(** [Number.isSafeInteger] *)
Definition isSafeInteger (n : Z) : bool := (Z.abs n <? two53)%Z.

(** The double nearest to the integer [n], ties to the even significand; a
    result of 2^1024 or more stands for an infinity. *)
Definition roundDouble (n : Z) : Z :=
  let a := Z.abs n in
  if (a <? two53)%Z then n
  else
    let e := (Z.log2 a - 52)%Z in
    let q := Z.shiftr a e in
    let r := (a - Z.shiftl q e)%Z in
    let half := Z.shiftl 1 (e - 1) in
    let q' := if (r <? half)%Z then q
              else if (half <? r)%Z then (q + 1)%Z
              else if Z.even q then q else (q + 1)%Z in
    (Z.sgn n * Z.shiftl q' e)%Z.

(** [-a - 1] on numbers. *)
Definition negateMinusOne (a : Z) : Z :=
  roundDouble (- roundDouble a - 1).

Definition decimalDigits (a : Z) : Z := Z.of_nat (String.length (string_of_Z a)).

(** The decimal number with the fewest significant digits [k] that rounds
    to the double [x], which has [d] digits; of two such numbers the one
    nearer to [x]. *)
Fixpoint shortestDecimal (fuel : nat) (k d x : Z) : Z :=
  match fuel with
  | O => x
  | S fuel' =>
      let p := (10 ^ (d - k))%Z in
      let lo := (x / p * p)%Z in
      let hi := (lo + p)%Z in
      let okLo := (roundDouble lo =? x)%Z in
      let okHi := (roundDouble hi =? x)%Z in
      if okLo && okHi
      then (if (x - lo <? hi - x)%Z then lo
            else if (hi - x <? x - lo)%Z then hi
            else if Z.even (lo / p) then lo else hi)
      else if okLo then lo
      else if okHi then hi
      else shortestDecimal fuel' (k + 1)%Z d x
  end.

Fixpoint stripZeros (fuel : nat) (v : Z) : Z :=
  match fuel with
  | O => v
  | S fuel' => if (v mod 10 =? 0)%Z then stripZeros fuel' (v / 10)%Z else v
  end.

(** The form [d.ddde+n] of a number of more than 21 digits. *)
Definition exponentForm (v : Z) : string :=
  let d := decimalDigits v in
  let digits := string_of_Z (stripZeros (Z.to_nat d) v) in
  let mantissa := match digits with
                  | String c (String _ _ as rest) => String c (String "." rest)
                  | _ => digits
                  end in
  mantissa ++ "e+" ++ string_of_Z (d - 1).

(** [Number::toString]: a safe integer is printed digit by digit; a larger
    number with the fewest digits that identify the double, in exponent form
    from 10^21 on. *)
Definition numberToString (n : Z) : string :=
  if isSafeInteger n then string_of_Z n
  else
    let x := Z.abs (roundDouble n) in
    let sign := if (n <? 0)%Z then "-" else "" in
    if (2 ^ 1024 <=? x)%Z then sign ++ "Infinity"
    else
      let d := decimalDigits x in
      let v := shortestDecimal (Z.to_nat d) 1 d x in
      sign ++ (if (decimalDigits v <=? 21)%Z then string_of_Z v else exponentForm v).

(** [ToString].  The text of a built-in function is the one that V8
    prints. *)
Definition toString (v : JsVal) : string :=
  match v with
  | JUndefined => "undefined"
  | JString s => s
  | JNumber n => numberToString n
  | JFunction name => "function " ++ name ++ "() { [native code] }"
  | JObject => "[object Object]"
  end.

Definition isDefined (v : JsVal) : bool :=
  match v with JUndefined => false | _ => true end.

(** [Array.prototype.join] on an array of strings. *)
Fixpoint join (sep : string) (parts : list string) : string :=
  match parts with
  | [] => ""
  | [p] => p
  | p :: rest => p ++ sep ++ join sep rest
  end.

(** *** Objects *)

Definition JsObj : Type := list (string * JsVal).

(** Own keys are unique in every object. *)
Definition wfObj (o : JsObj) : Prop := NoDup (map fst o).

(** The own property [k] of [o]; [undefined] when there is none. *)
Fixpoint get (k : string) (o : JsObj) : JsVal :=
  match o with
  | [] => JUndefined
  | (k', v) :: rest => if String.eqb k k' then v else get k rest
  end.

(** [o.hasOwnProperty(k)] *)
Fixpoint has (k : string) (o : JsObj) : bool :=
  match o with
  | [] => false
  | (k', _) :: rest => String.eqb k k' || has k rest
  end.

(** The members of [Object.prototype]: the constructor, the methods, and
    the accessor [__proto__], which gives the prototype of a plain object,
    [Object.prototype] itself. *)
Definition objectPrototype : JsObj :=
  [("constructor", JFunction "Object");
   ("__defineGetter__", JFunction "__defineGetter__");
   ("__defineSetter__", JFunction "__defineSetter__");
   ("hasOwnProperty", JFunction "hasOwnProperty");
   ("__lookupGetter__", JFunction "__lookupGetter__");
   ("__lookupSetter__", JFunction "__lookupSetter__");
   ("isPrototypeOf", JFunction "isPrototypeOf");
   ("propertyIsEnumerable", JFunction "propertyIsEnumerable");
   ("toString", JFunction "toString");
   ("valueOf", JFunction "valueOf");
   ("__proto__", JObject);
   ("toLocaleString", JFunction "toLocaleString")].

(** [k in o] *)
Definition hasIn (k : string) (o : JsObj) : bool :=
  has k o || has k objectPrototype.

(** [o[k]] *)
Definition getIn (k : string) (o : JsObj) : JsVal :=
  if has k o then get k o else get k objectPrototype.

(** [o[k] = v]: an existing property keeps its place, a new one goes last. *)
Fixpoint set (k : string) (v : JsVal) (o : JsObj) : JsObj :=
  match o with
  | [] => [(k, v)]
  | (k', v') :: rest =>
      if String.eqb k k' then (k', v) :: rest else (k', v') :: set k v rest
  end.

(** A key is an array index when it is the canonical decimal form of an
    integer below 2^32 - 1. *)
Definition arrayIndex (k : string) : option N :=
  match NilEmpty.uint_of_string k with
  | Some d =>
      let n := N.of_uint d in
      if String.eqb (NilEmpty.string_of_uint (N.to_uint n)) k
         && N.ltb n 4294967295
      then Some n else None
  | None => None
  end.

Fixpoint insertIndexed (e : N * (string * JsVal))
    (l : list (N * (string * JsVal))) : list (N * (string * JsVal)) :=
  match l with
  | [] => [e]
  | e' :: rest =>
      if N.leb (fst e) (fst e') then e :: l else e' :: insertIndexed e rest
  end.

Fixpoint indexedEntries (o : JsObj) : list (N * (string * JsVal)) :=
  match o with
  | [] => []
  | (k, v) :: rest =>
      match arrayIndex k with
      | Some n => insertIndexed (n, (k, v)) (indexedEntries rest)
      | None => indexedEntries rest
      end
  end.

Definition namedEntries (o : JsObj) : JsObj :=
  filter (fun e => match arrayIndex (fst e) with Some _ => false | None => true end) o.

(** The order of [for (k in o)], [Object.keys(o)] and [Object.assign]:
    array indices in ascending order, then the other keys in insertion
    order. *)
Definition ownEntries (o : JsObj) : JsObj :=
  (map snd (indexedEntries o) ++ namedEntries o)%list.

(** Modelled from the spec: [assign] of [ol/obj.js] is imported by the
    source and not part of it.  It merges the entries of [source] into
    [target], overwriting existing keys and adding new ones, as
    [Object.assign] does. *)
Definition assign (target source : JsObj) : JsObj :=
  fold_left (fun t e => set (fst e) (snd e) t) (ownEntries source) target.

(** Writing a list of entries one after the other. *)
Definition setAll (entries target : JsObj) : JsObj :=
  fold_left (fun t e => set (fst e) (snd e) t) entries target.

(** *** Characters *)

Definition charIn (lo hi c : ascii) : bool :=
  (N.leb (N_of_ascii lo) (N_of_ascii c)) && (N.leb (N_of_ascii c) (N_of_ascii hi)).

(** Whether every character of [s] satisfies [P]. *)
Fixpoint allChars (P : ascii -> bool) (s : string) : bool :=
  match s with
  | EmptyString => true
  | String c r => P c && allChars P r
  end.

Definition isDigit (c : ascii) : bool := charIn "0" "9" c.

(** Whether [sep] does not occur in [s]. *)
Definition noChar (sep : ascii) (s : string) : bool :=
  allChars (fun c => negb (Ascii.eqb c sep)) s.

(** The regular-expression class [\w]. *)
Definition isWord (c : ascii) : bool :=
  charIn "a" "z" c || charIn "A" "Z" c || charIn "0" "9" c || Ascii.eqb c "_".

Definition lowerChar (c : ascii) : ascii :=
  if charIn "A" "Z" c then ascii_of_N (N_of_ascii c + 32) else c.

(** [String.prototype.toLowerCase], on the ASCII letters. *)
Fixpoint toLowerCase (s : string) : string :=
  match s with
  | EmptyString => EmptyString
  | String c r => String (lowerChar c) (toLowerCase r)
  end.

(** Whether [s] holds a surrogate without partner: the byte [ED] followed
    by a byte from [A0] to [BF]. *)
Fixpoint hasLoneSurrogate (s : string) : bool :=
  match s with
  | EmptyString => false
  | String c r =>
      match r with
      | String c' _ => (Ascii.eqb c "237" && charIn "160" "191" c') || hasLoneSurrogate r
      | EmptyString => false
      end
  end.

(** The longest prefix of word characters, and what follows it. *)
Fixpoint spanWord (s : string) : string * string :=
  match s with
  | EmptyString => (EmptyString, EmptyString)
  | String c r =>
      if isWord c
      then let (w, t) := spanWord r in (String c w, t)
      else (EmptyString, s)
  end.

(** A match of [/\{(\w+?)\}/] that starts at the head of [s]; the result is
    the capture [p].  A closing brace is no word character, so the lazy
    [\w+?] can only stop at the end of the run of word characters. *)
Definition matchPlaceholder (s : string) : option string :=
  match s with
  | String "{" r =>
      match spanWord r with
      | (String c w, String "}" _) => Some (String c w)
      | _ => None
      end
  | _ => None
  end.

(** [s.replace(/\{(\w+?)\}/g, f)], scanning from the left; [skip] counts the
    characters of the current match that are still to be dropped.  The
    callback receives the whole match [m] and the capture [p], and its
    result is converted with [ToString]. *)
Fixpoint replaceFrom (f : string -> string -> JsVal) (skip : nat) (s : string) : string :=
  match s with
  | EmptyString => EmptyString
  | String c r =>
      match skip with
      | S k => replaceFrom f k r
      | O =>
          match matchPlaceholder s with
          | Some p =>
              toString (f ("{" ++ p ++ "}") p) ++ replaceFrom f (S (String.length p)) r
          | None => String c (replaceFrom f 0 r)
          end
      end
  end.

Definition replacePlaceholders (f : string -> string -> JsVal) (s : string) : string :=
  replaceFrom f 0 s.

End Js.

Import Js.

(* ===================================================================== *)
(** ** Outcomes *)
(* ===================================================================== *)

(** The errors that the code of the source can raise: a [TypeError], by
    reading a property of [undefined], and a [URIError], by escaping a
    surrogate without partner. *)
Inductive Err : Type :=
| TypeErr
| URIErr.

(** The outcome of code that can raise: a value, or an error. *)
Inductive Outcome (A : Type) : Type :=
| Returns (a : A)
| Raises (e : Err).
Arguments Returns {A} a.
Arguments Raises {A} e.

Definition andThen {A B : Type} (c : Outcome A) (k : A -> Outcome B) : Outcome B :=
  match c with
  | Returns a => k a
  | Raises e => Raises e
  end.

Notation "x <~ c ;; k" := (andThen c (fun x => k))
  (at level 61, c at next level, right associativity).

(** [Array.prototype.map] with a callback that can raise. *)
Fixpoint mapOutcome {A B : Type} (f : A -> Outcome B) (arr : list A) : Outcome (list B) :=
  match arr with
  | [] => Returns []
  | a :: rest =>
      b <~ f a ;;
      bs <~ mapOutcome f rest ;;
      Returns (b :: bs)
  end.

(* ===================================================================== *)
(** ** Query strings *)
(* ===================================================================== *)

Module Uri.

Definition isUnreserved (c : ascii) : bool :=
  charIn "a" "z" c || charIn "A" "Z" c || charIn "0" "9" c
  || existsb (Ascii.eqb c) ["-"; "_"; "."; "!"; "~"; "*"; "'"; "("; ")"]%char.

Definition hexDigit (n : N) : ascii :=
  if N.ltb n 10 then ascii_of_N (48 + n) else ascii_of_N (55 + n).

(** Every byte outside the unreserved set becomes [%XX]. *)
Fixpoint percentEncode (s : string) : string :=
  match s with
  | EmptyString => EmptyString
  | String c r =>
      if isUnreserved c then String c (percentEncode r)
      else String "%" (String (hexDigit (N_of_ascii c / 16))
                     (String (hexDigit (N_of_ascii c mod 16)) (percentEncode r)))
  end.

(** [encodeURIComponent]: the bytes of the UTF-8 form are escaped; a string
    that has none, because it holds a surrogate without partner, raises a
    [URIError]. *)
Definition encodeURIComponent (s : string) : Outcome string :=
  if hasLoneSurrogate s then Raises URIErr else Returns (percentEncode s).

(** The pieces of [s] between the occurrences of [sep]. *)
Fixpoint splitOn (sep : ascii) (s : string) : list string :=
  match s with
  | EmptyString => [EmptyString]
  | String c r =>
      if Ascii.eqb c sep then EmptyString :: splitOn sep r
      else match splitOn sep r with
           | [] => [String c EmptyString]
           | h :: t => String c h :: t
           end
  end.

(** What precedes the first [sep] of [s], and what follows it. *)
Fixpoint cutAt (sep : ascii) (s : string) : string * option string :=
  match s with
  | EmptyString => (EmptyString, None)
  | String c r =>
      if Ascii.eqb c sep then (EmptyString, Some r)
      else let (a, b) := cutAt sep r in (String c a, b)
  end.

Definition keyValue (piece : string) : string * string :=
  match cutAt "=" piece with
  | (k, Some v) => (k, v)
  | (k, None) => (k, EmptyString)
  end.

(** The parameters of the query string of [uri], in order. *)
Definition queryParams (uri : string) : list (string * string) :=
  match snd (cutAt "?" uri) with
  | Some q => map keyValue (splitOn "&" q)
  | None => []
  end.

(** [uri.replace(/[?&]$/, '')] *)
Fixpoint dropTrailingSep (uri : string) : string :=
  match uri with
  | EmptyString => EmptyString
  | String c EmptyString =>
      if Ascii.eqb c "?" || Ascii.eqb c "&" then EmptyString else uri
  | String c r => String c (dropTrailingSep r)
  end.

Definition hasQuery (uri : string) : bool :=
  match snd (cutAt "?" uri) with Some _ => true | None => false end.

(** The [key=value] strings that [appendParams] adds: one for each entry
    that has a value, with the value escaped. *)
Fixpoint keyParams (entries : JsObj) : Outcome (list string) :=
  match entries with
  | [] => Returns []
  | (k, v) :: rest =>
      if isDefined v
      then value <~ encodeURIComponent (toString v) ;;
           others <~ keyParams rest ;;
           Returns ((k ++ "=" ++ value) :: others)
      else keyParams rest
  end.

(** Modelled from the spec: [appendParams] of [ol/uri.js] is imported by the
    source and not part of it.  Section 4.1 of the specification: the
    context is appended to the base URL as query parameters, after the
    parameters that the URL has.  Every entry that has a value is appended,
    whatever the keys of the URL are (that no key is there twice is left to
    the template); the values are escaped (the TODO note in
    [createFromWMTSTemplate_] says so), and the parameters are joined to
    the URL with [?] or [&]. *)
Definition appendParams (uri : string) (params : JsObj) : Outcome string :=
  keyParams <~ keyParams (ownEntries params) ;;
  let qs := join "&" keyParams in
  let uri := dropTrailingSep uri in
  Returns ((if hasQuery uri then uri ++ "&" else uri ++ "?") ++ qs).

End Uri.
Import Uri.

(* ===================================================================== *)
(** ** The WMTS tile source *)
(* ===================================================================== *)

(** [ol.source.WMTSRequestEncoding] *)
Module WMTSRequestEncoding.
Definition KVP : string := "KVP".
Definition REST : string := "REST".
End WMTSRequestEncoding.

(** [ol.TileCoord]: zoom level, column, row. *)
Definition TileCoord : Type := (Z * Z * Z)%type.

Section Source.

(** External collaborators: numbers that are not tile coordinates, the
    projection objects of [ol/proj], the tile grid of [ol/tilegrid/WMTS]
    with its [getMatrixId] method, and the helpers of
    [ol/tileurlfunction]. *)
Variable Number : Type.
Variable Projection : Type.
Variable TileGrid : Type.
Variable getMatrixId : TileGrid -> Z -> JsVal.

(** [ol.TileUrlFunctionType]; [None] is [undefined]. *)
Definition TileUrlFunctionType : Type :=
  option TileCoord -> Number -> Projection -> Outcome (option string).

Variable expandUrl : string -> list string.
Variable createFromTileUrlFunctions : list TileUrlFunctionType -> TileUrlFunctionType.

(** Modelled from the spec: [nullTileUrlFunction] of [ol/tileurlfunction.js]
    is imported by the source and not part of it; it is the addressing
    function that produces no URL ("none") for every argument. *)
Definition nullTileUrlFunction : TileUrlFunctionType :=
  fun _ _ _ => Returns None.

(** [olx.source.WMTSOptions], without the options that are handed
    unchanged to the [TileImage] constructor.  The constructor takes the
    tile grid as it is given, also when it is not given. *)
Record WMTSOptions : Type := {
  opt_version : option string;
  opt_format : option string;
  opt_dimensions : option JsObj;
  opt_layer : string;
  opt_matrixSet : string;
  opt_style : string;
  opt_urls : option (list string);
  opt_url : option string;
  opt_requestEncoding : option string;
  opt_tileGrid : option TileGrid
}.

(** The [context] object of the constructor. *)
Definition staticContext (layer style matrixSet version format requestEncoding : string) : JsObj :=
  let context := [("layer", JString layer);
                  ("style", JString style);
                  ("tilematrixset", JString matrixSet)] in
  if String.eqb requestEncoding WMTSRequestEncoding.KVP
  then assign context [("Service", JString "WMTS");
                       ("Request", JString "GetTile");
                       ("Version", JString version);
                       ("Format", JString format)]
  else context.

(** The [localContext] object of a call, for a tile grid that is there. *)
Definition dynamicContext (tileGrid : TileGrid) (dimensions : JsObj) (tileCoord : TileCoord) : JsObj :=
  let '(z, x, y) := tileCoord in
  assign [("TileMatrix", getMatrixId tileGrid z);
          ("TileCol", JNumber x);
          ("TileRow", JNumber (negateMinusOne y))]
         dimensions.

(** The first statement of [createFromWMTSTemplate_]: the template with the
    static context worked in. *)
Definition compileTemplate (requestEncoding : string) (context : JsObj) (template : string)
  : Outcome string :=
  if String.eqb requestEncoding WMTSRequestEncoding.KVP
  then appendParams template context
  else Returns (replacePlaceholders
                  (fun m p => if hasIn (toLowerCase p) context
                              then getIn (toLowerCase p) context
                              else JString m)
                  template).

(** [createFromWMTSTemplate_].  The closure reads the [dimensions] object
    that the source shares with [updateDimensions]; the content of that
    object at the time of the call is the first argument.  A call for a
    tile reads [getMatrixId] from the tile grid first. *)
Definition createFromWMTSTemplate_
    (requestEncoding : string) (context : JsObj) (tileGrid : option TileGrid)
    (template : string) : Outcome (JsObj -> TileUrlFunctionType) :=
  template <~ compileTemplate requestEncoding context template ;;
  Returns
    (fun dimensions tileCoord pixelRatio projection =>
       match tileCoord with
       | None => Returns None
       | Some tc =>
           match tileGrid with
           | None => Raises TypeErr
           | Some grid =>
               let localContext := dynamicContext grid dimensions tc in
               let url := template in
               if String.eqb requestEncoding WMTSRequestEncoding.KVP
               then url <~ appendParams url localContext ;;
                    Returns (Some url)
               else Returns (Some (replacePlaceholders
                                     (fun m p => getIn p localContext) url))
           end
       end).

(** The state of a [WMTS] instance. *)
Record WMTS : Type := {
  version_ : string;
  format_ : string;
  dimensions_ : JsObj;
  layer_ : string;
  matrixSet_ : string;
  style_ : string;
  requestEncoding_ : string;
  tileGrid_ : option TileGrid;
  urls_ : option (list string);
  tileUrlFunction_ : JsObj -> TileUrlFunctionType;
  key_ : string
}.

(** [getKeyForDimensions_] *)
Definition getKeyForDimensions_ (dimensions : JsObj) : string :=
  let res := map (fun e => fst e ++ "-" ++ toString (snd e)) (ownEntries dimensions) in
  join "/" res.

Definition orDefault {A : Type} (o : option A) (d : A) : A :=
  match o with Some a => a | None => d end.

(** The constructor.  The templates are compiled before the source is set
    up, so that an error of the compilation leaves no source. *)
Definition newWMTS (options : WMTSOptions) : Outcome WMTS :=
  let version := orDefault (opt_version options) "1.0.0" in
  let format := orDefault (opt_format options) "image/jpeg" in
  let dimensions := orDefault (opt_dimensions options) [] in
  let urls :=
    match opt_urls options, opt_url options with
    | None, Some url => Some (expandUrl url)
    | urls, _ => urls
    end in
  let requestEncoding :=
    orDefault (opt_requestEncoding options) WMTSRequestEncoding.KVP in
  let tileGrid := opt_tileGrid options in
  let context :=
    staticContext (opt_layer options) (opt_style options) (opt_matrixSet options)
                  version format requestEncoding in
  tileUrlFunction <~
    match urls with
    | Some (u :: us) =>
        compiled <~ mapOutcome (createFromWMTSTemplate_ requestEncoding context tileGrid)
                               (u :: us) ;;
        Returns (fun dims => createFromTileUrlFunctions (map (fun f => f dims) compiled))
    | _ => Returns (fun _ => nullTileUrlFunction)
    end ;;
  Returns {| version_ := version;
             format_ := format;
             dimensions_ := dimensions;
             layer_ := opt_layer options;
             matrixSet_ := opt_matrixSet options;
             style_ := opt_style options;
             requestEncoding_ := requestEncoding;
             tileGrid_ := tileGrid;
             urls_ := urls;
             tileUrlFunction_ := tileUrlFunction;
             key_ := getKeyForDimensions_ dimensions |}.

(** What the tile loader gets when it calls the tile URL function of the
    source. *)
Definition tileUrl (source : WMTS) : TileUrlFunctionType :=
  tileUrlFunction_ source (dimensions_ source).

(** [updateDimensions] *)
Definition updateDimensions (source : WMTS) (dimensions : JsObj) : WMTS :=
  let merged := assign (dimensions_ source) dimensions in
  {| version_ := version_ source;
     format_ := format_ source;
     dimensions_ := merged;
     layer_ := layer_ source;
     matrixSet_ := matrixSet_ source;
     style_ := style_ source;
     requestEncoding_ := requestEncoding_ source;
     tileGrid_ := tileGrid_ source;
     urls_ := urls_ source;
     tileUrlFunction_ := tileUrlFunction_ source;
     key_ := getKeyForDimensions_ merged |}.

End Source.

Arguments opt_version {TileGrid} _.
Arguments opt_format {TileGrid} _.
Arguments opt_dimensions {TileGrid} _.
Arguments opt_layer {TileGrid} _.
Arguments opt_matrixSet {TileGrid} _.
Arguments opt_style {TileGrid} _.
Arguments opt_urls {TileGrid} _.
Arguments opt_url {TileGrid} _.
Arguments opt_requestEncoding {TileGrid} _.
Arguments opt_tileGrid {TileGrid} _.
Arguments dimensions_ {Number Projection TileGrid} _.
Arguments key_ {Number Projection TileGrid} _.
Arguments tileUrlFunction_ {Number Projection TileGrid} _.
Arguments urls_ {Number Projection TileGrid} _.
Arguments requestEncoding_ {Number Projection TileGrid} _.
Arguments nullTileUrlFunction {Number Projection} _ _ _.
Arguments dynamicContext {TileGrid} getMatrixId tileGrid dimensions tileCoord.
Arguments createFromWMTSTemplate_ {Number Projection TileGrid} getMatrixId
  requestEncoding context tileGrid template.
Arguments newWMTS {Number Projection TileGrid} getMatrixId expandUrl
  createFromTileUrlFunctions options.
Arguments tileUrl {Number Projection TileGrid} source _ _ _.
Arguments updateDimensions {Number Projection TileGrid} source dimensions.


(* ===================================================================== *)
(** ** Completions *)
(* ===================================================================== *)

(** The outcome of the resolver: a value, or a [TypeError] (the only error
    that it raises, by reading a property of [null] or [undefined]). *)
Inductive Completion (A : Type) : Type :=
| Normal (a : A)
| TypeError.
Arguments Normal {A} a.
Arguments TypeError {A}.

Definition bind {A B : Type} (c : Completion A) (k : A -> Completion B) : Completion B :=
  match c with
  | Normal a => k a
  | TypeError => TypeError
  end.

Notation "x <- c ;; k" := (bind c (fun x => k))
  (at level 61, c at next level, right associativity).
Notation "' pat <- c ;; k" := (bind c (fun x => match x with pat => k end))
  (at level 61, pat pattern, c at next level, right associativity).

(** Reading a property of a value that may be [null] or [undefined]. *)
Definition deref {A : Type} (o : option A) : Completion A :=
  match o with
  | Some a => Normal a
  | None => TypeError
  end.

(* ===================================================================== *)
(** ** Array helpers *)
(* ===================================================================== *)

(** Modelled from the spec: [find], [findIndex] and [includes] of
    [ol/array.js] are imported by the source and not part of it.  [find]
    gives the first element that satisfies the callback, [null] ([None])
    when there is none (the source tests [l === null]); [findIndex] gives
    its index, a negative number when there is none (the source tests
    [idx < 0]); [includes] tells whether a value is an element. *)
Fixpoint find {A : Type} (arr : list A) (func : A -> bool) : option A :=
  match arr with
  | [] => None
  | value :: rest => if func value then Some value else find rest func
  end.

Fixpoint findIndexFrom {A : Type} (i : Z) (arr : list A) (func : A -> bool) : Z :=
  match arr with
  | [] => (-1)%Z
  | value :: rest => if func value then i else findIndexFrom (i + 1)%Z rest func
  end.

Definition findIndex {A : Type} (arr : list A) (func : A -> bool) : Z :=
  findIndexFrom 0%Z arr func.

(** [findIndex] with a callback that can raise. *)
Fixpoint findIndexFromC {A : Type} (i : Z) (arr : list A) (func : A -> Completion bool)
  : Completion Z :=
  match arr with
  | [] => Normal (-1)%Z
  | value :: rest =>
      b <- func value ;;
      if b then Normal i else findIndexFromC (i + 1)%Z rest func
  end.

Definition findIndexC {A : Type} (arr : list A) (func : A -> Completion bool) : Completion Z :=
  findIndexFromC 0%Z arr func.

Definition includes (arr : list string) (obj : string) : bool :=
  existsb (String.eqb obj) arr.

(** [arr[i]] for a number [i]. *)
Definition at_ {A : Type} (arr : list A) (i : Z) : option A :=
  if (i <? 0)%Z then None else nth_error arr (Z.to_nat i).

(* ===================================================================== *)
(** ** Normalising coordinate-reference-system codes *)
(* ===================================================================== *)

Module Crs.

Definition allWord (s : string) : bool := allChars isWord s.

(** Whether [s] holds a character that [.] does not match: LF, CR, U+2028
    or U+2029 (the last two as their three bytes). *)
Fixpoint hasLineTerminator (s : string) : bool :=
  match s with
  | EmptyString => false
  | String c r =>
      Ascii.eqb c "010" || Ascii.eqb c "013"
      || prefix (String "226" (String "128" (String "168" ""))) s
      || prefix (String "226" (String "128" (String "169" ""))) s
      || hasLineTerminator r
  end.

(** [s] cut at its last colon. *)
Fixpoint cutAtLastColon (s : string) : option (string * string) :=
  match s with
  | EmptyString => None
  | String c r =>
      match cutAtLastColon r with
      | Some (a, b) => Some (String c a, b)
      | None => if Ascii.eqb c ":" then Some (EmptyString, r) else None
      end
  end.

Fixpoint stripPrefix (p s : string) : option string :=
  match p, s with
  | EmptyString, _ => Some s
  | String a p', String b s' => if Ascii.eqb a b then stripPrefix p' s' else None
  | _, EmptyString => None
  end.

(** A match of [(\w+):(.*:)?(\w+)$] at the head of [t]: the captures [$1]
    and [$3].  The first group is the whole run of word characters, which a
    colon must follow; the last group has no colon, so it starts after the
    last colon of the rest, or is the rest. *)
Definition matchUrnTail (t : string) : option (string * string) :=
  match spanWord t with
  | (String c w, String ":" r) =>
      match cutAtLastColon r with
      | Some (a, b) =>
          match b with
          | String _ _ =>
              if allWord b && negb (hasLineTerminator a) then Some (String c w, b) else None
          | EmptyString => None
          end
      | None =>
          match r with
          | String _ _ => if allWord r then Some (String c w, r) else None
          | EmptyString => None
          end
      end
  | _ => None
  end.

(** [code.replace(/urn:ogc:def:crs:(\w+):(.*:)?(\w+)$/, '$1:$3')]: the
    leftmost match, which reaches to the end of the string, is replaced. *)
Fixpoint normalize (code : string) : string :=
  match code with
  | EmptyString => EmptyString
  | String c r =>
      match stripPrefix "urn:ogc:def:crs:" code with
      | Some t =>
          match matchUrnTail t with
          | Some (g1, g3) => g1 ++ ":" ++ g3
          | None => String c (normalize r)
          end
      | None => String c (normalize r)
      end
  end.

End Crs.


(* ===================================================================== *)
(** ** The capabilities resolver *)
(* ===================================================================== *)

Section Resolver.

(** External collaborators: numbers with their [==], the projections of
    [ol/proj] ([get], [equivalent], [getExtent], [transformExtent]),
    [containsExtent] of [ol/extent], and the tile grid builder of
    [ol/tilegrid/WMTS].  The matrices of a matrix set and the limits of a
    link are only handed to the builder, which raises a [TypeError] when it
    cannot read what it needs from the matrix set. *)
Variable Number : Type.
Variable numEq : Number -> Number -> bool.
Variable Projection : Type.
Variable TileGrid : Type.
Variable TileMatrices : Type.
Variable TileMatrixSetLimits : Type.

(** [ol.Extent]: [minX, minY, maxX, maxY]. *)
Definition Extent : Type := (Number * Number * Number * Number)%type.

Variable getProjection : string -> option Projection.
Variable equivalent : Projection -> Projection -> bool.
Variable getExtent : Projection -> option Extent.
Variable transformExtent : Extent -> string -> Projection -> Extent.
Variable containsExtent : Extent -> Extent -> bool.

(** *** The capabilities document *)

Record TileMatrixSetLink : Type := {
  link_TileMatrixSet : string;
  link_TileMatrixSetLimits : option TileMatrixSetLimits
}.

Record Style : Type := {
  style_Title : option string;
  style_Identifier : string;
  style_isDefault : bool
}.

Record Dimension : Type := {
  dim_Identifier : string;
  dim_Default : option string;
  dim_Value : list string
}.

Record ResourceURL : Type := {
  res_resourceType : string;
  res_format : string;
  res_template : string
}.

Record Layer : Type := {
  layer_Identifier : string;
  layer_TileMatrixSetLink : list TileMatrixSetLink;
  layer_Format : list string;
  layer_Style : list Style;
  layer_Dimension : option (list Dimension);
  layer_WGS84BoundingBox : option Extent;
  layer_ResourceURL : option (list ResourceURL)
}.

Record TileMatrixSet : Type := {
  tms_Identifier : string;
  tms_SupportedCRS : option string;
  tms_TileMatrix : TileMatrices
}.

Record Constraint : Type := {
  con_name : string;
  con_AllowedValues : option (list string)
}.

(** An entry of [OperationsMetadata.GetTile.DCP.HTTP.Get]. *)
Record GetBinding : Type := {
  get_href : option string;
  get_Constraint : option (list Constraint)
}.

Record Capabilities : Type := {
  cap_Layer : list Layer;
  cap_TileMatrixSet : list TileMatrixSet;
  cap_GetTile : option (list GetBinding)
}.

(** The [config] argument; [None] is a key that is not in the object. *)
Record Config : Type := {
  cfg_layer : string;
  cfg_matrixSet : option string;
  cfg_projection : option string;
  cfg_requestEncoding : option string;
  cfg_style : option string;
  cfg_format : option string;
  cfg_crossOrigin : option string
}.

(** The options object that is returned. *)
Record Options : Type := {
  o_urls : list (option string);
  o_layer : string;
  o_matrixSet : string;
  o_format : option string;
  o_projection : option Projection;
  o_requestEncoding : option string;
  o_tileGrid : TileGrid;
  o_style : string;
  o_dimensions : JsObj;
  o_wrapX : option bool;
  o_crossOrigin : option string
}.

Variable createFromCapabilitiesMatrixSet :
  TileMatrixSet -> option Extent -> option TileMatrixSetLimits -> Completion TileGrid.

(** *** The steps of [optionsFromCapabilities] *)

(** [getProjection(code.replace(...)) || getProjection(code)] *)
Definition projectionOfCode (code : string) : option Projection :=
  match getProjection (Crs.normalize code) with
  | Some p => Some p
  | None => getProjection code
  end.

Definition optEqb (a : option string) (b : option string) : bool :=
  match a, b with
  | Some x, Some y => String.eqb x y
  | None, None => true
  | _, _ => false
  end.

(** The callback that matches a link against [config.projection]. *)
Definition linkMatchesProjection (tileMatrixSets : list TileMatrixSet)
    (projection : string) (elt : TileMatrixSetLink) : Completion bool :=
  tileMatrixSet <- deref (find tileMatrixSets
                     (fun el => String.eqb (tms_Identifier el) (link_TileMatrixSet elt))) ;;
  supportedCRS <- deref (tms_SupportedCRS tileMatrixSet) ;;
  let proj1 := projectionOfCode supportedCRS in
  let proj2 := getProjection projection in
  match proj1, proj2 with
  | Some p1, Some p2 => Normal (equivalent p1 p2)
  | _, _ => Normal (String.eqb supportedCRS projection)
  end.

(** The index of the selected [TileMatrixSetLink]. *)
Definition selectLink (tileMatrixSets : list TileMatrixSet) (config : Config)
    (links : list TileMatrixSetLink) : Completion Z :=
  idx <- (if (Z.of_nat (List.length links) >? 1)%Z
          then match cfg_projection config with
               | Some projection =>
                   findIndexC links (linkMatchesProjection tileMatrixSets projection)
               | None =>
                   Normal (findIndex links
                     (fun elt => optEqb (Some (link_TileMatrixSet elt)) (cfg_matrixSet config)))
               end
          else Normal 0%Z) ;;
  Normal (if (idx <? 0)%Z then 0%Z else idx).

(** The index of the selected style. *)
Definition selectStyle (config : Config) (styles : list Style) : Z :=
  let idx := findIndex styles
               (fun elt => match cfg_style config with
                           | Some style => optEqb (style_Title elt) (Some style)
                           | None => style_isDefault elt
                           end) in
  if (idx <? 0)%Z then 0%Z else idx.

(** The initial dimensions. *)
Definition initialDimensions (l : Layer) : JsObj :=
  match layer_Dimension l with
  | Some ds =>
      fold_left (fun dimensions elt =>
                   let key := dim_Identifier elt in
                   let value := match dim_Default elt with
                                | Some d => JString d
                                | None => match dim_Value elt with
                                          | v :: _ => JString v
                                          | [] => JUndefined
                                          end
                                end in
                   set key value dimensions)
                ds []
  | None => []
  end.

Definition truthy (s : option string) : bool :=
  match s with
  | Some (String _ _) => true
  | _ => false
  end.

(** The projection that the code of the selected matrix set gives, if the
    code is there and is not empty. *)
Definition derivedProjection (code : option string) : option Projection :=
  match code with
  | Some (String _ _ as c) => projectionOfCode c
  | _ => None
  end.

(** The projection of the result. *)
Definition resolveProjection (config : Config) (code : option string) : option Projection :=
  let projection := derivedProjection code in
  match cfg_projection config with
  | Some cp =>
      match getProjection cp with
      | Some projConfig =>
          match projection with
          | None => Some projConfig
          | Some p => if equivalent projConfig p then Some projConfig else projection
          end
      | None => projection
      end
  | None => projection
  end.

(** The extent and the [wrapX] flag. *)
Definition resolveExtent (l : Layer) (projection : option Projection)
  : Completion (option Extent * option bool) :=
  match layer_WGS84BoundingBox l with
  | Some wgs84BoundingBox =>
      wgs84 <- deref (getProjection "EPSG:4326") ;;
      wgs84ProjectionExtent <- deref (getExtent wgs84) ;;
      let '(b0, _, b2, _) := wgs84BoundingBox in
      let '(e0, _, e2, _) := wgs84ProjectionExtent in
      let wrapX := numEq b0 e0 && numEq b2 e2 in
      projection <- deref projection ;;
      let extent := transformExtent wgs84BoundingBox "EPSG:4326" projection in
      let extent :=
        match getExtent projection with
        | Some projectionExtent =>
            if containsExtent projectionExtent extent then Some extent else None
        | None => Some extent
        end in
      Normal (extent, Some wrapX)
  | None => Normal (None, None)
  end.

(** The loop over the [Get] bindings; [requestEncoding] is [None] when it
    is [undefined]. *)
Fixpoint scanGets (gets : list GetBinding) (requestEncoding : option string)
    (urls : list (option string)) : Completion (option string * list (option string)) :=
  match gets with
  | [] => Normal (requestEncoding, urls)
  | g :: rest =>
      match get_Constraint g with
      | Some constraints =>
          constraint <- deref (find constraints
                          (fun element => String.eqb (con_name element) "GetEncoding")) ;;
          encodings <- deref (con_AllowedValues constraint) ;;
          let requestEncoding :=
            if optEqb requestEncoding (Some "")
            then List.hd_error encodings
            else requestEncoding in
          if optEqb requestEncoding (Some WMTSRequestEncoding.KVP)
          then scanGets rest requestEncoding
                 (if includes encodings WMTSRequestEncoding.KVP
                  then (urls ++ [get_href g])%list else urls)
          else Normal (requestEncoding, urls)
      | None =>
          if truthy (get_href g)
          then scanGets rest (Some WMTSRequestEncoding.KVP) (urls ++ [get_href g])%list
          else scanGets rest requestEncoding urls
      end
  end.

(** The request encoding, the URLs and the format. *)
Definition negotiate (wmtsCap : Capabilities) (config : Config) (l : Layer)
    (format : option string)
  : Completion (option string * list (option string) * option string) :=
  let requestEncoding := Some (orDefault (cfg_requestEncoding config) "") in
  '(requestEncoding, urls) <-
     match cap_GetTile wmtsCap with
     | Some gets => scanGets gets requestEncoding []
     | None => Normal (requestEncoding, [])
     end ;;
  match urls with
  | [] =>
      resources <- deref (layer_ResourceURL l) ;;
      let tiles := filter (fun element => String.eqb (res_resourceType element) "tile")
                          resources in
      Normal (Some WMTSRequestEncoding.REST,
              map (fun element => Some (res_template element)) tiles,
              fold_left (fun _ element => Some (res_format element)) tiles format)
  | _ => Normal (requestEncoding, urls, format)
  end.

(** [optionsFromCapabilities]; [Normal None] is the [null] result. *)
Definition optionsFromCapabilities (wmtsCap : Capabilities) (config : Config)
  : Completion (option Options) :=
  let layers := cap_Layer wmtsCap in
  match find layers (fun elt => String.eqb (layer_Identifier elt) (cfg_layer config)) with
  | None => Normal None
  | Some l =>
      let tileMatrixSets := cap_TileMatrixSet wmtsCap in
      idx <- selectLink tileMatrixSets config (layer_TileMatrixSetLink l) ;;
      link <- deref (at_ (layer_TileMatrixSetLink l) idx) ;;
      let matrixSet := link_TileMatrixSet link in
      let matrixLimits := link_TileMatrixSetLimits link in
      let format := match cfg_format config with
                    | Some f => Some f
                    | None => List.hd_error (layer_Format l)
                    end in
      let idx := selectStyle config (layer_Style l) in
      styleObj <- deref (at_ (layer_Style l) idx) ;;
      let style := style_Identifier styleObj in
      let dimensions := initialDimensions l in
      let matrixSets := cap_TileMatrixSet wmtsCap in
      matrixSetObj <- deref (find matrixSets
                        (fun elt => String.eqb (tms_Identifier elt) matrixSet)) ;;
      let code := tms_SupportedCRS matrixSetObj in
      let projection := resolveProjection config code in
      '(extent, wrapX) <- resolveExtent l projection ;;
      tileGrid <- createFromCapabilitiesMatrixSet matrixSetObj extent matrixLimits ;;
      '(requestEncoding, urls, format) <- negotiate wmtsCap config l format ;;
      Normal (Some {| o_urls := urls;
                      o_layer := cfg_layer config;
                      o_matrixSet := matrixSet;
                      o_format := format;
                      o_projection := projection;
                      o_requestEncoding := requestEncoding;
                      o_tileGrid := tileGrid;
                      o_style := style;
                      o_dimensions := dimensions;
                      o_wrapX := wrapX;
                      o_crossOrigin := cfg_crossOrigin config |})
  end.

(** *** Vocabulary for the statements *)

(** The configured projection is compatible with the derived one when there
    is no derived projection, or when it is known and equivalent to it. *)
Definition compatible (configured : string) (derived : option Projection) : Prop :=
  derived = None
  \/ exists projConfig projection,
       getProjection configured = Some projConfig
       /\ derived = Some projection
       /\ equivalent projConfig projection = true.

(** Whether the scan collects the URL of a binding once KVP is the chosen
    encoding: a constrained binding when the allowed values of its
    [GetEncoding] constraint include KVP, an unconstrained one when it has
    an [href]. *)
Definition offersKVP (g : GetBinding) : bool :=
  match get_Constraint g with
  | Some constraints =>
      match find constraints (fun element => String.eqb (con_name element) "GetEncoding") with
      | Some constraint =>
          match con_AllowedValues constraint with
          | Some encodings => includes encodings WMTSRequestEncoding.KVP
          | None => false
          end
      | None => false
      end
  | None => truthy (get_href g)
  end.

Definition kvpUrls (gets : list GetBinding) : list (option string) :=
  map get_href (filter offersKVP gets).

(** A binding without constraint and without [href] has no effect. *)
Definition inert (g : GetBinding) : bool :=
  match get_Constraint g with
  | Some _ => false
  | None => negb (truthy (get_href g))
  end.

(** The URLs collected from the bindings when an encoding is supplied.
    With KVP: the URLs of the bindings that offer KVP.  With another
    encoding the scan stops at the first constrained binding; an
    unconstrained binding with an [href] in front of it turns the encoding
    into KVP. *)
Definition collectedUrls (supplied : string) (gets : list GetBinding) : list (option string) :=
  if String.eqb supplied WMTSRequestEncoding.KVP then kvpUrls gets
  else match find gets (fun g => negb (inert g)) with
       | Some g =>
           match get_Constraint g with
           | None => kvpUrls gets
           | Some _ => []
           end
       | None => []
       end.

(** The templates of the resource URLs of a layer whose type is [tile]. *)
Definition tileTemplates (l : Layer) : list (option string) :=
  match layer_ResourceURL l with
  | Some resources =>
      map (fun element => Some (res_template element))
          (filter (fun element => String.eqb (res_resourceType element) "tile") resources)
  | None => []
  end.

End Resolver.

Arguments link_TileMatrixSet {TileMatrixSetLimits} _.
Arguments link_TileMatrixSetLimits {TileMatrixSetLimits} _.
Arguments layer_Identifier {Number TileMatrixSetLimits} _.
Arguments layer_TileMatrixSetLink {Number TileMatrixSetLimits} _.
Arguments layer_Format {Number TileMatrixSetLimits} _.
Arguments layer_Style {Number TileMatrixSetLimits} _.
Arguments layer_Dimension {Number TileMatrixSetLimits} _.
Arguments layer_WGS84BoundingBox {Number TileMatrixSetLimits} _.
Arguments layer_ResourceURL {Number TileMatrixSetLimits} _.
Arguments tms_Identifier {TileMatrices} _.
Arguments tms_SupportedCRS {TileMatrices} _.
Arguments tms_TileMatrix {TileMatrices} _.
Arguments cap_Layer {Number TileMatrices TileMatrixSetLimits} _.
Arguments cap_TileMatrixSet {Number TileMatrices TileMatrixSetLimits} _.
Arguments cap_GetTile {Number TileMatrices TileMatrixSetLimits} _.
Arguments o_urls {Projection TileGrid} _.
Arguments o_layer {Projection TileGrid} _.
Arguments o_matrixSet {Projection TileGrid} _.
Arguments o_format {Projection TileGrid} _.
Arguments o_projection {Projection TileGrid} _.
Arguments o_requestEncoding {Projection TileGrid} _.
Arguments o_tileGrid {Projection TileGrid} _.
Arguments o_style {Projection TileGrid} _.
Arguments o_dimensions {Projection TileGrid} _.
Arguments o_wrapX {Projection TileGrid} _.
Arguments o_crossOrigin {Projection TileGrid} _.
Arguments projectionOfCode {Projection} getProjection code.
Arguments derivedProjection {Projection} getProjection code.
Arguments resolveProjection {Projection} getProjection equivalent config code.
Arguments linkMatchesProjection {Projection TileMatrices TileMatrixSetLimits}
  getProjection equivalent tileMatrixSets projection elt.
Arguments selectLink {Projection TileMatrices TileMatrixSetLimits}
  getProjection equivalent tileMatrixSets config links.
Arguments initialDimensions {Number TileMatrixSetLimits} l.
Arguments resolveExtent {Number} numEq {Projection TileMatrixSetLimits}
  getProjection getExtent transformExtent containsExtent l projection.
Arguments negotiate {Number TileMatrices TileMatrixSetLimits} wmtsCap config l format.
Arguments optionsFromCapabilities {Number} numEq {Projection TileGrid TileMatrices
  TileMatrixSetLimits} getProjection equivalent getExtent transformExtent
  containsExtent createFromCapabilitiesMatrixSet wmtsCap config.
Arguments compatible {Projection} getProjection equivalent configured derived.
Arguments tileTemplates {Number TileMatrixSetLimits} l.

(* ===================================================================== *)
(** ** The accessors of the source, and more vocabulary *)
(* ===================================================================== *)

Section Accessors.

Context {Number Projection TileGrid : Type}.

(** [getDimensions] *)
Definition getDimensions (source : WMTS Number Projection TileGrid) : JsObj :=
  dimensions_ source.

(** [getFormat] *)
Definition getFormat (source : WMTS Number Projection TileGrid) : string :=
  format_ _ _ _ source.

(** [getLayer] *)
Definition getLayer (source : WMTS Number Projection TileGrid) : string :=
  layer_ _ _ _ source.

(** [getMatrixSet] *)
Definition getMatrixSet (source : WMTS Number Projection TileGrid) : string :=
  matrixSet_ _ _ _ source.

(** [getRequestEncoding] *)
Definition getRequestEncoding (source : WMTS Number Projection TileGrid) : string :=
  requestEncoding_ source.

(** [getStyle] *)
Definition getStyle (source : WMTS Number Projection TileGrid) : string :=
  style_ _ _ _ source.

(** [getVersion] *)
Definition getVersion (source : WMTS Number Projection TileGrid) : string :=
  version_ _ _ _ source.

(** A series of calls of [updateDimensions]. *)
Definition updateDimensionsAll (source : WMTS Number Projection TileGrid)
    (patches : list JsObj) : WMTS Number Projection TileGrid :=
  fold_left updateDimensions patches source.

End Accessors.

(** A string without an opening brace holds no placeholder. *)
Definition noBrace (s : string) : bool := noChar "{" s.

(** Whether [appendParams] can escape every value of [params] that it
    appends: no value that is there holds a surrogate without partner. *)
Definition escapable (params : JsObj) : bool :=
  forallb (fun e => negb (isDefined (snd e) && hasLoneSurrogate (toString (snd e))))
          params.

(** The [key=value] strings of the entries of [params] that have a
    value. *)
Definition shownParams (params : JsObj) : list string :=
  flat_map (fun e => if isDefined (snd e)
                     then [fst e ++ "=" ++ percentEncode (toString (snd e))]
                     else [])
           params.

(** A URL with pieces appended to its query string, as [appendParams]
    joins them. *)
Definition withQuery (uri : string) (pieces : list string) : string :=
  let uri := dropTrailingSep uri in
  (if hasQuery uri then uri ++ "&" else uri ++ "?") ++ join "&" pieces.

(** The rows [y] for which [-y - 1] is computed without rounding. *)
Definition exactRow (y : Z) : Prop := (- two53 <= y < two53)%Z.

Section CodesAndProjections.

Context {Projection : Type}.
Variable getProjection : string -> option Projection.
Variable equivalent : Projection -> Projection -> bool.

(** Section 4.2 of the specification on the code of a reference system: the
    short form of the code is looked up first, the code as it is written
    when the short form is not known. *)
Definition knownAs (code : string) (p : Projection) : Prop :=
  getProjection (Crs.normalize code) = Some p
  \/ (getProjection (Crs.normalize code) = None /\ getProjection code = Some p).

Definition unknownCode (code : string) : Prop :=
  getProjection (Crs.normalize code) = None /\ getProjection code = None.

(** The projection that is derived from the code of a matrix set: none
    from a code that is missing, empty or unknown. *)
Definition derivedFrom (code : option string) (derived : option Projection) : Prop :=
  match code with
  | Some (String _ _ as c) =>
      match derived with
      | Some p => knownAs c p
      | None => unknownCode c
      end
  | _ => derived = None
  end.

(** A matrix set with the code [code] matches the projection named
    [projection] when both are known and equivalent, or, when one of them
    is unknown, when the two names are the same text. *)
Definition crsMatches (code projection : string) : Prop :=
  (exists p1 p2,
     knownAs code p1 /\ getProjection projection = Some p2 /\ equivalent p1 p2 = true)
  \/ ((unknownCode code \/ getProjection projection = None) /\ code = projection).

End CodesAndProjections.


(** Whether [p] occurs in [s]. *)
Fixpoint occurs (p s : string) : bool :=
  match Crs.stripPrefix p s with
  | Some _ => true
  | None =>
      match s with
      | EmptyString => false
      | String _ r => occurs p r
      end
  end.

(** An entry of a dimensions mapping as [getKeyForDimensions_] writes it. *)
Definition keyEntry (e : string * JsVal) : string :=
  fst e ++ "-" ++ toString (snd e).

(** An entry of a dimensions mapping as the key shows it. *)
Definition shownEntry (e : string * JsVal) : string * string :=
  (fst e, toString (snd e)).

(** Neither separator of the key occurs in the names, and the separator of
    the entries does not occur in the values. *)
Definition separatorFree (dimensions : JsObj) : bool :=
  forallb (fun e => noChar "/" (fst e) && noChar "-" (fst e)
                    && noChar "/" (toString (snd e)))
          dimensions.


(** The resource URLs of a layer whose type is [tile]. *)
Definition tileResources {Number TileMatrixSetLimits : Type}
    (l : Layer Number TileMatrixSetLimits) : list ResourceURL :=
  match layer_ResourceURL l with
  | Some resources =>
      filter (fun element => String.eqb (res_resourceType element) "tile") resources
  | None => []
  end.

(** The style that a configuration asks for: the one with the title
    [config.style], or the default one when no style is named. *)
Definition wantedStyle (config : Config) (elt : Style) : bool :=
  match cfg_style config with
  | Some style => optEqb (style_Title elt) (Some style)
  | None => style_isDefault elt
  end.


(** The first encoding that a constrained binding allows. *)
Definition firstEncoding (g : GetBinding) : option string :=
  match get_Constraint g with
  | Some constraints =>
      match find constraints (fun element => String.eqb (con_name element) "GetEncoding") with
      | Some constraint =>
          match con_AllowedValues constraint with
          | Some encodings => List.hd_error encodings
          | None => None
          end
      | None => None
      end
  | None => None
  end.

(** The URLs collected from the bindings when no encoding is supplied: the
    first binding that has an effect decides.  An unconstrained one, or a
    constrained one whose first encoding is KVP, makes KVP the encoding;
    any other constrained binding ends the scan. *)
Definition defaultUrls (gets : list GetBinding) : list (option string) :=
  match find gets (fun g => negb (inert g)) with
  | Some g =>
      match get_Constraint g with
      | None => kvpUrls gets
      | Some _ =>
          if optEqb (firstEncoding g) (Some WMTSRequestEncoding.KVP)
          then kvpUrls gets else []
      end
  | None => []
  end.

(* ===================================================================== *)
(** ** A small registry for the examples *)
(* ===================================================================== *)

Module Fixture.

(** Projections are named by their code; two geographic ones and two
    Mercator ones are registered, and the projections of a family are
    equivalent.  Coordinates are whole degrees or metres. *)
Definition isGeographic (p : string) : bool :=
  String.eqb p "EPSG:4326" || String.eqb p "CRS:84".

Definition isMercator (p : string) : bool :=
  String.eqb p "EPSG:3857" || String.eqb p "EPSG:900913".

Definition getProjection (code : string) : option string :=
  if isGeographic code || isMercator code then Some code else None.

Definition equivalent (p1 p2 : string) : bool :=
  (isGeographic p1 && isGeographic p2) || (isMercator p1 && isMercator p2).

Definition getExtent (p : string) : option (Z * Z * Z * Z) :=
  if isGeographic p then Some (-180, -90, 180, 90)%Z
  else if isMercator p
       then Some (-20037508, -20037508, 20037508, 20037508)%Z
       else None.

Definition transformExtent (e : Z * Z * Z * Z) (source : string) (destination : string)
  : Z * Z * Z * Z := e.

Definition containsExtent (e1 e2 : Z * Z * Z * Z) : bool :=
  let '(a0, a1, a2, a3) := e1 in
  let '(b0, b1, b2, b3) := e2 in
  (a0 <=? b0)%Z && (a1 <=? b1)%Z && (b2 <=? a2)%Z && (b3 <=? a3)%Z.

(** A tile grid is the list of its matrix identifiers. *)
Definition getMatrixId (matrixIds : list string) (z : Z) : JsVal :=
  match at_ matrixIds z with
  | Some id => JString id
  | None => JUndefined
  end.

(** The builder of the examples needs the projection of the matrix set: it
    raises when the code of the matrix set is missing or unknown. *)
Definition createFromCapabilitiesMatrixSet
    (matrixSet : TileMatrixSet (list string))
    (extent : option (Z * Z * Z * Z)) (limits : option unit) : Completion (list string) :=
  code <- deref (tms_SupportedCRS matrixSet) ;;
  _ <- deref (projectionOfCode getProjection code) ;;
  Normal (tms_TileMatrix matrixSet).

Definition resolve :=
  @optionsFromCapabilities Z Z.eqb string (list string) (list string) unit
    getProjection equivalent getExtent transformExtent containsExtent
    createFromCapabilitiesMatrixSet.

Definition compile :=
  @createFromWMTSTemplate_ Z string (list string) getMatrixId.

(** Compiling a template and calling the function for a tile. *)
Definition compileAndCall (requestEncoding : string) (context : JsObj)
    (tileGrid : option (list string)) (template : string) (dimensions : JsObj)
    (tileCoord : option TileCoord) : Outcome (option string) :=
  f <~ compile requestEncoding context tileGrid template ;;
  f dimensions tileCoord 1%Z "EPSG:3857".

Definition expandUrl (url : string) : list string := [url].

Definition createFromTileUrlFunctions
    (tileUrlFunctions : list (TileUrlFunctionType Z string)) : TileUrlFunctionType Z string :=
  match tileUrlFunctions with
  | f :: _ => f
  | [] => fun _ _ _ => Returns None
  end.

Definition construct :=
  @newWMTS Z string (list string) getMatrixId expandUrl createFromTileUrlFunctions.

(** A document with one layer and two matrix sets. *)
Definition wgs84Set : TileMatrixSet (list string) :=
  {| tms_Identifier := "WGS84";
     tms_SupportedCRS := Some "urn:ogc:def:crs:EPSG::4326";
     tms_TileMatrix := ["0"; "1"; "2"] |}.

Definition mercatorSet : TileMatrixSet (list string) :=
  {| tms_Identifier := "google3857";
     tms_SupportedCRS := Some "urn:ogc:def:crs:EPSG:6.18:3:3857";
     tms_TileMatrix := ["0"; "1"; "2"; "3"] |}.

Definition linkTo (matrixSet : string) : TileMatrixSetLink unit :=
  {| link_TileMatrixSet := matrixSet; link_TileMatrixSetLimits := None |}.

Definition roads (links : list (TileMatrixSetLink unit)) : Layer Z unit :=
  {| layer_Identifier := "roads";
     layer_TileMatrixSetLink := links;
     layer_Format := ["image/png"];
     layer_Style := [{| style_Title := Some "Default";
                        style_Identifier := "default";
                        style_isDefault := true |}];
     layer_Dimension := None;
     layer_WGS84BoundingBox := Some (-180, -90, 180, 90)%Z;
     layer_ResourceURL :=
       Some [{| res_resourceType := "tile";
                res_format := "image/png";
                res_template := "http://host/{TileMatrix}/{TileRow}/{TileCol}.png" |}] |}.

Definition document (links : list (TileMatrixSetLink unit))
    (gets : option (list GetBinding)) : Capabilities Z (list string) unit :=
  {| cap_Layer := [roads links];
     cap_TileMatrixSet := [wgs84Set; mercatorSet];
     cap_GetTile := gets |}.

Definition encodingConstraint (encodings : list string) : Constraint :=
  {| con_name := "GetEncoding"; con_AllowedValues := Some encodings |}.

Definition request (matrixSet projection requestEncoding : option string) : Config :=
  {| cfg_layer := "roads";
     cfg_matrixSet := matrixSet;
     cfg_projection := projection;
     cfg_requestEncoding := requestEncoding;
     cfg_style := None;
     cfg_format := None;
     cfg_crossOrigin := None |}.

(** Source options without URLs. *)
Definition bareOptions : WMTSOptions (list string) :=
  {| opt_version := None;
     opt_format := None;
     opt_dimensions := None;
     opt_layer := "roads";
     opt_matrixSet := "google3857";
     opt_style := "default";
     opt_urls := None;
     opt_url := None;
     opt_requestEncoding := None;
     opt_tileGrid := Some ["0"; "1"; "2"; "3"] |}.

(** The source that these options give. *)
Definition bareSource : WMTS Z string (list string) :=
  {| version_ := "1.0.0";
     format_ := "image/jpeg";
     dimensions_ := [];
     layer_ := "roads";
     matrixSet_ := "google3857";
     style_ := "default";
     requestEncoding_ := WMTSRequestEncoding.KVP;
     tileGrid_ := Some ["0"; "1"; "2"; "3"];
     urls_ := None;
     tileUrlFunction_ := fun _ => nullTileUrlFunction;
     key_ := "" |}.

(** A surrogate without partner, U+D800. *)
Definition loneSurrogate : string :=
  String "237" (String "160" (String "128" "")).

Definition kvpContext : JsObj :=
  staticContext "roads" "default" "google3857" "1.0.0" "image/png"
                WMTSRequestEncoding.KVP.

(** A layer with two formats, two styles, two dimensions and two tile
    resources, without bounding box. *)
Definition described : Layer Z unit :=
  {| layer_Identifier := "roads";
     layer_TileMatrixSetLink := [linkTo "WGS84"; linkTo "google3857"];
     layer_Format := ["image/png"; "image/jpeg"];
     layer_Style := [{| style_Title := Some "Night";
                        style_Identifier := "night";
                        style_isDefault := false |};
                     {| style_Title := Some "Day";
                        style_Identifier := "day";
                        style_isDefault := true |}];
     layer_Dimension :=
       Some [{| dim_Identifier := "time";
                dim_Default := Some "2020";
                dim_Value := ["2019"; "2020"] |};
             {| dim_Identifier := "elevation";
                dim_Default := None;
                dim_Value := ["100"; "200"] |}];
     layer_WGS84BoundingBox := None;
     layer_ResourceURL :=
       Some [{| res_resourceType := "tile";
                res_format := "image/png";
                res_template := "http://host/{TileMatrix}/{TileRow}/{TileCol}.png" |};
             {| res_resourceType := "tile";
                res_format := "image/jpeg";
                res_template := "http://host/{TileMatrix}/{TileRow}/{TileCol}.jpeg" |}] |}.

Definition describedDocument (gets : option (list GetBinding))
  : Capabilities Z (list string) unit :=
  {| cap_Layer := [described];
     cap_TileMatrixSet := [wgs84Set; mercatorSet];
     cap_GetTile := gets |}.

(** A layer without style. *)
Definition unstyled : Layer Z unit :=
  {| layer_Identifier := "roads";
     layer_TileMatrixSetLink := [linkTo "google3857"];
     layer_Format := ["image/png"];
     layer_Style := [];
     layer_Dimension := None;
     layer_WGS84BoundingBox := None;
     layer_ResourceURL := Some [] |}.



Definition kvpBinding : GetBinding :=
  {| get_href := Some "http://host/wmts";
     get_Constraint := Some [encodingConstraint [WMTSRequestEncoding.KVP]] |}.

Definition restContext : JsObj :=
  staticContext "roads" "default" "google3857" "1.0.0" "image/png"
                WMTSRequestEncoding.REST.

End Fixture.

(* ===================================================================== *)
(** ** Facts about objects *)
(* ===================================================================== *)

Section ObjectFacts.

Lemma has_In_fst (k : string) (o : JsObj) :
  has k o = true <-> In k (map fst o).
Proof.
  induction o as [|[k' v] o IH]; simpl.
  - split; [discriminate | tauto].
  - rewrite orb_true_iff, IH, String.eqb_eq. intuition congruence.
Qed.

Lemma has_false_not_In (k : string) (o : JsObj) :
  has k o = false <-> ~ In k (map fst o).
Proof.
  rewrite <- has_In_fst. destruct (has k o); intuition congruence.
Qed.

Lemma get_absent (k : string) (o : JsObj) :
  has k o = false -> get k o = JUndefined.
Proof.
  induction o as [|[k' v] o IH]; simpl; [reflexivity|].
  intros H. apply orb_false_iff in H as [Hk Ho]. rewrite Hk. auto.
Qed.

Lemma get_In (k : string) (v : JsVal) (o : JsObj) :
  wfObj o -> In (k, v) o -> get k o = v.
Proof.
  unfold wfObj. induction o as [|[k' v'] o IH]; simpl; [tauto|].
  intros Hnd [Heq | Hin].
  - inversion Heq; subst. now rewrite String.eqb_refl.
  - inversion Hnd as [|? ? Hnotin Hnd']; subst.
    destruct (String.eqb_spec k k') as [->|Hne]; [|auto].
    exfalso. apply Hnotin. change k' with (fst (k', v)). now apply in_map.
Qed.

Lemma has_set (k k' : string) (v : JsVal) (o : JsObj) :
  has k (set k' v o) = String.eqb k k' || has k o.
Proof.
  induction o as [|[k0 v0] o IH]; simpl.
  - reflexivity.
  - destruct (String.eqb_spec k' k0) as [->|Hne]; simpl.
    + now destruct (String.eqb k k0).
    + rewrite IH. destruct (String.eqb k k0), (String.eqb k k'); reflexivity.
Qed.

Lemma get_set (k k' : string) (v : JsVal) (o : JsObj) :
  get k (set k' v o) = if String.eqb k k' then v else get k o.
Proof.
  induction o as [|[k0 v0] o IH]; simpl.
  - reflexivity.
  - destruct (String.eqb_spec k' k0) as [->|Hne]; simpl.
    + now destruct (String.eqb k k0).
    + rewrite IH. destruct (String.eqb_spec k k0) as [->|Hne'].
      * destruct (String.eqb_spec k0 k'); [congruence | reflexivity].
      * reflexivity.
Qed.

(** Setting another key leaves an entry where it is. *)
Lemma In_set_other (k k' : string) (v v' : JsVal) (o : JsObj) :
  k <> k' -> In (k, v) o -> In (k, v) (set k' v' o).
Proof.
  intros Hne. induction o as [|[k0 v0] o IH]; simpl; [tauto|].
  intros [Heq | Hin].
  - inversion Heq; subst.
    destruct (String.eqb_spec k' k); [congruence | now left].
  - destruct (String.eqb k' k0); simpl; auto.
Qed.

Lemma insertIndexed_perm e l : Permutation (insertIndexed e l) (e :: l).
Proof.
  induction l as [|e' l IH]; simpl; [reflexivity|].
  destruct (N.leb (fst e) (fst e')); [reflexivity|].
  rewrite IH. apply perm_swap.
Qed.

Lemma ownEntries_perm (o : JsObj) : Permutation (ownEntries o) o.
Proof.
  unfold ownEntries, namedEntries.
  induction o as [|[k v] o IH]; simpl; [reflexivity|].
  destruct (arrayIndex k) as [n|]; simpl.
  - rewrite insertIndexed_perm. simpl. now apply perm_skip.
  - rewrite <- Permutation_middle. now apply perm_skip.
Qed.

Lemma ownEntries_In (e : string * JsVal) (o : JsObj) :
  In e (ownEntries o) <-> In e o.
Proof.
  split; apply Permutation_in; [|symmetry]; apply ownEntries_perm.
Qed.

Lemma ownEntries_wf (o : JsObj) : wfObj o -> wfObj (ownEntries o).
Proof.
  unfold wfObj. intros H.
  eapply Permutation_NoDup; [|exact H].
  apply Permutation_map. symmetry. apply ownEntries_perm.
Qed.

Lemma has_ownEntries (k : string) (o : JsObj) :
  has k (ownEntries o) = has k o.
Proof.
  apply eq_true_iff_eq. rewrite !has_In_fst.
  split; apply Permutation_in; apply Permutation_map;
    [|symmetry]; apply ownEntries_perm.
Qed.

Lemma get_ownEntries (k : string) (o : JsObj) :
  wfObj o -> get k (ownEntries o) = get k o.
Proof.
  intros Hwf. destruct (has k o) eqn:Hk.
  - apply has_In_fst in Hk. apply in_map_iff in Hk as [[k' v] [Hfst Hin]].
    simpl in Hfst; subst k'.
    rewrite (get_In k v o Hwf Hin).
    apply get_In; [now apply ownEntries_wf | now apply ownEntries_In].
  - rewrite (get_absent k o Hk). apply get_absent. now rewrite has_ownEntries.
Qed.

Lemma has_setAll (k : string) (entries target : JsObj) :
  has k (setAll entries target) = has k target || has k entries.
Proof.
  unfold setAll. revert target.
  induction entries as [|[k' v] entries IH]; intros target; simpl.
  - now rewrite orb_false_r.
  - rewrite IH, has_set.
    destruct (String.eqb k k'), (has k target); reflexivity.
Qed.

Lemma get_setAll (k : string) (entries target : JsObj) :
  wfObj entries ->
  get k (setAll entries target) = if has k entries then get k entries else get k target.
Proof.
  unfold setAll, wfObj. revert target.
  induction entries as [|[k' v] entries IH]; intros target Hnd; simpl.
  - reflexivity.
  - inversion Hnd as [|? ? Hnotin Hnd']; subst.
    rewrite (IH _ Hnd'), get_set.
    destruct (String.eqb_spec k k') as [->|Hne]; simpl; [|reflexivity].
    apply has_false_not_In in Hnotin. simpl in Hnotin. now rewrite Hnotin.
Qed.

Lemma In_setAll_other (k : string) (v : JsVal) (entries target : JsObj) :
  has k entries = false -> In (k, v) target -> In (k, v) (setAll entries target).
Proof.
  unfold setAll. revert target.
  induction entries as [|[k' v'] entries IH]; intros target Hk Hin; simpl in *.
  - exact Hin.
  - apply orb_false_iff in Hk as [Hne Hk].
    apply IH; [exact Hk|]. apply In_set_other; [|exact Hin].
    intros ->. now rewrite String.eqb_refl in Hne.
Qed.

Lemma get_setAll_other (k : string) (entries target : JsObj) :
  has k entries = false -> get k (setAll entries target) = get k target.
Proof.
  unfold setAll. revert target.
  induction entries as [|[k' v] entries IH]; intros target Hk; simpl in *.
  - reflexivity.
  - apply orb_false_iff in Hk as [Hne Hk]. rewrite (IH _ Hk), get_set. now rewrite Hne.
Qed.

Lemma get_assign_other (k : string) (target source : JsObj) :
  has k source = false -> get k (assign target source) = get k target.
Proof.
  intros Hk. unfold assign. fold (setAll (ownEntries source) target).
  apply get_setAll_other. now rewrite has_ownEntries.
Qed.

(** [assign]: the merged object holds the entries of the source, and the
    entries of the target that the source does not name. *)
Lemma has_assign (k : string) (target source : JsObj) :
  has k (assign target source) = has k target || has k source.
Proof.
  unfold assign. fold (setAll (ownEntries source) target).
  now rewrite has_setAll, has_ownEntries.
Qed.

Lemma get_assign (k : string) (target source : JsObj) :
  wfObj source ->
  get k (assign target source) = if has k source then get k source else get k target.
Proof.
  intros Hwf. unfold assign. fold (setAll (ownEntries source) target).
  rewrite get_setAll by now apply ownEntries_wf.
  now rewrite has_ownEntries, get_ownEntries.
Qed.

Lemma In_assign_kept (k : string) (v : JsVal) (target source : JsObj) :
  has k source = false -> In (k, v) target -> In (k, v) (assign target source).
Proof.
  intros Hk Hin. unfold assign. fold (setAll (ownEntries source) target).
  apply In_setAll_other; [now rewrite has_ownEntries | exact Hin].
Qed.

End ObjectFacts.

(* ===================================================================== *)
(** ** Facts about strings and query strings *)
(* ===================================================================== *)

Section StringFacts.

Lemma allChars_impl (P Q : ascii -> bool) (s : string) :
  (forall c, P c = true -> Q c = true) -> allChars P s = true -> allChars Q s = true.
Proof.
  intros HPQ. induction s as [|c r IH]; simpl; [reflexivity|].
  rewrite !andb_true_iff. intros [Hc Hr]. auto.
Qed.

Lemma allChars_app (P : ascii -> bool) (s t : string) :
  allChars P (s ++ t) = allChars P s && allChars P t.
Proof.
  induction s as [|c r IH]; simpl; [reflexivity|].
  now rewrite IH, andb_assoc.
Qed.

Lemma append_assoc (s t u : string) : (s ++ t) ++ u = s ++ (t ++ u).
Proof.
  induction s as [|c r IH]; simpl; [reflexivity | now rewrite IH].
Qed.


Lemma string_of_uint_digits (d : Decimal.uint) :
  allChars isDigit (NilEmpty.string_of_uint d) = true.
Proof.
  induction d; simpl; try reflexivity; exact IHd.
Qed.

(** The decimal form of an integer: digits, after a minus sign when it is
    negative. *)
Lemma string_of_Z_chars (n : Z) :
  allChars (fun c => isDigit c || Ascii.eqb c "-") (string_of_Z n) = true.
Proof.
  assert (Hd : forall d, allChars (fun c => isDigit c || Ascii.eqb c "-")
                           (NilEmpty.string_of_uint d) = true).
  { intros d. apply allChars_impl with (P := isDigit).
    - intros c Hc. now rewrite Hc.
    - apply string_of_uint_digits. }
  unfold string_of_Z. destruct (Z.to_int n); simpl; auto.
Qed.

Lemma percentEncode_unreserved (s : string) :
  allChars isUnreserved s = true -> percentEncode s = s.
Proof.
  induction s as [|c r IH]; simpl; [reflexivity|].
  rewrite andb_true_iff. intros [Hc Hr]. rewrite Hc. f_equal. auto.
Qed.

Lemma digit_or_minus_cases (c : ascii) :
  isDigit c || Ascii.eqb c "-" = true ->
  isUnreserved c = true /\ Ascii.eqb c "&" = false.
Proof.
  intros H. apply orb_true_iff in H as [H | H].
  - unfold isDigit, charIn in H. apply andb_true_iff in H as [H1 H2].
    apply N.leb_le in H1, H2.
    rewrite <- (ascii_N_embedding c).
    assert (Hb : (N_of_ascii c < 256)%N) by apply N_ascii_bounded.
    remember (N_of_ascii c) as n eqn:Hn. clear Hn c. simpl in H1, H2.
    assert (Hc : (n = 48 \/ n = 49 \/ n = 50 \/ n = 51 \/ n = 52 \/ n = 53
                  \/ n = 54 \/ n = 55 \/ n = 56 \/ n = 57)%N) by lia.
    repeat (destruct Hc as [-> | Hc]; [split; reflexivity|]). subst; split; reflexivity.
  - apply Ascii.eqb_eq in H. subst. split; reflexivity.
Qed.

(** Escaping leaves the decimal form of an integer as it is. *)
Lemma percentEncode_number (n : Z) :
  percentEncode (string_of_Z n) = string_of_Z n.
Proof.
  apply percentEncode_unreserved.
  eapply allChars_impl; [|apply string_of_Z_chars].
  intros c Hc. now apply digit_or_minus_cases.
Qed.

Lemma string_of_Z_no_amp (n : Z) : noChar "&" (string_of_Z n) = true.
Proof.
  unfold noChar. eapply allChars_impl; [|apply string_of_Z_chars].
  intros c Hc. apply digit_or_minus_cases in Hc as [_ Hc]. now rewrite Hc.
Qed.

(** An integer up to 2^53 is a double, and is printed digit by digit; the
    row of a tile in the exact range is negated without rounding. *)
Lemma roundDouble_exact (n : Z) : (Z.abs n <= two53)%Z -> roundDouble n = n.
Proof.
  intros H. unfold roundDouble.
  destruct (Z.ltb_spec (Z.abs n) two53) as [Hlt | Hge]; [reflexivity|].
  assert (Hn : n = two53 \/ n = (- two53)%Z) by lia.
  destruct Hn as [-> | ->]; vm_compute; reflexivity.
Qed.

Lemma numberToString_exact (n : Z) :
  (Z.abs n <= two53)%Z -> numberToString n = string_of_Z n.
Proof.
  intros H. unfold numberToString, isSafeInteger.
  destruct (Z.ltb_spec (Z.abs n) two53) as [Hlt | Hge]; [reflexivity|].
  assert (Hn : n = two53 \/ n = (- two53)%Z) by lia.
  destruct Hn as [-> | ->]; vm_compute; reflexivity.
Qed.

Lemma negateMinusOne_exact (y : Z) :
  exactRow y -> negateMinusOne y = (- y - 1)%Z.
Proof.
  unfold exactRow, negateMinusOne. intros H.
  rewrite (roundDouble_exact y) by lia. apply roundDouble_exact. lia.
Qed.

Lemma splitOn_not_nil (sep : ascii) (s : string) : splitOn sep s <> [].
Proof.
  destruct s as [|c r]; simpl; [discriminate|].
  destruct (Ascii.eqb c sep); [discriminate|].
  destruct (splitOn sep r); discriminate.
Qed.

Lemma splitOn_noChar (sep : ascii) (s : string) :
  noChar sep s = true -> splitOn sep s = [s].
Proof.
  unfold noChar. induction s as [|c r IH]; simpl; [reflexivity|].
  rewrite andb_true_iff, negb_true_iff. intros [Hc Hr].
  now rewrite Hc, (IH Hr).
Qed.

Lemma splitOn_app (sep : ascii) (a b : string) :
  splitOn sep (a ++ String sep b) = (splitOn sep a ++ splitOn sep b)%list.
Proof.
  induction a as [|c r IH]; simpl.
  - now rewrite Ascii.eqb_refl.
  - destruct (Ascii.eqb c sep); simpl.
    + now rewrite IH.
    + rewrite IH. destruct (splitOn sep r) eqn:Hr; simpl.
      * now apply splitOn_not_nil in Hr.
      * reflexivity.
Qed.

(** A piece without separator is found again when the joined pieces are
    split. *)
Lemma In_splitOn_join (sep : ascii) (piece : string) (pieces : list string) :
  noChar sep piece = true ->
  In piece pieces ->
  In piece (splitOn sep (join (String sep EmptyString) pieces)).
Proof.
  intros Hno. induction pieces as [|p rest IH]; simpl; [tauto|].
  intros Hin. destruct rest as [|q rest'].
  - destruct Hin as [-> | []]. rewrite splitOn_noChar by exact Hno. now left.
  - change (p ++ String sep EmptyString ++ join (String sep EmptyString) (q :: rest'))
      with (p ++ String sep (join (String sep EmptyString) (q :: rest'))).
    rewrite splitOn_app. apply in_or_app.
    destruct Hin as [-> | Hin].
    + left. rewrite splitOn_noChar by exact Hno. now left.
    + right. now apply IH.
Qed.

Lemma cutAt_app_found (sep : ascii) (s t a b : string) :
  cutAt sep s = (a, Some b) -> cutAt sep (s ++ t) = (a, Some (b ++ t)).
Proof.
  revert a b. induction s as [|c r IH]; simpl; intros a b H; [discriminate|].
  destruct (Ascii.eqb c sep).
  - now inversion H.
  - destruct (cutAt sep r) as [a' b'] eqn:Hr. inversion H; subst.
    now rewrite (IH a' b eq_refl).
Qed.

Lemma cutAt_app_fresh (sep : ascii) (s t a : string) :
  cutAt sep s = (a, None) -> cutAt sep (s ++ String sep t) = (s, Some t).
Proof.
  revert a. induction s as [|c r IH]; simpl; intros a H.
  - now rewrite Ascii.eqb_refl.
  - destruct (Ascii.eqb c sep); [discriminate|].
    destruct (cutAt sep r) as [a' b'] eqn:Hr. inversion H; subst.
    now rewrite (IH a' eq_refl).
Qed.

(** The query string of a URL to which pieces were appended is the joined
    pieces, after the query string of the URL and [&] when there was
    one. *)
Lemma withQuery_query (uri : string) (pieces : list string) :
  let qs := join "&" pieces in
  snd (cutAt "?" (withQuery uri pieces)) = Some qs
  \/ exists b : string,
       snd (cutAt "?" (withQuery uri pieces)) = Some (b ++ String "&" qs).
Proof.
  intros qs. unfold withQuery, hasQuery. fold qs.
  destruct (cutAt "?" (dropTrailingSep uri)) as [a [b|]] eqn:Hcut; simpl.
  - right. exists b. rewrite append_assoc.
    rewrite (cutAt_app_found _ _ _ _ _ Hcut). reflexivity.
  - left. rewrite append_assoc. change ("?" ++ qs) with (String "?" qs).
    rewrite (cutAt_app_fresh _ _ _ _ Hcut). reflexivity.
Qed.

(** A piece without [&] that was appended to a URL is a parameter of its
    query string. *)
Lemma In_queryParams_withQuery (piece uri : string) (pieces : list string) :
  In piece pieces ->
  noChar "&" piece = true ->
  In (keyValue piece) (queryParams (withQuery uri pieces)).
Proof.
  intros Hpiece Hno.
  pose proof (In_splitOn_join "&" _ _ Hno Hpiece) as Hsplit.
  unfold queryParams.
  destruct (withQuery_query uri pieces) as [Hq | [b Hq]]; rewrite Hq;
    apply in_map.
  - exact Hsplit.
  - rewrite splitOn_app. apply in_or_app. now right.
Qed.

Lemma In_shownParams (k : string) (v : JsVal) (params : JsObj) :
  In (k, v) params ->
  isDefined v = true ->
  In (k ++ "=" ++ percentEncode (toString v)) (shownParams params).
Proof.
  intros Hin Hdef. unfold shownParams. apply in_flat_map.
  exists (k, v). split; [exact Hin|]. simpl. rewrite Hdef. now left.
Qed.

(** [keyParams] gives the parameters of the entries when every value can
    be escaped, and raises a [URIError] when one cannot. *)
Lemma keyParams_escapable (entries : JsObj) :
  keyParams entries
  = if escapable entries then Returns (shownParams entries) else Raises URIErr.
Proof.
  unfold escapable, shownParams.
  induction entries as [|[k v] entries IH]; [reflexivity|].
  cbn [keyParams forallb flat_map fst snd].
  destruct (isDefined v); cbn [andb negb].
  - unfold encodeURIComponent.
    destruct (hasLoneSurrogate (toString v)); cbn [negb andb andThen]; [reflexivity|].
    rewrite IH. now destruct (forallb _ entries).
  - exact IH.
Qed.

Lemma escapable_forall (params : JsObj) :
  escapable params = true
  <-> forall k v, In (k, v) params -> isDefined v = true ->
                  hasLoneSurrogate (toString v) = false.
Proof.
  unfold escapable. rewrite forallb_forall. split.
  - intros H k v Hin Hdef. specialize (H (k, v) Hin). simpl in H.
    rewrite Hdef in H. simpl in H. now apply negb_true_iff in H.
  - intros H [k v] Hin. simpl. destruct (isDefined v) eqn:Hdef; [|reflexivity].
    simpl. apply negb_true_iff. now apply (H k v).
Qed.

Lemma escapable_ownEntries (params : JsObj) :
  escapable (ownEntries params) = escapable params.
Proof.
  apply eq_true_iff_eq. rewrite !escapable_forall.
  split; intros H k v Hin; apply (H k); now apply ownEntries_In.
Qed.

(** [appendParams] returns the URL with the parameters of the entries when
    every value can be escaped, and raises a [URIError] when one
    cannot. *)
Lemma appendParams_escapable (uri : string) (params : JsObj) :
  appendParams uri params
  = if escapable params
    then Returns (withQuery uri (shownParams (ownEntries params)))
    else Raises URIErr.
Proof.
  unfold appendParams. rewrite keyParams_escapable, escapable_ownEntries.
  now destruct (escapable params).
Qed.

End StringFacts.

(* ===================================================================== *)
(** ** Properties of the addressing functions *)
(* ===================================================================== *)

Section SourceProperties.

Variable Number : Type.
Variable Projection : Type.
Variable TileGrid : Type.
Variable getMatrixId : TileGrid -> Z -> JsVal.
Variable expandUrl : string -> list string.
Variable createFromTileUrlFunctions :
  list (TileUrlFunctionType Number Projection) -> TileUrlFunctionType Number Projection.

Local Abbreviation compile :=
  (@createFromWMTSTemplate_ Number Projection TileGrid getMatrixId).
Local Abbreviation construct :=
  (@newWMTS Number Projection TileGrid getMatrixId expandUrl createFromTileUrlFunctions).

(** What a compiled function is: the closure over the compiled
    template. *)
Lemma compile_inv (requestEncoding : string) (context : JsObj)
    (tileGrid : option TileGrid) (template : string)
    (f : JsObj -> TileUrlFunctionType Number Projection) :
  compile requestEncoding context tileGrid template = Returns f ->
  exists compiled : string,
    compileTemplate requestEncoding context template = Returns compiled
    /\ forall dimensions tileCoord pixelRatio projection,
         f dimensions tileCoord pixelRatio projection
         = match tileCoord with
           | None => Returns None
           | Some tc =>
               match tileGrid with
               | None => Raises TypeErr
               | Some grid =>
                   let localContext := dynamicContext getMatrixId grid dimensions tc in
                   if String.eqb requestEncoding WMTSRequestEncoding.KVP
                   then url <~ appendParams compiled localContext ;;
                        Returns (Some url)
                   else Returns (Some (replacePlaceholders
                                         (fun m p => getIn p localContext) compiled))
               end
           end.
Proof.
  unfold createFromWMTSTemplate_. intros H.
  destruct (compileTemplate requestEncoding context template) as [compiled|e];
    simpl in H; [|discriminate].
  exists compiled. split; [reflexivity|]. inversion H; subst f. reflexivity.
Qed.

(** C5 (as amended).  A compiled addressing function, for KVP as for REST
    and for any pixel ratio and projection, returns no URL when the tile
    coordinate is absent, and raises nothing then.  For a tile coordinate
    that is present it raises a [TypeError] when the source has no tile
    grid; with a tile grid it returns a URL, except that with KVP encoding
    it raises a [URIError] when a value of the dynamic context holds a
    surrogate without partner. *)
Theorem compiled_function_absent_coordinate :
  forall (requestEncoding : string) (context : JsObj) (tileGrid : option TileGrid)
         (template : string) (f : JsObj -> TileUrlFunctionType Number Projection)
         (dimensions : JsObj) (pixelRatio : Number) (projection : Projection),
    compile requestEncoding context tileGrid template = Returns f ->
    f dimensions None pixelRatio projection = Returns None
    /\ forall tileCoord : TileCoord,
         match tileGrid with
         | None =>
             f dimensions (Some tileCoord) pixelRatio projection = Raises TypeErr
         | Some grid =>
             if String.eqb requestEncoding WMTSRequestEncoding.KVP
                && negb (escapable (dynamicContext getMatrixId grid dimensions tileCoord))
             then f dimensions (Some tileCoord) pixelRatio projection = Raises URIErr
             else exists url : string,
                    f dimensions (Some tileCoord) pixelRatio projection
                    = Returns (Some url)
         end.
Proof.
  intros enc ctx tg template f dims pr proj H.
  apply compile_inv in H as (compiled & _ & Hf). split.
  - now rewrite Hf.
  - intros tc. rewrite Hf. destruct tg as [grid|]; [|reflexivity].
    cbv zeta. destruct (String.eqb enc WMTSRequestEncoding.KVP); cbn [andb].
    + rewrite appendParams_escapable.
      destruct (escapable (dynamicContext getMatrixId grid dims tc)); cbn [negb andThen].
      * eexists. reflexivity.
      * reflexivity.
    + eexists. reflexivity.
Qed.

(** C10.  A source constructed with neither [url] nor [urls] has the null
    tile URL function: whatever the tile coordinate, the pixel ratio and
    the projection, and also after its dimensions were updated, it produces
    no URL. *)
Theorem source_without_urls_produces_no_url :
  forall options : WMTSOptions TileGrid,
    opt_urls options = None ->
    opt_url options = None ->
    exists source : WMTS Number Projection TileGrid,
      construct options = Returns source
      /\ forall (tileCoord : option TileCoord) (pixelRatio : Number)
                (projection : Projection),
           tileUrl source tileCoord pixelRatio projection = Returns None
           /\ forall patch : JsObj,
                tileUrl (updateDimensions source patch)
                        tileCoord pixelRatio projection = Returns None.
Proof.
  intros options Hurls Hurl.
  unfold newWMTS. rewrite Hurls, Hurl. cbn [andThen].
  eexists. split; [reflexivity|].
  intros tc pr proj. split; [reflexivity | intros patch; reflexivity].
Qed.

(** C3 (as amended).  For a tile coordinate [(z, x, y)] whose row is
    between -2^53 and 2^53 - 1, a source with a tile grid and a dimensions
    mapping without an entry named [TileRow], the dynamic context holds
    [-y - 1] as its tile row; with KVP encoding, when no value of the
    dynamic context holds a surrogate without partner, the compiled
    function returns a URL whose query string has the parameter [TileRow]
    with the decimal form of [-y - 1] as its value. *)
Theorem tile_row_is_negated_row_minus_one :
  forall (context : JsObj) (tileGrid : TileGrid) (template : string)
         (dimensions : JsObj) (z x y : Z)
         (pixelRatio : Number) (projection : Projection),
    has "TileRow" dimensions = false ->
    exactRow y ->
    get "TileRow" (dynamicContext getMatrixId tileGrid dimensions (z, x, y))
      = JNumber (- y - 1)
    /\ forall f : JsObj -> TileUrlFunctionType Number Projection,
         compile WMTSRequestEncoding.KVP context (Some tileGrid) template = Returns f ->
         escapable (dynamicContext getMatrixId tileGrid dimensions (z, x, y)) = true ->
         exists url : string,
           f dimensions (Some (z, x, y)) pixelRatio projection = Returns (Some url)
           /\ In ("TileRow", string_of_Z (- y - 1)) (queryParams url).
Proof.
  intros ctx tg template dims z x y pr proj Hdims Hy.
  assert (Hrow : In ("TileRow", JNumber (- y - 1))
                    (dynamicContext getMatrixId tg dims (z, x, y))).
  { unfold dynamicContext. rewrite (negateMinusOne_exact y Hy).
    apply In_assign_kept; [exact Hdims | right; right; left; reflexivity]. }
  split.
  - unfold dynamicContext. rewrite get_assign_other by exact Hdims.
    simpl. now rewrite (negateMinusOne_exact y Hy).
  - intros f Hf Hesc. apply compile_inv in Hf as (compiled & _ & Hf).
    rewrite Hf. cbv zeta.
    change (String.eqb WMTSRequestEncoding.KVP WMTSRequestEncoding.KVP) with true.
    cbv iota. rewrite appendParams_escapable, Hesc. cbn [andThen].
    eexists. split; [reflexivity|].
    assert (Hshown : toString (JNumber (- y - 1)) = string_of_Z (- y - 1)).
    { apply numberToString_exact. unfold exactRow in Hy. lia. }
    change ("TileRow", string_of_Z (- y - 1))
      with (keyValue ("TileRow" ++ "=" ++ string_of_Z (- y - 1))).
    rewrite <- (percentEncode_number (- y - 1)) at 1. rewrite <- Hshown.
    apply In_queryParams_withQuery.
    + apply In_shownParams; [|reflexivity]. now apply ownEntries_In.
    + rewrite Hshown, percentEncode_number.
      unfold noChar. rewrite allChars_app. apply andb_true_iff. split; [reflexivity|].
      rewrite allChars_app. apply andb_true_iff. split; [reflexivity|].
      apply string_of_Z_no_amp.
Qed.

(** C9.  [updateDimensions] merges the patch into the dimensions of the
    source: a key of the patch gets the value of the patch, whether it was
    there or not, and every other key keeps its value, so that no key is
    removed.  The key of the source is recomputed at once from the merged
    mapping: the entries are written [name-value] and joined with [/], a
    separator that differs from the one inside an entry.  Updating a source
    without dimensions with [{time: "2020"}] and then with
    [{time: "2021", elevation: "100"}] gives the mapping
    [{time: "2021", elevation: "100"}], a key that holds both entries, and
    two successive keys that differ. *)
Theorem updateDimensions_merges_and_rekeys :
  forall (source : WMTS Number Projection TileGrid) (patch : JsObj),
    wfObj patch ->
    let updated := updateDimensions source patch in
    (forall k : string,
       has k (dimensions_ updated) = has k (dimensions_ source) || has k patch)
    /\ (forall k : string,
          get k (dimensions_ updated)
          = if has k patch then get k patch else get k (dimensions_ source))
    /\ key_ updated
       = join "/" (map (fun e => fst e ++ "-" ++ toString (snd e))
                       (ownEntries (dimensions_ updated)))
    /\ "-" <> "/"
    /\ (dimensions_ source = [] ->
        let first := updateDimensions source [("time", JString "2020")] in
        let second := updateDimensions first
                        [("time", JString "2021"); ("elevation", JString "100")] in
        dimensions_ second = [("time", JString "2021"); ("elevation", JString "100")]
        /\ key_ first = "time-2020"
        /\ key_ second = "time-2021/elevation-100"
        /\ key_ first <> key_ second).
Proof.
  intros source patch Hwf updated. subst updated. simpl.
  split; [|split; [|split; [|split]]].
  - intros k. apply has_assign.
  - intros k. now apply get_assign.
  - reflexivity.
  - discriminate.
  - intros Hempty. rewrite Hempty. repeat split. discriminate.
Qed.

End SourceProperties.

(** C4.  With REST encoding the placeholder [{foo}], which is neither a key
    of the static context nor of the dynamic context, is kept by the
    compile-time substitution but is replaced by the text [undefined] when
    the compiled function is called. *)
Theorem rest_unknown_placeholder_becomes_undefined :
  let context := staticContext "roads" "default" "grid" "1.0.0" "image/png"
                               WMTSRequestEncoding.REST in
  let template := "http://host/{foo}/{TileRow}.png" in
  hasIn "foo" context = false
  /\ hasIn "foo" (dynamicContext Fixture.getMatrixId ["0"] [] (0, 0, 0)%Z) = false
  /\ compileTemplate WMTSRequestEncoding.REST context template = Returns template
  /\ Fixture.compileAndCall WMTSRequestEncoding.REST context (Some ["0"]) template []
                            (Some (0, 0, 0)%Z)
     = Returns (Some "http://host/undefined/-1.png").
Proof.
  cbv zeta. repeat split; vm_compute; reflexivity.
Qed.

(* ===================================================================== *)
(** ** Properties of the capabilities resolver *)
(* ===================================================================== *)

Section ResolverProperties.

Variable Number : Type.
Variable numEq : Number -> Number -> bool.
Variable Projection : Type.
Variable TileGrid : Type.
Variable TileMatrices : Type.
Variable TileMatrixSetLimits : Type.
Variable getProjection : string -> option Projection.
Variable equivalent : Projection -> Projection -> bool.
Variable getExtent : Projection -> option (Extent Number).
Variable transformExtent : Extent Number -> string -> Projection -> Extent Number.
Variable containsExtent : Extent Number -> Extent Number -> bool.
Variable createFromCapabilitiesMatrixSet :
  TileMatrixSet TileMatrices -> option (Extent Number) -> option TileMatrixSetLimits
  -> Completion TileGrid.

Local Abbreviation Caps := (Capabilities Number TileMatrices TileMatrixSetLimits).
Local Abbreviation Opts := (Options Projection TileGrid).
Local Abbreviation resolve :=
  (@optionsFromCapabilities Number numEq Projection TileGrid TileMatrices TileMatrixSetLimits
     getProjection equivalent getExtent transformExtent containsExtent
     createFromCapabilitiesMatrixSet).
Local Abbreviation lookupLayer wmtsCap config :=
  (find (cap_Layer wmtsCap)
        (fun elt => String.eqb (layer_Identifier elt) (cfg_layer config))).

Lemma bind_Normal {A B : Type} (c : Completion A) (k : A -> Completion B) (b : B) :
  bind c k = Normal b -> exists a, c = Normal a /\ k a = Normal b.
Proof.
  destruct c as [a|]; simpl; [eauto | discriminate].
Qed.

Lemma deref_Normal {A : Type} (o : option A) (a : A) :
  deref o = Normal a -> o = Some a.
Proof.
  destruct o; simpl; congruence.
Qed.

(** What a configuration that is returned is made of. *)
Lemma resolve_inv (wmtsCap : Caps) (config : Config) (o : Opts) :
  resolve wmtsCap config = Normal (Some o) ->
  exists l idx link styleObj matrixSetObj extent wrapX requestEncoding urls format tileGrid,
    lookupLayer wmtsCap config = Some l
    /\ selectLink getProjection equivalent
         (cap_TileMatrixSet wmtsCap) config (layer_TileMatrixSetLink l) = Normal idx
    /\ at_ (layer_TileMatrixSetLink l) idx = Some link
    /\ at_ (layer_Style l) (selectStyle config (layer_Style l)) = Some styleObj
    /\ find (cap_TileMatrixSet wmtsCap)
            (fun elt => String.eqb (tms_Identifier elt) (link_TileMatrixSet link))
       = Some matrixSetObj
    /\ resolveExtent numEq getProjection getExtent transformExtent containsExtent l
         (resolveProjection getProjection equivalent config (tms_SupportedCRS matrixSetObj))
       = Normal (extent, wrapX)
    /\ negotiate wmtsCap config l
         (match cfg_format config with
          | Some f => Some f
          | None => List.hd_error (layer_Format l)
          end)
       = Normal (requestEncoding, urls, format)
    /\ createFromCapabilitiesMatrixSet matrixSetObj extent (link_TileMatrixSetLimits link)
       = Normal tileGrid
    /\ o = {| o_urls := urls;
              o_layer := cfg_layer config;
              o_matrixSet := link_TileMatrixSet link;
              o_format := format;
              o_projection :=
                resolveProjection getProjection equivalent config
                                  (tms_SupportedCRS matrixSetObj);
              o_requestEncoding := requestEncoding;
              o_tileGrid := tileGrid;
              o_style := style_Identifier styleObj;
              o_dimensions := initialDimensions l;
              o_wrapX := wrapX;
              o_crossOrigin := cfg_crossOrigin config |}.
Proof.
  unfold optionsFromCapabilities. intros H.
  destruct (lookupLayer wmtsCap config) as [l|] eqn:Hl; [|discriminate].
  apply bind_Normal in H as [idx [Hidx H]].
  apply bind_Normal in H as [link [Hlink H]]. apply deref_Normal in Hlink.
  apply bind_Normal in H as [styleObj [Hstyle H]]. apply deref_Normal in Hstyle.
  apply bind_Normal in H as [matrixSetObj [Hms H]]. apply deref_Normal in Hms.
  apply bind_Normal in H as [[extent wrapX] [Hext H]].
  apply bind_Normal in H as [tileGrid [Hgrid H]].
  apply bind_Normal in H as [[[requestEncoding urls] format] [Hneg H]].
  inversion H; subst o.
  exists l, idx, link, styleObj, matrixSetObj, extent, wrapX, requestEncoding, urls, format,
         tileGrid.
  repeat split; assumption.
Qed.

Lemma kvpUrls_cons (g : GetBinding) (gets : list GetBinding) :
  kvpUrls (g :: gets)
  = if offersKVP g then get_href g :: kvpUrls gets else kvpUrls gets.
Proof.
  unfold kvpUrls. simpl. now destruct (offersKVP g).
Qed.

(** Once KVP is the encoding, the scan keeps it and collects the URLs of
    the bindings that offer KVP. *)
Lemma scanGets_KVP (gets : list GetBinding) :
  forall (urls0 urls : list (option string)) (enc : option string),
    scanGets gets (Some WMTSRequestEncoding.KVP) urls0 = Normal (enc, urls) ->
    enc = Some WMTSRequestEncoding.KVP /\ urls = (urls0 ++ kvpUrls gets)%list.
Proof.
  induction gets as [|g gets IH]; intros urls0 urls enc H; simpl in H.
  - inversion H; subst. now rewrite app_nil_r.
  - rewrite kvpUrls_cons. unfold offersKVP.
    destruct (get_Constraint g) as [constraints|].
    + apply bind_Normal in H as [c [Hc H]]. apply deref_Normal in Hc.
      apply bind_Normal in H as [encodings [He H]]. apply deref_Normal in He.
      rewrite Hc, He. simpl in H.
      destruct (includes encodings WMTSRequestEncoding.KVP);
        apply IH in H as [-> ->]; split; try reflexivity.
      now rewrite <- app_assoc.
    + destruct (truthy (get_href g)).
      * apply IH in H as [-> ->]. split; [reflexivity | now rewrite <- app_assoc].
      * now apply IH in H.
Qed.

(** With a supplied encoding that is not KVP, the scan collects what
    [collectedUrls] says, and leaves the encoding as KVP when it collected
    something. *)
Lemma scanGets_other (supplied : string) (gets : list GetBinding) :
  supplied <> "" ->
  supplied <> WMTSRequestEncoding.KVP ->
  forall (urls0 urls : list (option string)) (enc : option string),
    scanGets gets (Some supplied) urls0 = Normal (enc, urls) ->
    urls = (urls0 ++ collectedUrls supplied gets)%list
    /\ (collectedUrls supplied gets = [] \/ enc = Some WMTSRequestEncoding.KVP).
Proof.
  intros Hne Hkvp.
  assert (Hs1 : String.eqb supplied "" = false) by now apply String.eqb_neq.
  assert (Hs2 : String.eqb supplied WMTSRequestEncoding.KVP = false)
    by now apply String.eqb_neq.
  unfold collectedUrls. rewrite Hs2.
  induction gets as [|g gets IH]; intros urls0 urls enc H; simpl in H.
  - inversion H; subst. simpl. rewrite app_nil_r. auto.
  - simpl find.
    destruct (get_Constraint g) as [constraints|] eqn:Hcon.
    + assert (Hinert : inert g = false) by (unfold inert; now rewrite Hcon).
      rewrite Hinert. simpl. rewrite Hcon.
      apply bind_Normal in H as [c [Hc H]].
      apply bind_Normal in H as [encodings [He H]].
      simpl in H. rewrite Hs1 in H. simpl in H. rewrite Hs2 in H.
      inversion H; subst. rewrite app_nil_r. auto.
    + destruct (truthy (get_href g)) eqn:Hhref.
      * assert (Hinert : inert g = false) by (unfold inert; now rewrite Hcon, Hhref).
        rewrite Hinert. simpl. rewrite Hcon.
        apply scanGets_KVP in H as [-> ->].
        rewrite kvpUrls_cons. unfold offersKVP. rewrite Hcon, Hhref.
        rewrite <- app_assoc. auto.
      * assert (Hinert : inert g = true) by (unfold inert; now rewrite Hcon, Hhref).
        rewrite Hinert. simpl.
        assert (Hsame : kvpUrls (g :: gets) = kvpUrls gets).
        { rewrite kvpUrls_cons. unfold offersKVP. now rewrite Hcon, Hhref. }
        rewrite Hsame. now apply IH.
Qed.

(** C2 (as amended).  When [config.requestEncoding] is supplied and the
    resolver returns a configuration, the URLs collected from the GetTile
    bindings are: with KVP supplied, those of the bindings whose
    [GetEncoding] constraint allows KVP and of the unconstrained bindings
    that have an [href], in the order of the document; with another
    encoding supplied, nothing, unless an unconstrained binding with an
    [href] comes before every constrained binding, which turns the
    encoding into KVP.  If a URL was collected the configuration has the
    encoding KVP and the collected URLs; if none was collected it has the
    encoding REST and the tile templates of the resource URLs of the
    layer. *)
Theorem supplied_encoding_is_kept_only_with_matching_urls :
  forall (wmtsCap : Caps) (config : Config) (o : Opts) (supplied : string),
    resolve wmtsCap config = Normal (Some o) ->
    cfg_requestEncoding config = Some supplied ->
    supplied <> "" ->
    exists l : Layer Number TileMatrixSetLimits,
      lookupLayer wmtsCap config = Some l
      /\ let gets := orDefault (cap_GetTile wmtsCap) [] in
         match collectedUrls supplied gets with
         | [] =>
             o_requestEncoding o = Some WMTSRequestEncoding.REST
             /\ o_urls o = tileTemplates l
         | collected =>
             o_requestEncoding o = Some WMTSRequestEncoding.KVP
             /\ o_urls o = collected
         end.
Proof.
  intros wmtsCap config o supplied H Hsup Hne.
  apply resolve_inv in H
    as (l & idx & link & styleObj & ms & extent & wrapX & enc & urls & format & grid
        & Hl & _ & _ & _ & _ & _ & Hneg & Hgrid & ->).
  exists l. split; [exact Hl|]. simpl.
  unfold negotiate in Hneg. rewrite Hsup in Hneg. simpl orDefault in Hneg.
  apply bind_Normal in Hneg as [[enc1 urls1] [Hscan Hneg]].
  assert (Hcollected :
            urls1 = collectedUrls supplied (orDefault (cap_GetTile wmtsCap) [])
            /\ (urls1 = [] \/ enc1 = Some WMTSRequestEncoding.KVP)).
  { destruct (cap_GetTile wmtsCap) as [gets|]; simpl.
    - destruct (String.eqb_spec supplied WMTSRequestEncoding.KVP) as [->|Hkvp].
      + apply scanGets_KVP in Hscan as [-> ->]. simpl. auto.
      + apply (scanGets_other supplied gets Hne Hkvp) in Hscan as [-> Henc].
        simpl. tauto.
    - inversion Hscan; subst. split; [|now left].
      unfold collectedUrls. simpl. now destruct (String.eqb supplied _). }
  destruct Hcollected as [Hurls Henc]. rewrite <- Hurls.
  destruct urls1 as [|u urls1].
  - apply bind_Normal in Hneg as [resources [Hres Hneg]]. apply deref_Normal in Hres.
    inversion Hneg; subst. unfold tileTemplates. now rewrite Hres.
  - destruct Henc as [Hnil | ->]; [discriminate|]. now inversion Hneg.
Qed.

(** *** Returning a configuration *)

Lemma find_None {A : Type} (arr : list A) (func : A -> bool) :
  find arr func = None <-> forall a, In a arr -> func a = false.
Proof.
  induction arr as [|x arr IH]; simpl.
  - split; [tauto | reflexivity].
  - destruct (func x) eqn:Hx.
    + split; [discriminate|]. intros H. specialize (H x (or_introl eq_refl)). congruence.
    + rewrite IH. split.
      * intros H a [<- | Ha]; auto.
      * intros H a Ha. apply H. now right.
Qed.






(** The scan collects URLs only for KVP. *)
Lemma scanGets_collects_for_KVP (gets : list GetBinding) :
  forall (enc0 enc : option string) (urls0 urls : list (option string)),
    scanGets gets enc0 urls0 = Normal (enc, urls) ->
    urls = urls0 \/ enc = Some WMTSRequestEncoding.KVP.
Proof.
  induction gets as [|g gets IH]; intros enc0 enc urls0 urls H; simpl in H.
  - inversion H; auto.
  - destruct (get_Constraint g) as [constraints|].
    + apply bind_Normal in H as [c [_ H]].
      apply bind_Normal in H as [encodings [_ H]].
      simpl in H.
      remember (if optEqb enc0 (Some "") then hd_error encodings else enc0) as enc1.
      destruct (optEqb enc1 (Some WMTSRequestEncoding.KVP)) eqn:Hkvp.
      * right. destruct enc1 as [e|]; [|discriminate].
        apply String.eqb_eq in Hkvp. subst e. now apply scanGets_KVP in H.
      * inversion H; auto.
    + destruct (truthy (get_href g)).
      * right. now apply scanGets_KVP in H.
      * eapply IH; eauto.
Qed.


(** With a projection in the configuration the selection does not read
    [config.matrixSet]. *)
Lemma selectLink_ignores_matrixSet_with_projection
    (tileMatrixSets : list (TileMatrixSet TileMatrices)) (config1 config2 : Config)
    (links : list (TileMatrixSetLink TileMatrixSetLimits)) (projection : string) :
  cfg_projection config1 = Some projection ->
  cfg_projection config2 = Some projection ->
  selectLink getProjection equivalent tileMatrixSets config1 links
  = selectLink getProjection equivalent tileMatrixSets config2 links.
Proof.
  intros H1 H2. unfold selectLink. now rewrite H1, H2.
Qed.

(** *** The projection *)

Lemma projectionOfCode_known (code : string) (p : Projection) :
  projectionOfCode getProjection code = Some p <-> knownAs getProjection code p.
Proof.
  unfold projectionOfCode, knownAs.
  destruct (getProjection (Crs.normalize code)) as [q|].
  - split; [intros [= ->]; now left | intros [[= ->] | [H _]]; [reflexivity | discriminate]].
  - split; [intros H; now right | intros [H | [_ H]]; [discriminate | exact H]].
Qed.

Lemma projectionOfCode_unknown (code : string) :
  projectionOfCode getProjection code = None <-> unknownCode getProjection code.
Proof.
  unfold projectionOfCode, unknownCode.
  destruct (getProjection (Crs.normalize code)) as [q|].
  - split; [discriminate | intros [H _]; discriminate].
  - split; [intros H; now split | intros [_ H]; exact H].
Qed.

(** The projection that the model derives is the one that the
    specification describes. *)
Lemma derivedProjection_derivedFrom (code : option string) :
  derivedFrom getProjection code (derivedProjection getProjection code).
Proof.
  destruct code as [[|c r]|]; simpl; try reflexivity.
  destruct (projectionOfCode getProjection (String c r)) as [p|] eqn:Hp.
  - now apply projectionOfCode_known.
  - now apply projectionOfCode_unknown.
Qed.

(** C7.  The projection of a configuration that the resolver returns is
    settled by the projection derived from the code of the selected matrix
    set, which is what the projection service gives for the short form of
    the code, or for the code itself when it does not know the short form.
    The projection of the configuration is the configured projection when
    [config.projection] is supplied and is equivalent to the derived
    projection, or when no projection is derived; in every other case it
    is the derived projection. *)
Theorem resolved_projection_adopts_compatible_configuration :
  forall (wmtsCap : Caps) (config : Config) (o : Opts),
    resolve wmtsCap config = Normal (Some o) ->
    exists (matrixSetObj : TileMatrixSet TileMatrices) (derived : option Projection),
      find (cap_TileMatrixSet wmtsCap)
           (fun elt => String.eqb (tms_Identifier elt) (o_matrixSet o))
        = Some matrixSetObj
      /\ derivedFrom getProjection (tms_SupportedCRS matrixSetObj) derived
      /\ (forall configured : string,
            cfg_projection config = Some configured ->
            compatible getProjection equivalent configured derived ->
            o_projection o = getProjection configured)
      /\ ((forall configured : string,
             cfg_projection config = Some configured ->
             ~ compatible getProjection equivalent configured derived) ->
          o_projection o = derived).
Proof.
  intros wmtsCap config o H.
  apply resolve_inv in H
    as (l & idx & link & styleObj & ms & extent & wrapX & enc & urls & format & grid
        & _ & _ & _ & _ & Hms & _ & _ & _ & ->).
  exists ms, (derivedProjection getProjection (tms_SupportedCRS ms)). simpl.
  split; [exact Hms|]. split; [apply derivedProjection_derivedFrom|].
  unfold resolveProjection, compatible.
  destruct (cfg_projection config) as [cp|].
  - split.
    + intros configured Heq Hc. inversion Heq; subst cp.
      destruct Hc as [Hnone | (pc & d & Hpc & Hd & Heqv)].
      * rewrite Hnone. now destruct (getProjection configured).
      * now rewrite Hpc, Hd, Heqv.
    + intros Hnot. specialize (Hnot cp eq_refl).
      destruct (getProjection cp) as [pc|] eqn:Hpc; [|reflexivity].
      destruct (derivedProjection getProjection (tms_SupportedCRS ms)) as [d|] eqn:Hd.
      * destruct (equivalent pc d) eqn:Heqv; [|reflexivity].
        exfalso. apply Hnot. right. now exists pc, d.
      * exfalso. apply Hnot. now left.
  - split.
    + intros configured Heq. discriminate.
    + reflexivity.
Qed.

(** C8.  When the layer that was looked up declares a bounding box, the
    [wrapX] flag of the configuration is true exactly when the minimum and
    the maximum x of the box equal those of the extent of EPSG:4326, the
    reference system of the box; when the layer declares no bounding box,
    the flag is absent. *)
Theorem wrapX_compares_horizontal_bounds :
  forall (wmtsCap : Caps) (config : Config) (o : Opts),
    resolve wmtsCap config = Normal (Some o) ->
    exists l : Layer Number TileMatrixSetLimits,
      lookupLayer wmtsCap config = Some l
      /\ match layer_WGS84BoundingBox l with
         | Some (b0, _, b2, _) =>
             exists (wgs84 : Projection) (e0 e1 e2 e3 : Number) (flag : bool),
               getProjection "EPSG:4326" = Some wgs84
               /\ getExtent wgs84 = Some (e0, e1, e2, e3)
               /\ o_wrapX o = Some flag
               /\ (flag = true <-> numEq b0 e0 = true /\ numEq b2 e2 = true)
         | None => o_wrapX o = None
         end.
Proof.
  intros wmtsCap config o H.
  apply resolve_inv in H
    as (l & idx & link & styleObj & ms & extent & wrapX & enc & urls & format & grid
        & Hl & _ & _ & _ & _ & Hext & _ & Hgrid & ->).
  exists l. split; [exact Hl|]. simpl.
  unfold resolveExtent in Hext.
  destruct (layer_WGS84BoundingBox l) as [[[[b0 b1] b2] b3]|].
  - apply bind_Normal in Hext as [wgs84 [Hw Hext]]. apply deref_Normal in Hw.
    apply bind_Normal in Hext as [[[[e0 e1] e2] e3] [He Hext]]. apply deref_Normal in He.
    apply bind_Normal in Hext as [p [_ Hext]].
    inversion Hext; subst.
    exists wgs84, e0, e1, e2, e3, (numEq b0 e0 && numEq b2 e2).
    repeat split; try assumption; try (apply andb_true_iff; assumption).
    + now apply andb_true_iff in H as [? ?].
    + now apply andb_true_iff in H as [? ?].
  - now inversion Hext.
Qed.

End ResolverProperties.

(* ===================================================================== *)
(** ** Examples *)
(* ===================================================================== *)

Section Examples.

Import Fixture.

(** The codes of the reference systems in their short form. *)
Example normalize_urn :
  Crs.normalize "urn:ogc:def:crs:EPSG::3857" = "EPSG:3857"
  /\ Crs.normalize "urn:ogc:def:crs:EPSG:6.18:3:3857" = "EPSG:3857"
  /\ Crs.normalize "urn:ogc:def:crs:OGC:1.3:CRS84" = "OGC:CRS84"
  /\ Crs.normalize "EPSG:4326" = "EPSG:4326".
Proof. repeat split. Qed.

(** Numbers as [Number::toString] prints them: digit by digit up to 2^53,
    with the fewest digits that identify the double beyond, in exponent
    form from 10^21 on. *)
Example number_forms :
  toString (JNumber (-4)) = "-4"
  /\ toString (JNumber 9007199254740993) = "9007199254740992"
  /\ toString (JNumber (2 ^ 64)) = "18446744073709552000"
  /\ toString (JNumber (10 ^ 21)) = "1e+21"
  /\ toString (JNumber (2 ^ 70)) = "1.1805916207174113e+21"
  /\ toString (JNumber (- 2 ^ 1024)) = "-Infinity".
Proof. repeat split; vm_compute; reflexivity. Qed.

(** Members of [Object.prototype] in a REST template: [constructor] is found
    in the static context when the template is compiled, [toString] in the
    dynamic context when the function is called. *)
Example inherited_placeholders :
  compileAndCall WMTSRequestEncoding.REST restContext (Some ["0"])
                 "http://host/{Constructor}" [] (Some (0, 0, 0)%Z)
  = Returns (Some "http://host/function Object() { [native code] }")
  /\ compileAndCall WMTSRequestEncoding.REST restContext (Some ["0"])
                    "http://host/{toString}" [] (Some (0, 0, 0)%Z)
     = Returns (Some "http://host/function toString() { [native code] }").
Proof. split; vm_compute; reflexivity. Qed.

(** A REST template: the static context fills [{Layer}] when the function
    is compiled, the dynamic context fills the rest when it is called. *)
Example rest_template_url :
  compileAndCall WMTSRequestEncoding.REST restContext (Some ["0"; "1"; "2"])
                 "http://host/{Layer}/{TileMatrix}/{TileRow}/{TileCol}.png" []
                 (Some (2, 5, -4)%Z)
  = Returns (Some "http://host/roads/2/3/5.png").
Proof. vm_compute. reflexivity. Qed.

(** A KVP template: the static parameters, then those of the call. *)
Example kvp_template_url :
  compileAndCall WMTSRequestEncoding.KVP kvpContext (Some ["0"; "1"; "2"])
                 "http://host/wmts" [] (Some (2, 5, 3)%Z)
  = Returns (Some ("http://host/wmts?layer=roads&style=default&tilematrixset=google3857"
                   ++ "&Service=WMTS&Request=GetTile&Version=1.0.0&Format=image%2Fpng"
                   ++ "&TileMatrix=2&TileCol=5&TileRow=-4")).
Proof. vm_compute. reflexivity. Qed.

(** A layer with one link: the hints of the configuration do not matter. *)
Example single_link_shortcut :
  exists o, resolve (document [linkTo "google3857"] None)
                    (request (Some "WGS84") (Some "EPSG:4326") None)
            = Normal (Some o)
            /\ o_matrixSet o = "google3857".
Proof. eexists. split; [vm_compute; reflexivity | reflexivity]. Qed.

(** Two links and a projection: the link whose matrix set has an equivalent
    reference system is taken; when no link matches, the first one is. *)
Example projection_selects_link :
  let wmtsCap := document [linkTo "WGS84"; linkTo "google3857"] None in
  (exists o, resolve wmtsCap (request None (Some "EPSG:900913") None) = Normal (Some o)
             /\ o_matrixSet o = "google3857")
  /\ (exists o, resolve wmtsCap (request None (Some "EPSG:2056") None) = Normal (Some o)
                /\ o_matrixSet o = "WGS84")
  /\ (exists o, resolve wmtsCap (request (Some "unknown") None None) = Normal (Some o)
                /\ o_matrixSet o = "WGS84").
Proof.
  cbv zeta. repeat split; eexists; (split; [vm_compute; reflexivity | reflexivity]).
Qed.

(** C1.  The layer has two links, to [WGS84] and to [google3857].  The
    configuration names the matrix set [google3857] and the projection
    EPSG:4326: the resolver takes the link that matches the projection,
    [WGS84], and not the link that [config.matrixSet] names.  Without the
    projection it takes [google3857]. *)
Theorem projection_hint_overrides_matrixSet :
  let wmtsCap := document [linkTo "WGS84"; linkTo "google3857"] None in
  (exists o, resolve wmtsCap (request (Some "google3857") (Some "EPSG:4326") None)
             = Normal (Some o)
             /\ o_matrixSet o = "WGS84")
  /\ (exists o, resolve wmtsCap (request (Some "google3857") None None)
                = Normal (Some o)
                /\ o_matrixSet o = "google3857").
Proof.
  cbv zeta. split; eexists; (split; [vm_compute; reflexivity | reflexivity]).
Qed.

(** C2, counterexample.  With KVP supplied and a document without GetTile
    bindings the configuration has the encoding REST; with REST supplied, a
    binding whose constraint allows REST is not collected, and an
    unconstrained binding makes the encoding KVP. *)
Lemma supplied_encoding_not_kept :
  let links := [linkTo "google3857"] in
  (exists o, resolve (document links None)
                     (request None None (Some WMTSRequestEncoding.KVP))
             = Normal (Some o)
             /\ o_requestEncoding o <> Some WMTSRequestEncoding.KVP)
  /\ (exists o, resolve (document links
                           (Some [{| get_href := Some "http://host/rest";
                                     get_Constraint :=
                                       Some [encodingConstraint [WMTSRequestEncoding.REST]] |}]))
                        (request None None (Some WMTSRequestEncoding.REST))
                = Normal (Some o)
                /\ ~ In (Some "http://host/rest") (o_urls o))
  /\ (exists o, resolve (document links
                           (Some [{| get_href := Some "http://host/wmts";
                                     get_Constraint := None |}]))
                        (request None None (Some WMTSRequestEncoding.REST))
                = Normal (Some o)
                /\ o_requestEncoding o <> Some WMTSRequestEncoding.REST).
Proof.
  cbv zeta. repeat split.
  - eexists. split; [vm_compute; reflexivity | simpl; discriminate].
  - eexists. split; [vm_compute; reflexivity | simpl; intros [H | []]; discriminate].
  - eexists. split; [vm_compute; reflexivity | simpl; discriminate].
Qed.

(** C3, counterexample.  A dimension named [TileRow] replaces the tile row
    of the dynamic context, and the URL carries its value.  For the row
    2^53 the subtraction is rounded: the tile row is -2^53 and not
    -2^53 - 1.  A source without tile grid raises a [TypeError], and a
    dimension whose value holds a surrogate without partner makes the call
    raise a [URIError]: neither gives a URL. *)
Lemma tile_row_overridden_by_dimension :
  (let dimensions := [("TileRow", JString "7")] in
   get "TileRow" (dynamicContext getMatrixId ["0"] dimensions (0, 0, 0)%Z)
     <> JNumber (- 0 - 1)
   /\ exists url,
        compileAndCall WMTSRequestEncoding.KVP kvpContext (Some ["0"]) "http://host/wmts"
                       dimensions (Some (0, 0, 0)%Z) = Returns (Some url)
        /\ ~ In ("TileRow", string_of_Z (- 0 - 1)) (queryParams url))
  /\ (let y := 9007199254740992%Z in
      get "TileRow" (dynamicContext getMatrixId ["0"] [] (0%Z, 0%Z, y))
        = JNumber (-9007199254740992)
      /\ JNumber (-9007199254740992) <> JNumber (- y - 1)
      /\ exists url,
           compileAndCall WMTSRequestEncoding.KVP kvpContext (Some ["0"]) "http://host/wmts"
                          [] (Some (0%Z, 0%Z, y)) = Returns (Some url)
           /\ In ("TileRow", "-9007199254740992") (queryParams url)
           /\ ~ In ("TileRow", string_of_Z (- y - 1)) (queryParams url))
  /\ compileAndCall WMTSRequestEncoding.KVP kvpContext None "http://host/wmts"
                    [] (Some (0, 0, 0)%Z) = Raises TypeErr
  /\ compileAndCall WMTSRequestEncoding.KVP kvpContext (Some ["0"]) "http://host/wmts"
                    [("time", JString loneSurrogate)] (Some (0, 0, 0)%Z) = Raises URIErr.
Proof.
  cbv zeta. split; [|split; [|split]].
  - split.
    + vm_compute. discriminate.
    + eexists. split; [vm_compute; reflexivity|].
      vm_compute. intros H.
      repeat (destruct H as [H | H]; [discriminate|]). exact H.
  - split; [vm_compute; reflexivity|]. split; [discriminate|].
    eexists. split; [vm_compute; reflexivity|]. split.
    + vm_compute. tauto.
    + vm_compute. intros H.
      repeat (destruct H as [H | H]; [discriminate|]). exact H.
  - vm_compute. reflexivity.
  - vm_compute. reflexivity.
Qed.

(** A base URL that has a [TileRow] parameter of its own keeps it, and gets
    the tile row of the call as well. *)
Example base_url_with_tile_row :
  compileAndCall WMTSRequestEncoding.KVP kvpContext (Some ["0"])
                 "http://host/wmts?TileRow=5" [] (Some (0, 0, 0)%Z)
  = Returns (Some ("http://host/wmts?TileRow=5&layer=roads&style=default"
                   ++ "&tilematrixset=google3857&Service=WMTS&Request=GetTile"
                   ++ "&Version=1.0.0&Format=image%2Fpng"
                   ++ "&TileMatrix=0&TileCol=0&TileRow=-1")).
Proof. vm_compute. reflexivity. Qed.

(** C5, counterexample.  A function compiled for a source without tile
    grid raises a [TypeError] when it is called for a tile, with REST as
    with KVP; with a tile grid and KVP it raises a [URIError] for a
    dimension whose value holds a surrogate without partner. *)
Lemma compiled_function_raises :
  (exists f,
     compile WMTSRequestEncoding.REST restContext None "http://host/{TileRow}.png"
       = Returns f
     /\ f [] None 1%Z "EPSG:3857" = Returns None
     /\ f [] (Some (0, 0, 0)%Z) 1%Z "EPSG:3857" = Raises TypeErr)
  /\ (exists f,
        compile WMTSRequestEncoding.KVP kvpContext None "http://host/wmts" = Returns f
        /\ f [] (Some (0, 0, 0)%Z) 1%Z "EPSG:3857" = Raises TypeErr)
  /\ (exists f,
        compile WMTSRequestEncoding.KVP kvpContext (Some ["0"]) "http://host/wmts"
          = Returns f
        /\ f [("time", JString loneSurrogate)] (Some (0, 0, 0)%Z) 1%Z "EPSG:3857"
           = Raises URIErr).
Proof.
  repeat split; eexists; (split; [reflexivity|]); repeat split; vm_compute; reflexivity.
Qed.


(** A source without URLs, asked for a tile. *)
Lemma source_without_urls_example :
  (opt_urls bareOptions = None /\ opt_url bareOptions = None)
  /\ exists source,
       construct bareOptions = Returns source
       /\ tileUrl source (Some (2, 5, 3)%Z) 1%Z "EPSG:3857" = Returns None
       /\ tileUrl (updateDimensions source [("time", JString "2020")])
                  (Some (2, 5, 3)%Z) 1%Z "EPSG:3857" = Returns None.
Proof.
  split; [split; reflexivity|].
  destruct (source_without_urls_produces_no_url Z string (list string) getMatrixId
              expandUrl createFromTileUrlFunctions bareOptions eq_refl eq_refl)
    as (source & Hsource & Hnone).
  exists source. split; [exact Hsource|].
  destruct (Hnone (Some (2, 5, 3)%Z) 1%Z "EPSG:3857") as [Hnow Hlater].
  split; [exact Hnow | apply Hlater].
Defined.

(** The tile row of the tile [(2, 5, 3)] with a [time] dimension. *)
Lemma tile_row_example :
  let dimensions := [("time", JString "2020")] in
  (has "TileRow" dimensions = false /\ exactRow 3)
  /\ get "TileRow" (dynamicContext getMatrixId ["0"; "1"; "2"] dimensions (2, 5, 3)%Z)
     = JNumber (-4)
  /\ exists url,
       compileAndCall WMTSRequestEncoding.KVP kvpContext (Some ["0"; "1"; "2"])
                      "http://host/wmts" dimensions (Some (2, 5, 3)%Z)
       = Returns (Some url)
       /\ In ("TileRow", "-4") (queryParams url).
Proof.
  cbv zeta.
  assert (Hrange : exactRow 3) by (unfold exactRow, two53; lia).
  pose proof (tile_row_is_negated_row_minus_one Z string (list string) getMatrixId
                kvpContext ["0"; "1"; "2"] "http://host/wmts"
                [("time", JString "2020")] 2 5 3 1%Z "EPSG:3857" eq_refl Hrange)
    as [Hrow Hurl].
  split; [split; [reflexivity | exact Hrange]|].
  split; [exact Hrow|].
  destruct (compile WMTSRequestEncoding.KVP kvpContext (Some ["0"; "1"; "2"])
                    "http://host/wmts") as [f|e] eqn:Hf; [|discriminate Hf].
  destruct (Hurl f Hf eq_refl) as (url & Hcall & Hin).
  exists url. split; [|exact Hin].
  unfold compileAndCall. rewrite Hf. exact Hcall.
Defined.

(** Two updates of the dimensions of a source. *)
Lemma updateDimensions_example :
  let source := bareSource in
  let patch := [("time", JString "2021"); ("elevation", JString "100")] in
  let first := updateDimensions source [("time", JString "2020")] in
  let second := updateDimensions first patch in
  wfObj patch
  /\ dimensions_ second = patch
  /\ key_ first = "time-2020"
  /\ key_ second = "time-2021/elevation-100"
  /\ key_ first <> key_ second.
Proof.
  cbv zeta.
  assert (Hwf : wfObj [("time", JString "2021"); ("elevation", JString "100")]).
  { unfold wfObj. simpl. repeat constructor; simpl; intuition discriminate. }
  split; [exact Hwf|].
  apply (updateDimensions_merges_and_rekeys Z string (list string)
           bareSource _ Hwf).
  reflexivity.
Defined.

(** A KVP binding and a REST binding, with KVP supplied. *)
Lemma supplied_encoding_example :
  let gets := [{| get_href := Some "http://host/wmts";
                  get_Constraint := Some [encodingConstraint [WMTSRequestEncoding.KVP]] |};
               {| get_href := Some "http://host/rest";
                  get_Constraint := Some [encodingConstraint ["RESTful"]] |}] in
  let wmtsCap := document [linkTo "google3857"] (Some gets) in
  let config := request None None (Some WMTSRequestEncoding.KVP) in
  exists o,
    resolve wmtsCap config = Normal (Some o)
    /\ o_requestEncoding o = Some WMTSRequestEncoding.KVP
    /\ o_urls o = [Some "http://host/wmts"].
Proof.
  cbv zeta. eexists. split; [vm_compute; reflexivity|].
  match goal with
  | |- o_requestEncoding ?o = _ /\ _ =>
      destruct (supplied_encoding_is_kept_only_with_matching_urls
                  Z Z.eqb string (list string) (list string) unit
                  getProjection equivalent getExtent transformExtent containsExtent
                  createFromCapabilitiesMatrixSet
                  (document [linkTo "google3857"]
                     (Some [{| get_href := Some "http://host/wmts";
                               get_Constraint :=
                                 Some [encodingConstraint [WMTSRequestEncoding.KVP]] |};
                            {| get_href := Some "http://host/rest";
                               get_Constraint :=
                                 Some [encodingConstraint ["RESTful"]] |}]))
                  (request None None (Some WMTSRequestEncoding.KVP))
                  o WMTSRequestEncoding.KVP)
        as [l [_ H]]
  end.
  - vm_compute. reflexivity.
  - reflexivity.
  - discriminate.
  - exact H.
Defined.

(** A configured projection that is equivalent to the derived one is
    adopted; one that is not is left aside. *)
Lemma resolved_projection_example :
  (exists o,
     resolve (document [linkTo "WGS84"; linkTo "google3857"] None)
             (request None (Some "EPSG:900913") None) = Normal (Some o)
     /\ o_matrixSet o = "google3857"
     /\ o_projection o = Some "EPSG:900913")
  /\ (exists o,
        resolve (document [linkTo "google3857"] None)
                (request None (Some "EPSG:4326") None) = Normal (Some o)
        /\ o_matrixSet o = "google3857"
        /\ o_projection o = Some "EPSG:3857").
Proof.
  split.
  - eexists. split; [vm_compute; reflexivity|]. split; [reflexivity|].
    match goal with
    | |- o_projection ?o = _ =>
        destruct (resolved_projection_adopts_compatible_configuration
                    Z Z.eqb string (list string) (list string) unit
                    getProjection equivalent getExtent transformExtent containsExtent
                    createFromCapabilitiesMatrixSet
                    (document [linkTo "WGS84"; linkTo "google3857"] None)
                    (request None (Some "EPSG:900913") None) o)
          as (ms & derived & Hms & Hderived & Hadopt & _)
    end.
    + vm_compute. reflexivity.
    + vm_compute in Hms. inversion Hms; subst ms. clear Hms.
      apply (Hadopt "EPSG:900913" eq_refl).
      right. exists "EPSG:900913", "EPSG:3857". split; [reflexivity|].
      split; [|reflexivity].
      destruct derived as [p|]; simpl in Hderived.
      * destruct Hderived as [H | [H _]]; vm_compute in H; [now inversion H | discriminate H].
      * destruct Hderived as [H _]. vm_compute in H. discriminate H.
  - eexists. split; [vm_compute; reflexivity|]. split; [reflexivity|].
    match goal with
    | |- o_projection ?o = _ =>
        destruct (resolved_projection_adopts_compatible_configuration
                    Z Z.eqb string (list string) (list string) unit
                    getProjection equivalent getExtent transformExtent containsExtent
                    createFromCapabilitiesMatrixSet
                    (document [linkTo "google3857"] None)
                    (request None (Some "EPSG:4326") None) o)
          as (ms & derived & Hms & Hderived & _ & Hretain)
    end.
    + vm_compute. reflexivity.
    + vm_compute in Hms. inversion Hms; subst ms. clear Hms.
      assert (Hd : derived = Some "EPSG:3857").
      { destruct derived as [p|]; simpl in Hderived.
        - destruct Hderived as [H | [H _]]; vm_compute in H;
            [now inversion H | discriminate H].
        - destruct Hderived as [H _]. vm_compute in H. discriminate H. }
      subst derived. apply Hretain.
      intros configured [= <-] [Hnone | (pc & pd & Hpc & Hpd & Heqv)].
      * discriminate Hnone.
      * inversion Hpd; subst pd.
        vm_compute in Hpc. inversion Hpc; subst pc. discriminate Heqv.
Defined.

(** A bounding box that spans the whole of EPSG:4326. *)
Lemma wrapX_example :
  let wmtsCap := document [linkTo "google3857"] None in
  let config := request None None None in
  exists o,
    resolve wmtsCap config = Normal (Some o)
    /\ exists l,
         find (cap_Layer wmtsCap)
              (fun elt => String.eqb (layer_Identifier elt) (cfg_layer config)) = Some l
         /\ match layer_WGS84BoundingBox l with
            | Some (b0, _, b2, _) =>
                exists wgs84 e0 e1 e2 e3 flag,
                  getProjection "EPSG:4326" = Some wgs84
                  /\ getExtent wgs84 = Some (e0, e1, e2, e3)
                  /\ o_wrapX o = Some flag
                  /\ (flag = true <-> Z.eqb b0 e0 = true /\ Z.eqb b2 e2 = true)
            | None => o_wrapX o = None
            end.
Proof.
  cbv zeta. eexists. split; [vm_compute; reflexivity|].
  apply (wrapX_compares_horizontal_bounds
           Z Z.eqb string (list string) (list string) unit
           getProjection equivalent getExtent transformExtent containsExtent
           createFromCapabilitiesMatrixSet).
  vm_compute. reflexivity.
Defined.

End Examples.

(* ===================================================================== *)
(** ** Further properties of the dimensions and of the key *)
(* ===================================================================== *)

Section DimensionProperties.

Variable Number : Type.
Variable Projection : Type.
Variable TileGrid : Type.
Variable getMatrixId : TileGrid -> Z -> JsVal.
Variable expandUrl : string -> list string.
Variable createFromTileUrlFunctions :
  list (TileUrlFunctionType Number Projection) -> TileUrlFunctionType Number Projection.

Local Abbreviation Source := (WMTS Number Projection TileGrid).
Local Abbreviation construct :=
  (@newWMTS Number Projection TileGrid getMatrixId expandUrl createFromTileUrlFunctions).

Lemma keys_set (k : string) (v : JsVal) (o : JsObj) :
  map fst (set k v o) = if has k o then map fst o else (map fst o ++ [k])%list.
Proof.
  induction o as [|[k' v'] o IH]; simpl; [reflexivity|].
  destruct (String.eqb_spec k k') as [->|Hne]; simpl; [reflexivity|].
  rewrite IH. now destruct (has k o).
Qed.

Lemma set_wf (k : string) (v : JsVal) (o : JsObj) : wfObj o -> wfObj (set k v o).
Proof.
  unfold wfObj. intros Hwf. rewrite keys_set.
  destruct (has k o) eqn:Hk; [exact Hwf|].
  apply has_false_not_In in Hk.
  eapply Permutation_NoDup; [apply Permutation_cons_append|].
  now constructor.
Qed.

Lemma setAll_wf (entries target : JsObj) : wfObj target -> wfObj (setAll entries target).
Proof.
  unfold setAll. revert target.
  induction entries as [|e entries IH]; intros target Hwf; simpl; [exact Hwf|].
  apply IH. now apply set_wf.
Qed.

(** [assign] keeps the keys of its target unique. *)
Lemma assign_wf (target source : JsObj) : wfObj target -> wfObj (assign target source).
Proof.
  intros Hwf. unfold assign. fold (setAll (ownEntries source) target).
  now apply setAll_wf.
Qed.

Lemma set_same (k : string) (v : JsVal) (o : JsObj) :
  has k o = true -> get k o = v -> set k v o = o.
Proof.
  induction o as [|[k' v'] o IH]; simpl; [discriminate|].
  destruct (String.eqb_spec k k') as [->|Hne]; simpl.
  - now intros _ ->.
  - intros Hk Hv. now rewrite IH.
Qed.

Lemma setAll_same (entries o : JsObj) :
  (forall e, In e entries -> has (fst e) o = true /\ get (fst e) o = snd e) ->
  setAll entries o = o.
Proof.
  unfold setAll. induction entries as [|e entries IH]; intros H; simpl; [reflexivity|].
  destruct (H e (or_introl eq_refl)) as [Hk Hv].
  rewrite (set_same _ _ _ Hk Hv). apply IH. intros e' He'. apply H. now right.
Qed.

(** Merging the same object a second time changes nothing. *)
Lemma assign_idempotent (target source : JsObj) :
  wfObj source -> assign (assign target source) source = assign target source.
Proof.
  intros Hwf. unfold assign at 1. fold (setAll (ownEntries source) (assign target source)).
  apply setAll_same. intros [k v] Hin. simpl.
  apply (proj1 (ownEntries_In _ _)) in Hin.
  assert (Hk : has k source = true).
  { apply has_In_fst. apply in_map_iff. exists (k, v). split; [reflexivity | exact Hin]. }
  split.
  - rewrite has_assign, Hk. apply orb_true_r.
  - rewrite get_assign by exact Hwf. rewrite Hk.
    apply get_In; [exact Hwf | exact Hin].
Qed.

(** X1.  Calling [updateDimensions] a second time with the same patch
    leaves the source as the first call made it: the same dimensions and
    the same key. *)
Theorem updateDimensions_twice_is_once :
  forall (source : Source) (patch : JsObj),
    wfObj patch ->
    updateDimensions (updateDimensions source patch) patch
    = updateDimensions source patch.
Proof.
  intros source patch Hwf. unfold updateDimensions. simpl.
  now rewrite (assign_idempotent _ _ Hwf).
Qed.

(** X2.  From its construction on and through any series of calls of
    [updateDimensions], the key of a source that the constructor returned
    is the key of its current dimensions, and the names of its dimensions
    stay unique. *)
Theorem key_follows_dimensions :
  forall (options : WMTSOptions TileGrid) (patches : list JsObj) (constructed : Source),
    wfObj (orDefault (opt_dimensions options) []) ->
    construct options = Returns constructed ->
    let source := updateDimensionsAll constructed patches in
    key_ source = getKeyForDimensions_ (getDimensions source)
    /\ wfObj (getDimensions source).
Proof.
  intros options patches constructed Hwf Hnew. cbv zeta.
  unfold updateDimensionsAll, getDimensions.
  assert (Hinit : key_ constructed = getKeyForDimensions_ (dimensions_ constructed)
                  /\ wfObj (dimensions_ constructed)).
  { unfold newWMTS in Hnew.
    match type of Hnew with
    | andThen ?c _ = _ => destruct c as [tileUrlFunction|e]; simpl in Hnew; [|discriminate]
    end.
    inversion Hnew; subst constructed. split; [reflexivity | exact Hwf]. }
  clear Hnew. revert Hinit. generalize constructed as source.
  induction patches as [|patch patches IH]; intros source Hinv; simpl; [exact Hinv|].
  apply IH. split; [reflexivity|]. simpl. apply assign_wf. apply Hinv.
Qed.

Lemma splitOn_join (sep : ascii) (pieces : list string) :
  pieces <> [] ->
  forallb (noChar sep) pieces = true ->
  splitOn sep (join (String sep EmptyString) pieces) = pieces.
Proof.
  induction pieces as [|p rest IH]; [congruence|].
  intros _ Hall. simpl in Hall. apply andb_true_iff in Hall as [Hp Hrest].
  destruct rest as [|q rest'].
  - simpl. now apply splitOn_noChar.
  - change (join (String sep EmptyString) (p :: q :: rest'))
      with (p ++ String sep (join (String sep EmptyString) (q :: rest'))).
    rewrite splitOn_app, (splitOn_noChar _ _ Hp), IH; [reflexivity | discriminate | exact Hrest].
Qed.

Lemma cutAt_fresh_prefix (sep : ascii) (k s : string) :
  noChar sep k = true -> cutAt sep (k ++ String sep s) = (k, Some s).
Proof.
  unfold noChar. induction k as [|c k IH]; simpl.
  - now rewrite Ascii.eqb_refl.
  - rewrite andb_true_iff, negb_true_iff. intros [Hc Hk]. now rewrite Hc, (IH Hk).
Qed.

Lemma keyEntry_injective (l1 : JsObj) :
  forall l2 : JsObj,
    separatorFree l1 = true -> separatorFree l2 = true ->
    map keyEntry l1 = map keyEntry l2 ->
    map shownEntry l1 = map shownEntry l2.
Proof.
  unfold separatorFree.
  induction l1 as [|[k1 v1] l1 IH]; intros [|[k2 v2] l2] H1 H2 Heq;
    simpl in *; try discriminate; [reflexivity|].
  apply andb_true_iff in H1 as [H1 H1'], H2 as [H2 H2'].
  apply andb_true_iff in H1 as [H1 _], H2 as [H2 _].
  apply andb_true_iff in H1 as [_ H1], H2 as [_ H2].
  inversion Heq as [[Hhead Htail]].
  unfold keyEntry in Hhead. simpl in Hhead.
  pose proof (cutAt_fresh_prefix "-" k1 (toString v1) H1) as C1.
  pose proof (cutAt_fresh_prefix "-" k2 (toString v2) H2) as C2.
  change (k1 ++ "-" ++ toString v1) with (k1 ++ String "-" (toString v1)) in Hhead.
  change (k2 ++ "-" ++ toString v2) with (k2 ++ String "-" (toString v2)) in Hhead.
  rewrite Hhead, C2 in C1. inversion C1; subst.
  unfold shownEntry at 1 3. simpl. f_equal; [congruence | now apply IH].
Qed.

Lemma separatorFree_pieces (l : JsObj) :
  separatorFree l = true -> forallb (noChar "/") (map keyEntry l) = true.
Proof.
  unfold separatorFree. induction l as [|[k v] l IH]; simpl; [reflexivity|].
  rewrite !andb_true_iff. intros [[[Hk _] Hv] Hl]. split; [|auto].
  unfold keyEntry, noChar. simpl. rewrite !allChars_app. simpl.
  unfold noChar in Hk, Hv. now rewrite Hk, Hv.
Qed.

Lemma separatorFree_ownEntries (o : JsObj) :
  separatorFree o = true -> separatorFree (ownEntries o) = true.
Proof.
  unfold separatorFree. rewrite !forallb_forall. intros H e He.
  apply H. now apply (proj1 (ownEntries_In _ _)).
Qed.

Lemma keyEntry_not_empty (e : string * JsVal) : keyEntry e <> "".
Proof.
  destruct e as [[|c k] v]; unfold keyEntry; simpl; discriminate.
Qed.

(** X3.  Two dimension mappings in which no name holds [/] or [-] and no
    value holds [/] have the same key only if they enumerate the same
    names with the same values (as the key writes them). *)
Theorem key_tells_separator_free_dimensions_apart :
  forall d1 d2 : JsObj,
    separatorFree d1 = true ->
    separatorFree d2 = true ->
    getKeyForDimensions_ d1 = getKeyForDimensions_ d2 ->
    map shownEntry (ownEntries d1) = map shownEntry (ownEntries d2).
Proof.
  intros d1 d2 H1 H2 Hkey.
  apply separatorFree_ownEntries in H1, H2.
  apply keyEntry_injective; [exact H1 | exact H2|].
  unfold getKeyForDimensions_ in Hkey. fold keyEntry in Hkey.
  pose proof (separatorFree_pieces _ H1) as P1.
  pose proof (separatorFree_pieces _ H2) as P2.
  destruct (map keyEntry (ownEntries d1)) as [|a1 l1] eqn:E1;
    destruct (map keyEntry (ownEntries d2)) as [|a2 l2] eqn:E2.
  - reflexivity.
  - exfalso. assert (Hs : splitOn "/" (join "/" (a2 :: l2)) = a2 :: l2)
      by (apply splitOn_join; [discriminate | exact P2]).
    rewrite <- Hkey in Hs. simpl in Hs. inversion Hs as [[Ha Hl]].
    destruct (ownEntries d2) as [|e2 r2]; [discriminate|].
    simpl in E2. inversion E2. symmetry in Ha. subst a2.
    now apply (keyEntry_not_empty e2).
  - exfalso. assert (Hs : splitOn "/" (join "/" (a1 :: l1)) = a1 :: l1)
      by (apply splitOn_join; [discriminate | exact P1]).
    rewrite Hkey in Hs. simpl in Hs. inversion Hs as [[Ha Hl]].
    destruct (ownEntries d1) as [|e1 r1]; [discriminate|].
    simpl in E1. inversion E1. symmetry in Ha. subst a1.
    now apply (keyEntry_not_empty e1).
  - rewrite <- (splitOn_join "/" (a1 :: l1)) by (discriminate || exact P1).
    rewrite <- (splitOn_join "/" (a2 :: l2)) by (discriminate || exact P2).
    now rewrite Hkey.
Qed.

Lemma set_fresh (k : string) (v : JsVal) (o : JsObj) :
  has k o = false -> set k v o = (o ++ [(k, v)])%list.
Proof.
  induction o as [|[k' v'] o IH]; simpl; [reflexivity|].
  intros H. apply orb_false_iff in H as [Hne Ho]. now rewrite Hne, (IH Ho).
Qed.

Lemma ownEntries_named_last (k : string) (v : JsVal) (o : JsObj) :
  arrayIndex k = None ->
  ownEntries (o ++ [(k, v)])%list = (ownEntries o ++ [(k, v)])%list.
Proof.
  intros Hk.
  assert (Hindexed : indexedEntries (o ++ [(k, v)])%list = indexedEntries o).
  { induction o as [|[k' v'] o IH]; simpl; [now rewrite Hk | now rewrite IH]. }
  unfold ownEntries, namedEntries.
  rewrite Hindexed, filter_app. simpl. rewrite Hk. now rewrite app_assoc.
Qed.

Lemma join_last (sep : string) (pieces : list string) (piece : string) :
  pieces <> [] -> join sep (pieces ++ [piece]) = join sep pieces ++ sep ++ piece.
Proof.
  induction pieces as [|p rest IH]; [congruence|]. intros _.
  destruct rest as [|q rest'].
  - reflexivity.
  - change (join sep ((p :: q :: rest') ++ [piece]))
      with (p ++ sep ++ join sep ((q :: rest') ++ [piece])).
    rewrite IH by discriminate.
    change (join sep (p :: q :: rest')) with (p ++ sep ++ join sep (q :: rest')).
    now rewrite !append_assoc.
Qed.

(** X4.  Adding one dimension under a new name that is no array index
    appends its entry to the key: the key of the former dimensions, [/],
    and [name-value]; for a source without dimensions the key is the entry
    alone. *)
Theorem new_dimension_extends_the_key :
  forall (source : Source) (name : string) (value : JsVal),
    has name (getDimensions source) = false ->
    arrayIndex name = None ->
    key_ (updateDimensions source [(name, value)])
    = match getDimensions source with
      | [] => name ++ "-" ++ toString value
      | _ => getKeyForDimensions_ (getDimensions source)
             ++ "/" ++ name ++ "-" ++ toString value
      end.
Proof.
  intros source name value Hfresh Hindex. unfold getDimensions in *.
  unfold updateDimensions. simpl key_.
  assert (Hassign : assign (dimensions_ source) [(name, value)]
                    = (dimensions_ source ++ [(name, value)])%list).
  { unfold assign, ownEntries, namedEntries. simpl. rewrite Hindex. simpl.
    now apply set_fresh. }
  rewrite Hassign. unfold getKeyForDimensions_.
  rewrite (ownEntries_named_last _ _ _ Hindex), map_app. simpl map at 2.
  destruct (dimensions_ source) as [|e rest] eqn:Hd; [reflexivity|].
  apply join_last.
  intros Hnil. apply map_eq_nil in Hnil.
  pose proof (Permutation_length (ownEntries_perm (e :: rest))) as Hlen.
  rewrite Hnil in Hlen. discriminate.
Qed.

End DimensionProperties.

(* ===================================================================== *)
(** ** Further properties of the REST templates *)
(* ===================================================================== *)

Section TemplateProperties.

Variable Number : Type.
Variable Projection : Type.
Variable TileGrid : Type.
Variable getMatrixId : TileGrid -> Z -> JsVal.

Local Abbreviation compile :=
  (@createFromWMTSTemplate_ Number Projection TileGrid getMatrixId).

Lemma append_nil (s : string) : s ++ "" = s.
Proof.
  induction s as [|c r IH]; simpl; [reflexivity | now rewrite IH].
Qed.

Lemma matchPlaceholder_other (c : ascii) (r : string) :
  Ascii.eqb c "{" = false -> matchPlaceholder (String c r) = None.
Proof.
  intros Hc. destruct c as [[] [] [] [] [] [] [] []]; try reflexivity; discriminate Hc.
Qed.

(** Text without an opening brace is copied. *)
Lemma replaceFrom_noBrace_app (f : string -> string -> JsVal) (pre s : string) :
  noBrace pre = true -> replaceFrom f 0 (pre ++ s) = pre ++ replaceFrom f 0 s.
Proof.
  unfold noBrace, noChar. induction pre as [|c pre IH]; [reflexivity|].
  cbn [allChars]. rewrite andb_true_iff, negb_true_iff. intros [Hc Hpre].
  change (String c pre ++ s) with (String c (pre ++ s)).
  cbn [replaceFrom]. rewrite (matchPlaceholder_other _ _ Hc).
  now rewrite (IH Hpre).
Qed.

Lemma replaceFrom_noBrace (f : string -> string -> JsVal) (s : string) :
  noBrace s = true -> replaceFrom f 0 s = s.
Proof.
  intros H. rewrite <- (append_nil s) at 1.
  rewrite (replaceFrom_noBrace_app f s "" H). simpl. apply append_nil.
Qed.

Lemma spanWord_run (p : string) (c : ascii) (rest : string) :
  allChars isWord p = true ->
  isWord c = false ->
  spanWord (p ++ String c rest) = (p, String c rest).
Proof.
  intros Hp Hc. induction p as [|a p IH]; simpl.
  - now rewrite Hc.
  - simpl in Hp. apply andb_true_iff in Hp as [Ha Hp]. now rewrite Ha, (IH Hp).
Qed.

Lemma replaceFrom_skip (f : string -> string -> JsVal) (p : string) (c : ascii)
    (rest : string) :
  replaceFrom f (S (String.length p)) (p ++ String c rest) = replaceFrom f 0 rest.
Proof.
  induction p as [|a p IH]; simpl; [reflexivity | exact IH].
Qed.

(** A placeholder at the head of the text is replaced by what the callback
    returns, and the scan goes on behind it. *)
Lemma replaceFrom_placeholder (f : string -> string -> JsVal) (p rest : string) :
  p <> "" ->
  allChars isWord p = true ->
  replaceFrom f 0 ("{" ++ p ++ "}" ++ rest)
  = toString (f ("{" ++ p ++ "}") p) ++ replaceFrom f 0 rest.
Proof.
  intros Hne Hp.
  change ("{" ++ p ++ "}" ++ rest) with (String "{" (p ++ String "}" rest)).
  cbn [replaceFrom].
  assert (Hm : matchPlaceholder (String "{" (p ++ String "}" rest)) = Some p).
  { unfold matchPlaceholder. rewrite (spanWord_run p "}" rest Hp eq_refl).
    destruct p; [congruence | reflexivity]. }
  rewrite Hm. now rewrite replaceFrom_skip.
Qed.

Lemma noBrace_app (s t : string) : noBrace (s ++ t) = noBrace s && noBrace t.
Proof.
  apply allChars_app.
Qed.

(** With an encoding other than KVP a template is compiled without error:
    the function replaces the placeholders of the dynamic context in the
    template that the static context was worked into. *)
Lemma compile_rest (requestEncoding : string) (context : JsObj) (tileGrid : TileGrid)
    (template : string) :
  String.eqb requestEncoding WMTSRequestEncoding.KVP = false ->
  exists f : JsObj -> TileUrlFunctionType Number Projection,
    compile requestEncoding context (Some tileGrid) template = Returns f
    /\ forall dimensions tileCoord pixelRatio projection,
         f dimensions (Some tileCoord) pixelRatio projection
         = Returns
             (Some (replacePlaceholders
                      (fun m p => getIn p (dynamicContext getMatrixId tileGrid
                                                          dimensions tileCoord))
                      (replacePlaceholders
                         (fun m p => if hasIn (toLowerCase p) context
                                     then getIn (toLowerCase p) context
                                     else JString m)
                         template))).
Proof.
  intros Henc. unfold createFromWMTSTemplate_, compileTemplate. rewrite Henc.
  cbn [andThen]. eexists. split; [reflexivity|]. reflexivity.
Qed.

(** X5.  With an encoding other than KVP, a template without an opening
    brace is the URL of every tile. *)
Theorem rest_template_without_placeholder_is_the_url :
  forall (requestEncoding : string) (context : JsObj) (tileGrid : TileGrid)
         (template : string) (dimensions : JsObj) (tileCoord : TileCoord)
         (pixelRatio : Number) (projection : Projection),
    String.eqb requestEncoding WMTSRequestEncoding.KVP = false ->
    noBrace template = true ->
    exists f : JsObj -> TileUrlFunctionType Number Projection,
      compile requestEncoding context (Some tileGrid) template = Returns f
      /\ f dimensions (Some tileCoord) pixelRatio projection = Returns (Some template).
Proof.
  intros enc ctx tg template dims tc pr proj Henc Hplain.
  destruct (compile_rest enc ctx tg template Henc) as (f & Hf & Hcall).
  exists f. split; [exact Hf|]. rewrite Hcall. unfold replacePlaceholders.
  now rewrite !replaceFrom_noBrace by (try rewrite replaceFrom_noBrace; assumption).
Qed.

(** X6.  With an encoding other than KVP, a placeholder that is no key of
    the static context in lower case, own or inherited, and that is, as it
    is written, a key of the dynamic context (the matrix, the column, the
    row or a dimension) is replaced by the value of that key; the text
    around it, when it has no opening brace, is kept. *)
Theorem rest_placeholder_takes_the_dynamic_value :
  forall (requestEncoding : string) (context : JsObj) (tileGrid : TileGrid)
         (before name after : string) (dimensions : JsObj) (tileCoord : TileCoord)
         (pixelRatio : Number) (projection : Projection),
    String.eqb requestEncoding WMTSRequestEncoding.KVP = false ->
    noBrace before = true ->
    noBrace after = true ->
    name <> "" ->
    allChars isWord name = true ->
    hasIn (toLowerCase name) context = false ->
    has name (dynamicContext getMatrixId tileGrid dimensions tileCoord) = true ->
    exists f : JsObj -> TileUrlFunctionType Number Projection,
      compile requestEncoding context (Some tileGrid)
              (before ++ "{" ++ name ++ "}" ++ after) = Returns f
      /\ f dimensions (Some tileCoord) pixelRatio projection
         = Returns
             (Some (before
                    ++ toString (get name (dynamicContext getMatrixId tileGrid
                                                          dimensions tileCoord))
                    ++ after)).
Proof.
  intros enc ctx tg pre p post dims tc pr proj Henc Hpre Hpost Hne Hp Hstatic Hdynamic.
  destruct (compile_rest enc ctx tg (pre ++ "{" ++ p ++ "}" ++ post) Henc)
    as (f & Hf & Hcall).
  exists f. split; [exact Hf|]. rewrite Hcall. unfold replacePlaceholders.
  do 2 f_equal.
  rewrite (replaceFrom_noBrace_app _ pre _ Hpre).
  rewrite (replaceFrom_placeholder _ p post Hne Hp).
  rewrite Hstatic. cbn [toString].
  rewrite (replaceFrom_noBrace _ post Hpost).
  rewrite !append_assoc. cbn ["++"%string].
  change (String "{" (p ++ String "}" post)) with ("{" ++ p ++ "}" ++ post).
  rewrite (replaceFrom_noBrace_app _ pre _ Hpre).
  rewrite (replaceFrom_placeholder _ p post Hne Hp).
  rewrite (replaceFrom_noBrace _ post Hpost).
  unfold getIn. now rewrite Hdynamic.
Qed.

(** X7.  With an encoding other than KVP, a placeholder whose name in lower
    case is a key of the static context ([layer], [style],
    [tilematrixset]) is replaced by the value of that key, however its
    letters are cased, when the value has no opening brace. *)
Theorem rest_placeholder_takes_the_static_value :
  forall (requestEncoding : string) (context : JsObj) (tileGrid : TileGrid)
         (before name after : string) (dimensions : JsObj) (tileCoord : TileCoord)
         (pixelRatio : Number) (projection : Projection),
    String.eqb requestEncoding WMTSRequestEncoding.KVP = false ->
    noBrace before = true ->
    noBrace after = true ->
    name <> "" ->
    allChars isWord name = true ->
    has (toLowerCase name) context = true ->
    noBrace (toString (get (toLowerCase name) context)) = true ->
    exists f : JsObj -> TileUrlFunctionType Number Projection,
      compile requestEncoding context (Some tileGrid)
              (before ++ "{" ++ name ++ "}" ++ after) = Returns f
      /\ f dimensions (Some tileCoord) pixelRatio projection
         = Returns (Some (before ++ toString (get (toLowerCase name) context) ++ after)).
Proof.
  intros enc ctx tg pre p post dims tc pr proj Henc Hpre Hpost Hne Hp Hstatic Hvalue.
  destruct (compile_rest enc ctx tg (pre ++ "{" ++ p ++ "}" ++ post) Henc)
    as (f & Hf & Hcall).
  exists f. split; [exact Hf|]. rewrite Hcall. unfold replacePlaceholders.
  do 2 f_equal.
  rewrite (replaceFrom_noBrace_app _ pre _ Hpre).
  rewrite (replaceFrom_placeholder _ p post Hne Hp).
  unfold hasIn, getIn. rewrite Hstatic. cbn [orb].
  rewrite (replaceFrom_noBrace _ post Hpost).
  apply replaceFrom_noBrace.
  rewrite !noBrace_app, Hpre, Hvalue, Hpost. reflexivity.
Qed.

End TemplateProperties.

(* ===================================================================== *)
(** ** Further properties of the codes of the reference systems *)
(* ===================================================================== *)

Section CrsProperties.

Variable Projection : Type.
Variable getProjection : string -> option Projection.

Lemma word_is_no_colon (s : string) :
  allChars isWord s = true -> noChar ":" s = true.
Proof.
  apply allChars_impl. intros c Hc.
  destruct (Ascii.eqb_spec c ":") as [->|]; [discriminate Hc | reflexivity].
Qed.

Lemma cutAtLastColon_none (s : string) :
  noChar ":" s = true -> Crs.cutAtLastColon s = None.
Proof.
  unfold noChar. induction s as [|c s IH]; simpl; [reflexivity|].
  rewrite andb_true_iff, negb_true_iff. intros [Hc Hs]. now rewrite (IH Hs), Hc.
Qed.

Lemma cutAtLastColon_app (a b : string) :
  noChar ":" b = true -> Crs.cutAtLastColon (a ++ String ":" b) = Some (a, b).
Proof.
  intros Hb. induction a as [|c a IH]; simpl.
  - now rewrite (cutAtLastColon_none b Hb).
  - now rewrite IH.
Qed.

(** X8.  A code of the form [urn:ogc:def:crs:<authority>:<version>:<code>],
    with an authority and a code made of word characters and a version
    without line break (it may be empty or hold colons), is normalised to
    [<authority>:<code>]; when the projection service knows that short
    form, it is the projection derived from the URN. *)
Theorem urn_code_is_reduced_to_authority_and_code :
  forall authority version code : string,
    authority <> "" ->
    allChars isWord authority = true ->
    code <> "" ->
    allChars isWord code = true ->
    Crs.hasLineTerminator version = false ->
    let urn := "urn:ogc:def:crs:" ++ authority ++ ":" ++ version ++ ":" ++ code in
    Crs.normalize urn = authority ++ ":" ++ code
    /\ forall p : Projection,
         getProjection (authority ++ ":" ++ code) = Some p ->
         derivedProjection getProjection (Some urn) = Some p.
Proof.
  intros authority version code Ha Hwa Hc Hwc Hv urn.
  assert (Hnorm : Crs.normalize urn = authority ++ ":" ++ code).
  { subst urn.
    set (t := authority ++ ":" ++ version ++ ":" ++ code).
    change ("urn:ogc:def:crs:" ++ t) with (String "u" ("rn:ogc:def:crs:" ++ t)).
    cbn [Crs.normalize].
    assert (Hstrip : Crs.stripPrefix "urn:ogc:def:crs:" (String "u" ("rn:ogc:def:crs:" ++ t))
                     = Some t) by reflexivity.
    rewrite Hstrip.
    assert (Htail : Crs.matchUrnTail t = Some (authority, code)).
    { unfold Crs.matchUrnTail. subst t.
      change (authority ++ ":" ++ version ++ ":" ++ code)
        with (authority ++ String ":" (version ++ String ":" code)).
      rewrite (spanWord_run authority ":" _ Hwa eq_refl).
      destruct authority as [|a0 authority']; [congruence|].
      rewrite (cutAtLastColon_app version code (word_is_no_colon code Hwc)).
      destruct code as [|c0 code']; [congruence|].
      unfold Crs.allWord. now rewrite Hwc, Hv. }
    now rewrite Htail. }
  split; [exact Hnorm|].
  intros p Hp. subst urn.
  change ("urn:ogc:def:crs:" ++ authority ++ ":" ++ version ++ ":" ++ code)
    with (String "u" ("rn:ogc:def:crs:" ++ authority ++ ":" ++ version ++ ":" ++ code))
    in *.
  cbn [derivedProjection]. unfold projectionOfCode. now rewrite Hnorm, Hp.
Qed.

(** X9.  A code in which [urn:ogc:def:crs:] does not occur is left as it
    is, so that its projection is the one that the projection service
    gives for the code itself. *)
Theorem plain_code_is_looked_up_as_it_is :
  forall code : string,
    occurs "urn:ogc:def:crs:" code = false ->
    Crs.normalize code = code
    /\ projectionOfCode getProjection code = getProjection code.
Proof.
  intros code Hocc.
  assert (Hnorm : Crs.normalize code = code).
  { induction code as [|c code IH]; [reflexivity|].
    cbn [Crs.normalize]. cbn [occurs] in Hocc.
    destruct (Crs.stripPrefix "urn:ogc:def:crs:" (String c code)); [discriminate|].
    now rewrite (IH Hocc). }
  split; [exact Hnorm|].
  unfold projectionOfCode. rewrite Hnorm. now destruct (getProjection code).
Qed.

End CrsProperties.

(* ===================================================================== *)
(** ** Further properties of the capabilities resolver *)
(* ===================================================================== *)

Section ResolverSteps.

Variable Number : Type.
Variable numEq : Number -> Number -> bool.
Variable Projection : Type.
Variable TileGrid : Type.
Variable TileMatrices : Type.
Variable TileMatrixSetLimits : Type.
Variable getProjection : string -> option Projection.
Variable equivalent : Projection -> Projection -> bool.
Variable getExtent : Projection -> option (Extent Number).
Variable transformExtent : Extent Number -> string -> Projection -> Extent Number.
Variable containsExtent : Extent Number -> Extent Number -> bool.
Variable createFromCapabilitiesMatrixSet :
  TileMatrixSet TileMatrices -> option (Extent Number) -> option TileMatrixSetLimits
  -> Completion TileGrid.

Local Abbreviation Caps := (Capabilities Number TileMatrices TileMatrixSetLimits).
Local Abbreviation Opts := (Options Projection TileGrid).
Local Abbreviation resolve :=
  (@optionsFromCapabilities Number numEq Projection TileGrid TileMatrices TileMatrixSetLimits
     getProjection equivalent getExtent transformExtent containsExtent
     createFromCapabilitiesMatrixSet).
Local Abbreviation lookupLayer wmtsCap config :=
  (find (cap_Layer wmtsCap)
        (fun elt => String.eqb (layer_Identifier elt) (cfg_layer config))).

(** *** The encoding and the URLs *)

Lemma scanGets_urls_from_bindings (gets : list GetBinding) :
  forall (enc0 enc : option string) (urls0 urls : list (option string)),
    scanGets gets enc0 urls0 = Normal (enc, urls) ->
    forall u, In u urls -> In u urls0 \/ exists g, In g gets /\ get_href g = u.
Proof.
  induction gets as [|g gets IH]; intros enc0 enc urls0 urls H u Hu; simpl in H.
  - inversion H; subst. now left.
  - assert (Hstep : forall e0 u0,
               scanGets gets e0 u0 = Normal (enc, urls) ->
               (forall x, In x u0 -> In x urls0 \/ x = get_href g) ->
               In u urls0 \/ exists g', In g' (g :: gets) /\ get_href g' = u).
    { intros e0 u0 Hscan Hu0.
      destruct (IH _ _ _ _ Hscan u Hu) as [Hin | [g' [Hg' Hh]]].
      - destruct (Hu0 u Hin) as [? | ->]; [now left|].
        right. exists g. split; [now left | reflexivity].
      - right. exists g'. split; [now right | exact Hh]. }
    destruct (get_Constraint g) as [constraints|].
    + apply bind_Normal in H as [c [_ H]].
      apply bind_Normal in H as [encodings [_ H]]. simpl in H.
      match type of H with
      | (if ?b then _ else _) = _ => destruct b
      end.
      * eapply Hstep; [exact H|]. intros x Hx.
        destruct (includes encodings WMTSRequestEncoding.KVP); [|now left].
        apply in_app_or in Hx as [Hx | [<- | []]]; auto.
      * inversion H; subst. now left.
    + destruct (truthy (get_href g)).
      * eapply Hstep; [exact H|]. intros x Hx.
        apply in_app_or in Hx as [Hx | [<- | []]]; auto.
      * eapply Hstep; [exact H|]. intros x Hx. now left.
Qed.

(** X10.  The encoding of a configuration is KVP or REST, whatever the
    request asked for.  It is KVP exactly when [href]s of GetTile bindings
    were collected, and the URLs are then those [href]s; otherwise it is
    REST and the URLs are the templates of the tile resources of the
    layer. *)
Theorem encoding_tells_where_the_urls_come_from :
  forall (wmtsCap : Caps) (config : Config) (o : Opts),
    resolve wmtsCap config = Normal (Some o) ->
    exists l : Layer Number TileMatrixSetLimits,
      lookupLayer wmtsCap config = Some l
      /\ ((o_requestEncoding o = Some WMTSRequestEncoding.KVP
           /\ o_urls o <> []
           /\ forall u, In u (o_urls o) ->
                exists gets g,
                  cap_GetTile wmtsCap = Some gets /\ In g gets /\ get_href g = u)
          \/ (o_requestEncoding o = Some WMTSRequestEncoding.REST
              /\ o_urls o = tileTemplates l)).
Proof.
  intros wmtsCap config o H.
  apply resolve_inv in H
    as (l & idx & link & styleObj & ms & extent & wrapX & enc & urls & format & grid
        & Hl & _ & _ & _ & _ & _ & Hneg & Hgrid & ->).
  exists l. split; [exact Hl|]. simpl.
  unfold negotiate in Hneg.
  apply bind_Normal in Hneg as [[enc1 urls1] [Hscan Hneg]].
  destruct urls1 as [|u1 urls1].
  - right. apply bind_Normal in Hneg as [resources [Hres Hneg]].
    apply deref_Normal in Hres. inversion Hneg; subst.
    unfold tileTemplates. now rewrite Hres.
  - left. inversion Hneg; subst.
    destruct (cap_GetTile wmtsCap) as [gets|]; [|discriminate].
    split; [|split; [discriminate|]].
    + now destruct (scanGets_collects_for_KVP _ _ _ _ _ Hscan).
    + intros u Hu.
      destruct (scanGets_urls_from_bindings _ _ _ _ _ Hscan u Hu) as [[] | [g [Hg Hh]]].
      now exists gets, g.
Qed.

Lemma scanGets_default (gets : list GetBinding) :
  forall (urls0 urls : list (option string)) (enc : option string),
    scanGets gets (Some "") urls0 = Normal (enc, urls) ->
    urls = (urls0 ++ defaultUrls gets)%list
    /\ (defaultUrls gets = [] \/ enc = Some WMTSRequestEncoding.KVP).
Proof.
  unfold defaultUrls.
  induction gets as [|g gets IH]; intros urls0 urls enc H; simpl in H.
  - inversion H; subst. simpl. rewrite app_nil_r. auto.
  - simpl find.
    destruct (get_Constraint g) as [constraints|] eqn:Hcon.
    + assert (Hinert : inert g = false) by (unfold inert; now rewrite Hcon).
      rewrite Hinert. simpl. rewrite Hcon.
      apply bind_Normal in H as [c [Hc H]]. apply deref_Normal in Hc.
      apply bind_Normal in H as [encodings [He H]]. apply deref_Normal in He.
      simpl in H.
      assert (Hfirst : firstEncoding g = List.hd_error encodings)
        by (unfold firstEncoding; now rewrite Hcon, Hc, He).
      rewrite Hfirst.
      destruct (optEqb (hd_error encodings) (Some WMTSRequestEncoding.KVP)) eqn:Hkvp.
      * destruct encodings as [|e encodings]; [discriminate|].
        simpl in Hkvp. apply String.eqb_eq in Hkvp. subst e. simpl in H.
        apply scanGets_KVP in H as [-> ->].
        rewrite kvpUrls_cons. unfold offersKVP. rewrite Hcon, Hc, He. simpl.
        rewrite <- app_assoc. auto.
      * inversion H; subst. rewrite app_nil_r. auto.
    + destruct (truthy (get_href g)) eqn:Hhref.
      * assert (Hinert : inert g = false) by (unfold inert; now rewrite Hcon, Hhref).
        rewrite Hinert. simpl. rewrite Hcon.
        apply scanGets_KVP in H as [-> ->].
        rewrite kvpUrls_cons. unfold offersKVP. rewrite Hcon, Hhref.
        rewrite <- app_assoc. auto.
      * assert (Hinert : inert g = true) by (unfold inert; now rewrite Hcon, Hhref).
        rewrite Hinert. simpl.
        assert (Hsame : kvpUrls (g :: gets) = kvpUrls gets).
        { rewrite kvpUrls_cons. unfold offersKVP. now rewrite Hcon, Hhref. }
        rewrite Hsame. now apply IH.
Qed.

(** X11.  Without [config.requestEncoding] the first GetTile binding that
    has an effect decides.  When it has no constraint, or when KVP is the
    first value that its [GetEncoding] constraint allows, the encoding is
    KVP and the URLs are those of all the bindings that offer KVP; in every
    other case, and without bindings, the encoding is REST and the URLs are
    the tile templates of the layer. *)
Theorem default_encoding_is_the_first_one_found :
  forall (wmtsCap : Caps) (config : Config) (o : Opts),
    resolve wmtsCap config = Normal (Some o) ->
    cfg_requestEncoding config = None ->
    exists l : Layer Number TileMatrixSetLimits,
      lookupLayer wmtsCap config = Some l
      /\ let gets := orDefault (cap_GetTile wmtsCap) [] in
         match defaultUrls gets with
         | [] =>
             o_requestEncoding o = Some WMTSRequestEncoding.REST
             /\ o_urls o = tileTemplates l
         | collected =>
             o_requestEncoding o = Some WMTSRequestEncoding.KVP
             /\ o_urls o = collected
         end.
Proof.
  intros wmtsCap config o H Hnone.
  apply resolve_inv in H
    as (l & idx & link & styleObj & ms & extent & wrapX & enc & urls & format & grid
        & Hl & _ & _ & _ & _ & _ & Hneg & Hgrid & ->).
  exists l. split; [exact Hl|]. simpl.
  unfold negotiate in Hneg. rewrite Hnone in Hneg. simpl orDefault in Hneg.
  apply bind_Normal in Hneg as [[enc1 urls1] [Hscan Hneg]].
  assert (Hcollected :
            urls1 = defaultUrls (orDefault (cap_GetTile wmtsCap) [])
            /\ (urls1 = [] \/ enc1 = Some WMTSRequestEncoding.KVP)).
  { destruct (cap_GetTile wmtsCap) as [gets|]; simpl.
    - apply scanGets_default in Hscan as [-> Henc]. simpl. tauto.
    - inversion Hscan; subst. split; [reflexivity | now left]. }
  destruct Hcollected as [Hurls Henc]. rewrite <- Hurls.
  destruct urls1 as [|u urls1].
  - apply bind_Normal in Hneg as [resources [Hres Hneg]]. apply deref_Normal in Hres.
    inversion Hneg; subst. unfold tileTemplates. now rewrite Hres.
  - destruct Henc as [Hnil | ->]; [discriminate|]. now inversion Hneg.
Qed.

(** *** The format *)

Lemma fold_left_last_format (tiles : list ResourceURL) (format : option string) :
  fold_left (fun _ element => Some (res_format element)) tiles format
  = match List.hd_error (rev tiles) with
    | Some element => Some (res_format element)
    | None => format
    end.
Proof.
  induction tiles as [|t tiles IH] using rev_ind; [reflexivity|].
  rewrite fold_left_app, rev_app_distr. reflexivity.
Qed.

(** X12.  With the encoding KVP the format of a configuration is
    [config.format], or the first format of the layer when the request
    names none.  With the encoding REST it is the format of the last tile
    resource of the layer, also when the request names a format; only a
    layer without tile resource keeps the format chosen before. *)
Theorem format_follows_the_encoding :
  forall (wmtsCap : Caps) (config : Config) (o : Opts),
    resolve wmtsCap config = Normal (Some o) ->
    exists l : Layer Number TileMatrixSetLimits,
      lookupLayer wmtsCap config = Some l
      /\ let chosen := match cfg_format config with
                       | Some f => Some f
                       | None => List.hd_error (layer_Format l)
                       end in
         (o_requestEncoding o = Some WMTSRequestEncoding.KVP -> o_format o = chosen)
         /\ (o_requestEncoding o = Some WMTSRequestEncoding.REST ->
             o_format o = match List.hd_error (rev (tileResources l)) with
                          | Some element => Some (res_format element)
                          | None => chosen
                          end).
Proof.
  intros wmtsCap config o H.
  apply resolve_inv in H
    as (l & idx & link & styleObj & ms & extent & wrapX & enc & urls & format & grid
        & Hl & _ & _ & _ & _ & _ & Hneg & Hgrid & ->).
  exists l. split; [exact Hl|]. simpl.
  unfold negotiate in Hneg.
  apply bind_Normal in Hneg as [[enc1 urls1] [Hscan Hneg]].
  destruct urls1 as [|u1 urls1].
  - apply bind_Normal in Hneg as [resources [Hres Hneg]].
    apply deref_Normal in Hres. inversion Hneg; subst.
    split; [discriminate|]. intros _.
    unfold tileResources. rewrite Hres. apply fold_left_last_format.
  - inversion Hneg; subst. split; [reflexivity|].
    intros Hrest. exfalso.
    destruct (cap_GetTile wmtsCap) as [gets|]; [|discriminate].
    destruct (scanGets_collects_for_KVP _ _ _ _ _ Hscan) as [? | Hkvp]; [discriminate|].
    rewrite Hkvp in Hrest. discriminate.
Qed.

(** *** The style and the link *)

Lemma findIndexFrom_find {A : Type} (arr : list A) (func : A -> bool) :
  forall i : Z,
    match find arr func with
    | Some x =>
        exists n : nat,
          findIndexFrom i arr func = (i + Z.of_nat n)%Z /\ nth_error arr n = Some x
    | None => findIndexFrom i arr func = (-1)%Z
    end.
Proof.
  induction arr as [|a arr IH]; intros i; simpl; [reflexivity|].
  destruct (func a).
  - exists 0%nat. split; [lia | reflexivity].
  - specialize (IH (i + 1)%Z). destruct (find arr func) as [x|]; [|exact IH].
    destruct IH as [n [Hn Hx]]. exists (S n). split; [lia | exact Hx].
Qed.

Lemma at_of_nat {A : Type} (arr : list A) (n : nat) :
  at_ arr (Z.of_nat n) = nth_error arr n.
Proof.
  unfold at_. destruct (Z.ltb_spec (Z.of_nat n) 0); [lia|]. now rewrite Nat2Z.id.
Qed.

(** The element at the index that [findIndex] gives, the first index
    standing in when it gives none, is the element that [find] gives, the
    first element standing in. *)
Lemma at_findIndex {A : Type} (arr : list A) (func : A -> bool) :
  at_ arr (if (findIndex arr func <? 0)%Z then 0%Z else findIndex arr func)
  = match find arr func with
    | Some x => Some x
    | None => List.hd_error arr
    end.
Proof.
  unfold findIndex. pose proof (findIndexFrom_find arr func 0) as H.
  destruct (find arr func) as [x|].
  - destruct H as [n [-> Hx]]. simpl Z.add.
    destruct (Z.ltb_spec (Z.of_nat n) 0); [lia|]. now rewrite at_of_nat.
  - rewrite H. simpl. now destruct arr.
Qed.

Lemma find_Some {A : Type} (arr : list A) (func : A -> bool) (x : A) :
  find arr func = Some x -> In x arr /\ func x = true.
Proof.
  induction arr as [|a arr IH]; simpl; [discriminate|].
  destruct (func a) eqn:Ha.
  - intros [= <-]. auto.
  - intros H. destruct (IH H). auto.
Qed.

(** X13.  The style of a configuration is the identifier of the first
    style of the layer whose title is [config.style], or, when the request
    names no style, of the first style that is flagged as the default; when
    no style qualifies it is the identifier of the first style of the
    layer. *)
Theorem style_is_the_wanted_one_or_the_first :
  forall (wmtsCap : Caps) (config : Config) (o : Opts),
    resolve wmtsCap config = Normal (Some o) ->
    exists (l : Layer Number TileMatrixSetLimits) (style : Style),
      lookupLayer wmtsCap config = Some l
      /\ match find (layer_Style l) (wantedStyle config) with
         | Some wanted => Some wanted
         | None => List.hd_error (layer_Style l)
         end = Some style
      /\ o_style o = style_Identifier style.
Proof.
  intros wmtsCap config o H.
  apply resolve_inv in H
    as (l & idx & link & styleObj & ms & extent & wrapX & enc & urls & format & grid
        & Hl & _ & _ & Hstyle & _ & _ & _ & Hgrid & ->).
  exists l, styleObj. split; [exact Hl|]. split; [|reflexivity].
  unfold selectStyle in Hstyle.
  change (fun elt : Style =>
            match cfg_style config with
            | Some style => optEqb (style_Title elt) (Some style)
            | None => style_isDefault elt
            end) with (wantedStyle config) in Hstyle.
  now rewrite at_findIndex in Hstyle.
Qed.

(** X14.  Without [config.projection] the matrix set of a configuration
    is [config.matrixSet] when a link of the layer names it; when the
    request names no matrix set, or one that no link names, it is the
    matrix set of the first link of the layer. *)
Theorem matrix_set_is_the_named_one_or_the_first :
  forall (wmtsCap : Caps) (config : Config) (o : Opts),
    resolve wmtsCap config = Normal (Some o) ->
    cfg_projection config = None ->
    exists l : Layer Number TileMatrixSetLimits,
      lookupLayer wmtsCap config = Some l
      /\ let named := map link_TileMatrixSet (layer_TileMatrixSetLink l) in
         (forall m, cfg_matrixSet config = Some m -> In m named -> o_matrixSet o = m)
         /\ ((forall m, cfg_matrixSet config = Some m -> ~ In m named) ->
             exists first rest,
               layer_TileMatrixSetLink l = first :: rest
               /\ o_matrixSet o = link_TileMatrixSet first).
Proof.
  intros wmtsCap config o H Hproj.
  apply resolve_inv in H
    as (l & idx & link & styleObj & ms & extent & wrapX & enc & urls & format & grid
        & Hl & Hsel & Hlink & _ & _ & _ & _ & Hgrid & ->).
  exists l. split; [exact Hl|]. simpl.
  set (links := layer_TileMatrixSetLink l) in *.
  set (byName := fun elt : TileMatrixSetLink TileMatrixSetLimits =>
                   optEqb (Some (link_TileMatrixSet elt)) (cfg_matrixSet config)).
  assert (Hchoice : match find links byName with
                    | Some k => Some k
                    | None => List.hd_error links
                    end = Some link).
  { unfold selectLink in Hsel. rewrite Hproj in Hsel. fold byName in Hsel.
    destruct (Z.of_nat (List.length links) >? 1)%Z eqn:Hlen; simpl in Hsel;
      inversion Hsel; subst idx.
    - now rewrite at_findIndex in Hlink.
    - rewrite Z.gtb_ltb in Hlen. apply Z.ltb_ge in Hlen.
      destruct links as [|only [|second rest]];
        [discriminate | | cbn [List.length] in Hlen; lia].
      simpl in Hlink. inversion Hlink; subst. simpl. now destruct (byName link). }
  split.
  - intros m Hm Hin.
    destruct (find links byName) as [k|] eqn:Hfind.
    + inversion Hchoice; subst k. apply find_Some in Hfind as [_ Hk].
      unfold byName in Hk. rewrite Hm in Hk. simpl in Hk. now apply String.eqb_eq in Hk.
    + exfalso. apply in_map_iff in Hin as [k [Hk Hin]].
      pose proof (proj1 (find_None links byName) Hfind k Hin) as Hno.
      unfold byName in Hno. rewrite Hm, Hk in Hno. simpl in Hno.
      now rewrite String.eqb_refl in Hno.
  - intros Hnone.
    destruct (find links byName) as [k|] eqn:Hfind.
    + exfalso. apply find_Some in Hfind as [Hin Hk].
      unfold byName in Hk. destruct (cfg_matrixSet config) as [m|] eqn:Hm; [|discriminate].
      simpl in Hk. apply String.eqb_eq in Hk.
      apply (Hnone m eq_refl). rewrite <- Hk. now apply in_map.
    + destruct links as [|first rest]; [discriminate|].
      inversion Hchoice; subst. now exists link, rest.
Qed.

Lemma findIndexFromC_first {A : Type} (arr : list A) (func : A -> Completion bool) :
  forall (i r : Z),
    findIndexFromC i arr func = Normal r ->
    (r = (-1)%Z /\ forall a, In a arr -> func a = Normal false)
    \/ exists before x after,
         arr = (before ++ x :: after)%list
         /\ (forall b, In b before -> func b = Normal false)
         /\ func x = Normal true
         /\ r = (i + Z.of_nat (List.length before))%Z.
Proof.
  induction arr as [|a arr IH]; intros i r H; simpl in H.
  - inversion H. left. split; [reflexivity | intros a []].
  - apply bind_Normal in H as [b [Hb H]]. destruct b.
    + inversion H; subst. right. exists [], a, arr. simpl.
      repeat split; [intros b [] | exact Hb | lia].
    + destruct (IH _ _ H) as [[-> Hall] | (before & x & after & -> & Hbefore & Hx & ->)].
      * left. split; [reflexivity|]. intros a' [<- | Ha']; auto.
      * right. exists (a :: before), x, after. simpl.
        repeat split; [intros b [<- | Hin]; auto | exact Hx | lia].
Qed.

(** What the callback of the selection decides is what the specification
    says of a match. *)
Lemma linkMatchesProjection_crsMatches
    (tileMatrixSets : list (TileMatrixSet TileMatrices)) (projection : string)
    (link : TileMatrixSetLink TileMatrixSetLimits) (b : bool) :
  linkMatchesProjection getProjection equivalent tileMatrixSets projection link = Normal b ->
  exists matrixSet code,
    find tileMatrixSets
         (fun elt => String.eqb (tms_Identifier elt) (link_TileMatrixSet link))
      = Some matrixSet
    /\ tms_SupportedCRS matrixSet = Some code
    /\ (b = true <-> crsMatches getProjection equivalent code projection).
Proof.
  unfold linkMatchesProjection. intros H.
  apply bind_Normal in H as [ms [Hms H]]. apply deref_Normal in Hms.
  apply bind_Normal in H as [code [Hcode H]]. apply deref_Normal in Hcode.
  exists ms, code. split; [exact Hms|]. split; [exact Hcode|].
  unfold crsMatches.
  destruct (projectionOfCode getProjection code) as [p1|] eqn:Hp1.
  - destruct (getProjection projection) as [p2|] eqn:Hp2.
    + inversion H; subst b. split.
      * intros Heqv. left. exists p1, p2.
        split; [now apply projectionOfCode_known | now split].
      * intros [(q1 & q2 & Hq1 & Hq2 & Heqv) | [[Hunknown | Hnone] _]].
        -- apply projectionOfCode_known in Hq1. congruence.
        -- apply projectionOfCode_unknown in Hunknown. congruence.
        -- discriminate Hnone.
    + inversion H; subst b. rewrite String.eqb_eq. split.
      * intros ->. right. split; [now right | reflexivity].
      * intros [(q1 & q2 & _ & Hq2 & _) | [_ Heq]]; [discriminate Hq2 | exact Heq].
  - inversion H; subst b. rewrite String.eqb_eq. split.
    + intros ->. right. split; [|reflexivity]. left.
      now apply projectionOfCode_unknown.
    + intros [(q1 & q2 & Hq1 & _ & _) | [_ Heq]]; [|exact Heq].
      apply projectionOfCode_known in Hq1. congruence.
Qed.

(** X15.  With [config.projection] and a layer with several links, the
    matrix set of a configuration is that of the first link whose matrix
    set matches the projection: the projection of its code and the
    configured projection are known and equivalent, or, when one of them is
    unknown, the code and [config.projection] are the same text.  When no
    link matches it is that of the first link.  A layer with one link
    gives the matrix set of that link. *)
Theorem matrix_set_is_the_first_that_matches_the_projection :
  forall (wmtsCap : Caps) (config : Config) (o : Opts) (projection : string),
    resolve wmtsCap config = Normal (Some o) ->
    cfg_projection config = Some projection ->
    exists l : Layer Number TileMatrixSetLimits,
      lookupLayer wmtsCap config = Some l
      /\ let links := layer_TileMatrixSetLink l in
         let coded (link : TileMatrixSetLink TileMatrixSetLimits) (code : string) :=
           exists matrixSet,
             find (cap_TileMatrixSet wmtsCap)
                  (fun elt => String.eqb (tms_Identifier elt) (link_TileMatrixSet link))
               = Some matrixSet
             /\ tms_SupportedCRS matrixSet = Some code in
         let matches link :=
           exists code, coded link code
                        /\ crsMatches getProjection equivalent code projection in
         let differs link :=
           exists code, coded link code
                        /\ ~ crsMatches getProjection equivalent code projection in
         ((1 < List.length links)%nat ->
          (exists before link after,
             links = (before ++ link :: after)%list
             /\ (forall b, In b before -> differs b)
             /\ matches link
             /\ o_matrixSet o = link_TileMatrixSet link)
          \/ ((forall b, In b links -> differs b)
              /\ exists first rest,
                   links = first :: rest
                   /\ o_matrixSet o = link_TileMatrixSet first))
         /\ (forall only, links = [only] -> o_matrixSet o = link_TileMatrixSet only).
Proof.
  intros wmtsCap config o projection H Hproj.
  apply resolve_inv in H
    as (l & idx & link & styleObj & ms & extent & wrapX & enc & urls & format & grid
        & Hl & Hsel & Hlink & _ & _ & _ & _ & Hgrid & ->).
  exists l. split; [exact Hl|]. simpl.
  set (links := layer_TileMatrixSetLink l) in *.
  unfold selectLink in Hsel. rewrite Hproj in Hsel.
  assert (Hdiffers : forall b : TileMatrixSetLink TileMatrixSetLimits,
             linkMatchesProjection getProjection equivalent
               (cap_TileMatrixSet wmtsCap) projection b = Normal false ->
             exists code,
               (exists matrixSet,
                  find (cap_TileMatrixSet wmtsCap)
                       (fun elt => String.eqb (tms_Identifier elt) (link_TileMatrixSet b))
                    = Some matrixSet
                  /\ tms_SupportedCRS matrixSet = Some code)
               /\ ~ crsMatches getProjection equivalent code projection).
  { intros b Hb.
    apply linkMatchesProjection_crsMatches in Hb as (m & code & Hm & Hcode & Hiff).
    exists code. split; [now exists m|]. intros Hmatch. apply Hiff in Hmatch. discriminate. }
  split.
  - intros Hlen.
    assert (Hgt : (Z.of_nat (List.length links) >? 1)%Z = true)
      by (apply Z.gtb_lt; lia).
    rewrite Hgt in Hsel. apply bind_Normal in Hsel as [r [Hr Hsel]].
    inversion Hsel; subst idx. unfold findIndexC in Hr.
    destruct (findIndexFromC_first _ _ _ _ Hr)
      as [[-> Hall] | (before & x & after & Heq & Hbefore & Hx & ->)].
    + right. split; [intros b Hb; apply Hdiffers; now apply Hall|]. simpl in Hlink.
      destruct links as [|first rest]; [discriminate|].
      simpl in Hlink. inversion Hlink; subst. now exists link, rest.
    + left. exists before, x, after.
      split; [exact Heq|].
      split; [intros b Hb; apply Hdiffers; now apply Hbefore|].
      split.
      * apply linkMatchesProjection_crsMatches in Hx as (m & code & Hm & Hcode & Hiff).
        exists code. split; [now exists m | now apply Hiff].
      * simpl Z.add in Hlink.
        destruct (Z.ltb_spec (Z.of_nat (List.length before)) 0); [lia|].
        rewrite at_of_nat, Heq, nth_error_app2, Nat.sub_diag in Hlink by lia.
        simpl in Hlink. now inversion Hlink.
  - intros only Honly. rewrite Honly in Hsel, Hlink. simpl in Hsel.
    inversion Hsel; subst idx. simpl in Hlink. now inversion Hlink.
Qed.

(** *** The dimensions *)



(** *** The extent of the tile grid *)

(** X17.  The tile grid of a configuration is what the builder made of
    the matrix set
    that the configuration names, with the limits of a link of the layer
    to that matrix set, and with an extent only when the layer declares a
    bounding box: the box transformed from EPSG:4326 into the projection
    of the configuration.  An extent that the extent of that projection
    does not contain is never handed to the builder. *)
Theorem tile_grid_extent_lies_in_the_projection :
  forall (wmtsCap : Caps) (config : Config) (o : Opts),
    resolve wmtsCap config = Normal (Some o) ->
    exists (l : Layer Number TileMatrixSetLimits)
           (matrixSetObj : TileMatrixSet TileMatrices)
           (link : TileMatrixSetLink TileMatrixSetLimits)
           (extent : option (Extent Number)),
      lookupLayer wmtsCap config = Some l
      /\ find (cap_TileMatrixSet wmtsCap)
              (fun elt => String.eqb (tms_Identifier elt) (o_matrixSet o))
         = Some matrixSetObj
      /\ In link (layer_TileMatrixSetLink l)
      /\ link_TileMatrixSet link = o_matrixSet o
      /\ createFromCapabilitiesMatrixSet matrixSetObj extent
                                         (link_TileMatrixSetLimits link)
         = Normal (o_tileGrid o)
      /\ (layer_WGS84BoundingBox l = None -> extent = None)
      /\ (forall e, extent = Some e ->
            exists box projection,
              layer_WGS84BoundingBox l = Some box
              /\ o_projection o = Some projection
              /\ e = transformExtent box "EPSG:4326" projection
              /\ forall projectionExtent,
                   getExtent projection = Some projectionExtent ->
                   containsExtent projectionExtent e = true).
Proof.
  intros wmtsCap config o H.
  apply resolve_inv in H
    as (l & idx & link & styleObj & ms & extent & wrapX & enc & urls & format & grid
        & Hl & _ & Hlink & _ & Hms & Hext & _ & Hgrid & ->).
  exists l, ms, link, extent. simpl.
  split; [exact Hl|]. split; [exact Hms|].
  split.
  { unfold at_ in Hlink. destruct (idx <? 0)%Z; [discriminate|].
    eapply nth_error_In; eauto. }
  split; [reflexivity|]. split; [exact Hgrid|].
  unfold resolveExtent in Hext.
  destruct (layer_WGS84BoundingBox l) as [box|].
  - split; [discriminate|].
    apply bind_Normal in Hext as [wgs84 [_ Hext]].
    apply bind_Normal in Hext as [wgsExtent [_ Hext]].
    destruct box as [[[b0 b1] b2] b3]. destruct wgsExtent as [[[e0 e1] e2] e3].
    apply bind_Normal in Hext as [p [Hp Hext]]. apply deref_Normal in Hp.
    intros e He. subst extent. exists (b0, b1, b2, b3), p.
    split; [reflexivity|]. split; [exact Hp|].
    destruct (getExtent p) as [pe|] eqn:Hpe.
    + destruct (containsExtent pe (transformExtent (b0, b1, b2, b3) "EPSG:4326" p))
        eqn:Hin; inversion Hext; subst.
      split; [reflexivity|]. intros pe' [= <-]. exact Hin.
    + inversion Hext; subst. split; [reflexivity|]. intros pe' Hpe'. discriminate.
  - inversion Hext; subst. split; [reflexivity|]. intros e He. discriminate.
Qed.

(** *** Documents that cannot be resolved *)

Lemma bind_TypeError {A B : Type} (c : Completion A) (k : A -> Completion B) :
  (forall a, k a = TypeError) -> bind c k = TypeError.
Proof.
  intros H. destruct c as [a|]; simpl; [apply H | reflexivity].
Qed.

(** X18.  For a layer that is found the resolver raises a [TypeError],
    whatever else the document and the request hold, when the layer has no
    link to a matrix set, when it has no style, when its only link names a
    matrix set that the document does not have, or when it has no list of
    resource URLs and the document has no GetTile bindings. *)
Theorem incomplete_layer_raises :
  forall (wmtsCap : Caps) (config : Config) (l : Layer Number TileMatrixSetLimits),
    lookupLayer wmtsCap config = Some l ->
    layer_TileMatrixSetLink l = []
    \/ layer_Style l = []
    \/ (exists only,
          layer_TileMatrixSetLink l = [only]
          /\ find (cap_TileMatrixSet wmtsCap)
                  (fun elt => String.eqb (tms_Identifier elt) (link_TileMatrixSet only))
             = None)
    \/ (layer_ResourceURL l = None /\ cap_GetTile wmtsCap = None) ->
    resolve wmtsCap config = TypeError.
Proof.
  intros wmtsCap config l Hl Hcase.
  unfold optionsFromCapabilities. rewrite Hl.
  destruct Hcase as [Hlinks | [Hstyles | [[only [Honly Hmissing]] | [Hres Hgets]]]].
  - apply bind_TypeError. intros idx. rewrite Hlinks.
    unfold at_. destruct (idx <? 0)%Z; [reflexivity|].
    now destruct (Z.to_nat idx).
  - apply bind_TypeError. intros idx. apply bind_TypeError. intros link.
    rewrite Hstyles. reflexivity.
  - rewrite Honly. unfold selectLink. simpl.
    apply bind_TypeError. intros styleObj. now rewrite Hmissing.
  - apply bind_TypeError. intros idx. apply bind_TypeError. intros link.
    apply bind_TypeError. intros styleObj. apply bind_TypeError. intros ms.
    apply bind_TypeError. intros [extent wrapX].
    apply bind_TypeError. intros tileGrid.
    unfold negotiate. rewrite Hgets, Hres. reflexivity.
Qed.

(** *** Returning a configuration *)


End ResolverSteps.

(* ===================================================================== *)
(** ** Further properties of the KVP URLs *)
(* ===================================================================== *)

Section KvpProperties.

Variable Number : Type.
Variable Projection : Type.
Variable TileGrid : Type.
Variable getMatrixId : TileGrid -> Z -> JsVal.

Local Abbreviation compile :=
  (@createFromWMTSTemplate_ Number Projection TileGrid getMatrixId).

Lemma hexDigit_no_amp (c : ascii) :
  Ascii.eqb (hexDigit (N_of_ascii c / 16)) "&" = false
  /\ Ascii.eqb (hexDigit (N_of_ascii c mod 16)) "&" = false.
Proof.
  destruct c as [[] [] [] [] [] [] [] []]; split; reflexivity.
Qed.

Lemma unreserved_no_amp (c : ascii) :
  isUnreserved c = true -> Ascii.eqb c "&" = false.
Proof.
  intros H. destruct (Ascii.eqb_spec c "&") as [->|]; [discriminate H | reflexivity].
Qed.

(** An escaped value holds no [&]. *)
Lemma percentEncode_no_amp (s : string) :
  noChar "&" (percentEncode s) = true.
Proof.
  unfold noChar. induction s as [|c s IH]; simpl; [reflexivity|].
  destruct (isUnreserved c) eqn:Hc; simpl.
  - now rewrite (unreserved_no_amp c Hc), IH.
  - destruct (hexDigit_no_amp c) as [H1 H2]. now rewrite H1, H2, IH.
Qed.

Lemma In_first_binding (k : string) (o : JsObj) :
  has k o = true -> In (k, get k o) o.
Proof.
  induction o as [|[k' v'] o IH]; simpl; [discriminate|].
  destruct (String.eqb_spec k k') as [->|Hne]; simpl.
  - intros _. now left.
  - intros H. right. now apply IH.
Qed.

(** With KVP encoding a template is compiled without error when every
    value of the static context can be escaped. *)
Lemma compile_kvp (context : JsObj) (tileGrid : option TileGrid) (template : string) :
  escapable context = true ->
  exists f : JsObj -> TileUrlFunctionType Number Projection,
    compile WMTSRequestEncoding.KVP context tileGrid template = Returns f.
Proof.
  intros Hesc. unfold createFromWMTSTemplate_, compileTemplate.
  change (String.eqb WMTSRequestEncoding.KVP WMTSRequestEncoding.KVP) with true.
  cbv iota. rewrite appendParams_escapable, Hesc. cbn [andThen].
  eexists. reflexivity.
Qed.

(** X19.  With KVP encoding every dimension that has a value reaches the
    URL: when its name holds neither [&] nor [=] and no value of the static
    and of the dynamic context holds a surrogate without partner, the
    template compiles and the compiled function returns a URL whose query
    string has a parameter with the name of the dimension and its escaped
    value.  ([appendParams] is the model given above.) *)
Theorem kvp_url_carries_the_dimensions :
  forall (context : JsObj) (tileGrid : TileGrid) (template : string)
         (dimensions : JsObj) (name : string) (value : JsVal) (tileCoord : TileCoord)
         (pixelRatio : Number) (projection : Projection),
    wfObj dimensions ->
    In (name, value) dimensions ->
    isDefined value = true ->
    noChar "&" name = true ->
    noChar "=" name = true ->
    escapable context = true ->
    escapable (dynamicContext getMatrixId tileGrid dimensions tileCoord) = true ->
    exists (f : JsObj -> TileUrlFunctionType Number Projection) (url : string),
      compile WMTSRequestEncoding.KVP context (Some tileGrid) template = Returns f
      /\ f dimensions (Some tileCoord) pixelRatio projection = Returns (Some url)
      /\ In (name, percentEncode (toString value)) (queryParams url).
Proof.
  intros ctx tg template dims name value tc pr proj
         Hwf Hin Hdef Hamp Heq Hstatic Hesc.
  destruct (compile_kvp ctx (Some tg) template Hstatic) as [f Hf].
  exists f. pose proof Hf as Hcompiled.
  apply (compile_inv Number Projection TileGrid getMatrixId) in Hf
    as (compiled & _ & Hf).
  rewrite Hf. cbv zeta.
  change (String.eqb WMTSRequestEncoding.KVP WMTSRequestEncoding.KVP) with true.
  cbv iota. rewrite appendParams_escapable, Hesc. cbn [andThen].
  eexists. split; [exact Hcompiled|]. split; [reflexivity|].
  assert (Hkv : keyValue (name ++ "=" ++ percentEncode (toString value))
                = (name, percentEncode (toString value))).
  { unfold keyValue.
    change (name ++ "=" ++ percentEncode (toString value))
      with (name ++ String "=" (percentEncode (toString value))).
    now rewrite (cutAt_fresh_prefix "=" name _ Heq). }
  rewrite <- Hkv.
  apply In_queryParams_withQuery.
  - apply In_shownParams; [|exact Hdef].
    apply ownEntries_In. destruct tc as [[z x] y]. unfold dynamicContext.
    set (local := [("TileMatrix", getMatrixId tg z); ("TileCol", JNumber x);
                   ("TileRow", JNumber (negateMinusOne y))]).
    assert (Hk : has name dims = true).
    { apply has_In_fst. apply in_map_iff. exists (name, value). split; [reflexivity | exact Hin]. }
    assert (Hget : get name (assign local dims) = value).
    { rewrite (get_assign _ _ _ Hwf), Hk. now apply get_In. }
    rewrite <- Hget. apply In_first_binding.
    rewrite has_assign, Hk. apply orb_true_r.
  - unfold noChar. rewrite !allChars_app.
    unfold noChar in Hamp. rewrite Hamp. simpl.
    apply percentEncode_no_amp.
Qed.

End KvpProperties.

(* ===================================================================== *)
(** ** More examples *)
(* ===================================================================== *)

Section MoreExamples.

Import Fixture.

(** The same patch, twice. *)
Lemma updateDimensions_twice_example :
  let source := bareSource in
  let patch := [("time", JString "2020")] in
  wfObj patch
  /\ updateDimensions (updateDimensions source patch) patch
     = updateDimensions source patch.
Proof.
  cbv zeta.
  assert (Hwf : wfObj [("time", JString "2020")]).
  { unfold wfObj. simpl. repeat constructor. simpl. tauto. }
  split; [exact Hwf|].
  apply (updateDimensions_twice_is_once Z string (list string) _ _ Hwf).
Defined.

(** The key after two updates. *)
Lemma key_follows_dimensions_example :
  let source :=
    updateDimensionsAll bareSource
      [[("time", JString "2020")];
       [("time", JString "2021"); ("elevation", JString "100")]] in
  (wfObj (orDefault (opt_dimensions bareOptions) [])
   /\ construct bareOptions = Returns bareSource)
  /\ key_ source = getKeyForDimensions_ (getDimensions source)
  /\ wfObj (getDimensions source).
Proof.
  cbv zeta.
  assert (Hwf : wfObj (orDefault (opt_dimensions bareOptions) [])) by constructor.
  split; [split; [exact Hwf | reflexivity]|].
  apply (key_follows_dimensions Z string (list string) getMatrixId expandUrl
           createFromTileUrlFunctions bareOptions _ bareSource Hwf eq_refl).
Defined.

(** A number and the string of its digits are the same to the key. *)
Lemma key_tells_apart_example :
  let d1 := [("time", JString "5"); ("elevation", JNumber 100)] in
  let d2 := [("time", JNumber 5); ("elevation", JString "100")] in
  getKeyForDimensions_ d1 = getKeyForDimensions_ d2
  /\ map shownEntry (ownEntries d1) = map shownEntry (ownEntries d2).
Proof.
  cbv zeta. split; [reflexivity|].
  apply key_tells_separator_free_dimensions_apart; reflexivity.
Defined.

(** A second dimension. *)
Lemma new_dimension_example :
  let source := updateDimensions bareSource [("time", JString "2020")] in
  (has "elevation" (getDimensions source) = false /\ arrayIndex "elevation" = None)
  /\ key_ (updateDimensions source [("elevation", JString "100")])
     = "time-2020/elevation-100".
Proof.
  cbv zeta. split; [split; reflexivity|].
  rewrite (new_dimension_extends_the_key Z string (list string)
             (updateDimensions bareSource [("time", JString "2020")])
             "elevation" (JString "100") eq_refl eq_refl).
  reflexivity.
Defined.

(** A REST template without placeholder. *)
Lemma rest_plain_template_example :
  compileAndCall WMTSRequestEncoding.REST restContext (Some ["0"; "1"])
                 "http://host/tile.png" [] (Some (1, 2, 3)%Z)
  = Returns (Some "http://host/tile.png").
Proof.
  destruct (rest_template_without_placeholder_is_the_url
              Z string (list string) getMatrixId
              WMTSRequestEncoding.REST restContext ["0"; "1"] "http://host/tile.png"
              [] (1, 2, 3)%Z 1%Z "EPSG:3857" eq_refl eq_refl) as (f & Hf & Hcall).
  unfold compileAndCall, compile. rewrite Hf. exact Hcall.
Defined.

(** The row of a tile and a dimension in a REST template. *)
Lemma rest_dynamic_placeholder_example :
  compileAndCall WMTSRequestEncoding.REST restContext (Some ["0"; "1"; "2"])
                 "http://host/{TileRow}.png" [] (Some (2, 5, 3)%Z)
  = Returns (Some "http://host/-4.png")
  /\ compileAndCall WMTSRequestEncoding.REST restContext (Some ["0"; "1"; "2"])
                    "http://host/{Time}/tile.png" [("Time", JString "2020")]
                    (Some (2, 5, 3)%Z)
     = Returns (Some "http://host/2020/tile.png").
Proof.
  split.
  - assert (Hname : "TileRow" <> "") by discriminate.
    destruct (rest_placeholder_takes_the_dynamic_value
                Z string (list string) getMatrixId
                WMTSRequestEncoding.REST restContext ["0"; "1"; "2"]
                "http://host/" "TileRow" ".png" [] (2, 5, 3)%Z 1%Z "EPSG:3857"
                eq_refl eq_refl eq_refl Hname eq_refl eq_refl eq_refl)
      as (f & Hf & Hcall).
    unfold compileAndCall, compile.
    change "http://host/{TileRow}.png"
      with ("http://host/" ++ "{" ++ "TileRow" ++ "}" ++ ".png").
    rewrite Hf. exact Hcall.
  - assert (Hname : "Time" <> "") by discriminate.
    destruct (rest_placeholder_takes_the_dynamic_value
                Z string (list string) getMatrixId
                WMTSRequestEncoding.REST restContext ["0"; "1"; "2"]
                "http://host/" "Time" "/tile.png" [("Time", JString "2020")]
                (2, 5, 3)%Z 1%Z "EPSG:3857"
                eq_refl eq_refl eq_refl Hname eq_refl eq_refl eq_refl)
      as (f & Hf & Hcall).
    unfold compileAndCall, compile.
    change "http://host/{Time}/tile.png"
      with ("http://host/" ++ "{" ++ "Time" ++ "}" ++ "/tile.png").
    rewrite Hf. exact Hcall.
Defined.

(** The layer in a REST template, in capitals. *)
Lemma rest_static_placeholder_example :
  compileAndCall WMTSRequestEncoding.REST restContext (Some ["0"; "1"; "2"])
                 "http://host/{LAYER}/tile.png" [] (Some (2, 5, 3)%Z)
  = Returns (Some "http://host/roads/tile.png").
Proof.
  assert (Hname : "LAYER" <> "") by discriminate.
  destruct (rest_placeholder_takes_the_static_value
              Z string (list string) getMatrixId
              WMTSRequestEncoding.REST restContext ["0"; "1"; "2"]
              "http://host/" "LAYER" "/tile.png" [] (2, 5, 3)%Z 1%Z "EPSG:3857"
              eq_refl eq_refl eq_refl Hname eq_refl eq_refl eq_refl)
    as (f & Hf & Hcall).
  unfold compileAndCall, compile.
  change "http://host/{LAYER}/tile.png"
    with ("http://host/" ++ "{" ++ "LAYER" ++ "}" ++ "/tile.png").
  rewrite Hf. exact Hcall.
Defined.

(** A URN with a version that holds a colon. *)
Lemma urn_code_example :
  Crs.normalize "urn:ogc:def:crs:EPSG:6.18:3:3857" = "EPSG:3857"
  /\ derivedProjection getProjection (Some "urn:ogc:def:crs:EPSG:6.18:3:3857")
     = Some "EPSG:3857".
Proof.
  destruct (urn_code_is_reduced_to_authority_and_code string getProjection
              "EPSG" "6.18:3" "3857") as [Hnorm Hderived];
    try reflexivity; try discriminate.
  split; [exact Hnorm | now apply Hderived].
Defined.

(** A short code. *)
Lemma plain_code_example :
  Crs.normalize "EPSG:4326" = "EPSG:4326"
  /\ projectionOfCode getProjection "EPSG:4326" = getProjection "EPSG:4326".
Proof.
  apply (plain_code_is_looked_up_as_it_is string getProjection). reflexivity.
Defined.

(** A dimension in a KVP URL. *)
Lemma kvp_dimension_example :
  exists url,
    compileAndCall WMTSRequestEncoding.KVP kvpContext (Some ["0"; "1"; "2"])
                   "http://host/wmts" [("time", JString "2020-01-01T00:00")]
                   (Some (2, 5, 3)%Z) = Returns (Some url)
    /\ In ("time", "2020-01-01T00%3A00") (queryParams url).
Proof.
  assert (Hwf : wfObj [("time", JString "2020-01-01T00:00")]).
  { unfold wfObj. simpl. repeat constructor. simpl. tauto. }
  destruct (kvp_url_carries_the_dimensions Z string (list string) getMatrixId
              kvpContext ["0"; "1"; "2"] "http://host/wmts"
              [("time", JString "2020-01-01T00:00")] "time" (JString "2020-01-01T00:00")
              (2, 5, 3)%Z 1%Z "EPSG:3857"
              Hwf (or_introl eq_refl) eq_refl eq_refl eq_refl eq_refl eq_refl)
    as (f & url & Hf & Hcall & Hin).
  exists url. split; [|exact Hin].
  unfold compileAndCall, compile. rewrite Hf. exact Hcall.
Defined.

(** A call of a compiled function without a tile, and calls for a tile. *)
Lemma compiled_function_example :
  exists f,
    compile WMTSRequestEncoding.KVP kvpContext (Some ["0"; "1"; "2"]) "http://host/wmts"
      = Returns f
    /\ f [] None 1%Z "EPSG:3857" = Returns None
    /\ (exists url, f [] (Some (2, 5, 3)%Z) 1%Z "EPSG:3857" = Returns (Some url))
    /\ f [("time", JString loneSurrogate)] (Some (2, 5, 3)%Z) 1%Z "EPSG:3857"
       = Raises URIErr.
Proof.
  destruct (compile WMTSRequestEncoding.KVP kvpContext (Some ["0"; "1"; "2"])
                    "http://host/wmts") as [f|e] eqn:Hf; [|discriminate Hf].
  exists f. split; [reflexivity|].
  split; [|split].
  - apply (compiled_function_absent_coordinate Z string (list string) getMatrixId
             WMTSRequestEncoding.KVP kvpContext (Some ["0"; "1"; "2"])
             "http://host/wmts" f [] 1%Z "EPSG:3857" Hf).
  - destruct (compiled_function_absent_coordinate Z string (list string) getMatrixId
                WMTSRequestEncoding.KVP kvpContext (Some ["0"; "1"; "2"])
                "http://host/wmts" f [] 1%Z "EPSG:3857" Hf) as [_ Hcall].
    exact (Hcall (2, 5, 3)%Z).
  - destruct (compiled_function_absent_coordinate Z string (list string) getMatrixId
                WMTSRequestEncoding.KVP kvpContext (Some ["0"; "1"; "2"])
                "http://host/wmts" f [("time", JString loneSurrogate)] 1%Z "EPSG:3857" Hf)
      as [_ Hcall].
    exact (Hcall (2, 5, 3)%Z).
Defined.

(** A document with a KVP binding: the URL of the binding is taken. *)
Lemma encoding_with_binding_example :
  let wmtsCap := describedDocument (Some [kvpBinding]) in
  let config := request None None None in
  exists o,
    resolve wmtsCap config = Normal (Some o)
    /\ o_requestEncoding o = Some WMTSRequestEncoding.KVP
    /\ forall u, In u (o_urls o) -> u = Some "http://host/wmts".
Proof.
  cbv zeta. eexists. split; [vm_compute; reflexivity|].
  match goal with
  | |- o_requestEncoding ?o = _ /\ _ =>
      destruct (encoding_tells_where_the_urls_come_from Z Z.eqb string (list string) (list string) unit
              getProjection equivalent getExtent transformExtent containsExtent
              createFromCapabilitiesMatrixSet
                  (describedDocument (Some [kvpBinding])) (request None None None) o)
        as [l [_ [[Hkvp [_ Hurls]] | [Hrest _]]]]
  end.
  - vm_compute. reflexivity.
  - split; [exact Hkvp|]. intros u Hu.
    destruct (Hurls u Hu) as (gets & g & Hgets & Hg & <-).
    inversion Hgets; subst gets. destruct Hg as [<- | []]. reflexivity.
  - discriminate Hrest.
Defined.

(** No encoding in the request: the first binding allows KVP first. *)
Lemma default_encoding_example :
  let wmtsCap := describedDocument (Some [kvpBinding]) in
  let config := request None None None in
  exists o,
    resolve wmtsCap config = Normal (Some o)
    /\ o_requestEncoding o = Some WMTSRequestEncoding.KVP
    /\ o_urls o = [Some "http://host/wmts"].
Proof.
  cbv zeta. eexists. split; [vm_compute; reflexivity|].
  match goal with
  | |- o_requestEncoding ?o = _ /\ _ =>
      destruct (default_encoding_is_the_first_one_found Z Z.eqb string (list string) (list string) unit
              getProjection equivalent getExtent transformExtent containsExtent
              createFromCapabilitiesMatrixSet
                  (describedDocument (Some [kvpBinding])) (request None None None) o)
        as [l [_ H]]
  end.
  - vm_compute. reflexivity.
  - reflexivity.
  - exact H.
Defined.

(** A request for PNG that falls back to REST gets the format of the last
    tile resource of the layer, JPEG. *)
Lemma format_example :
  let wmtsCap := describedDocument None in
  let config := {| cfg_layer := "roads"; cfg_matrixSet := None; cfg_projection := None;
                   cfg_requestEncoding := None; cfg_style := None;
                   cfg_format := Some "image/png"; cfg_crossOrigin := None |} in
  exists o,
    resolve wmtsCap config = Normal (Some o)
    /\ o_requestEncoding o = Some WMTSRequestEncoding.REST
    /\ o_format o = Some "image/jpeg".
Proof.
  cbv zeta. eexists. split; [vm_compute; reflexivity|].
  split; [reflexivity|].
  match goal with
  | |- o_format ?o = _ =>
      destruct (format_follows_the_encoding Z Z.eqb string (list string) (list string) unit
              getProjection equivalent getExtent transformExtent containsExtent
              createFromCapabilitiesMatrixSet
                  (describedDocument None)
                  {| cfg_layer := "roads"; cfg_matrixSet := None; cfg_projection := None;
                     cfg_requestEncoding := None; cfg_style := None;
                     cfg_format := Some "image/png"; cfg_crossOrigin := None |} o)
        as [l [Hl [_ Hrest]]]
  end.
  - vm_compute. reflexivity.
  - rewrite (Hrest eq_refl). vm_compute in Hl. inversion Hl; subst l. reflexivity.
Defined.

(** No style in the request: the default style, which is not the first. *)
Lemma style_example :
  let wmtsCap := describedDocument None in
  let config := request None None None in
  exists o,
    resolve wmtsCap config = Normal (Some o) /\ o_style o = "day".
Proof.
  cbv zeta. eexists. split; [vm_compute; reflexivity|].
  match goal with
  | |- o_style ?o = _ =>
      destruct (style_is_the_wanted_one_or_the_first Z Z.eqb string (list string) (list string) unit
              getProjection equivalent getExtent transformExtent containsExtent
              createFromCapabilitiesMatrixSet
                  (describedDocument None) (request None None None) o)
        as (l & style & Hl & Hfind & Hstyle)
  end.
  - vm_compute. reflexivity.
  - rewrite Hstyle. vm_compute in Hl. inversion Hl; subst l.
    vm_compute in Hfind. inversion Hfind. reflexivity.
Defined.

(** A matrix set named by the request. *)
Lemma named_matrix_set_example :
  let wmtsCap := describedDocument None in
  let config := request (Some "google3857") None None in
  exists o,
    resolve wmtsCap config = Normal (Some o)
    /\ cfg_projection config = None
    /\ o_matrixSet o = "google3857".
Proof.
  cbv zeta. eexists. split; [vm_compute; reflexivity|]. split; [reflexivity|].
  match goal with
  | |- o_matrixSet ?o = _ =>
      destruct (matrix_set_is_the_named_one_or_the_first Z Z.eqb string (list string) (list string) unit
              getProjection equivalent getExtent transformExtent containsExtent
              createFromCapabilitiesMatrixSet
                  (describedDocument None) (request (Some "google3857") None None) o)
        as (l & Hl & Hnamed & _)
  end.
  - vm_compute. reflexivity.
  - reflexivity.
  - apply Hnamed; [reflexivity|].
    vm_compute in Hl. inversion Hl; subst l. simpl. tauto.
Defined.

(** A list of two links, cut at one of them. *)
Lemma two_links_cut {A : Type} (a b link : A) (before after : list A) :
  [a; b] = (before ++ link :: after)%list ->
  (before = [] /\ link = a) \/ (before = [a] /\ link = b).
Proof.
  destruct before as [|x [|y before']]; simpl; intros H; inversion H; subst; auto.
  destruct before'; discriminate.
Qed.

(** A projection named by the request: the second link matches, by an
    equivalent projection, or by the text of its code when the projection
    service does not know the name. *)
Lemma projection_matrix_set_example :
  let wmtsCap := describedDocument None in
  (exists o,
     resolve wmtsCap (request None (Some "EPSG:900913") None) = Normal (Some o)
     /\ o_matrixSet o = "google3857")
  /\ (exists o,
        resolve wmtsCap (request None (Some "urn:ogc:def:crs:EPSG:6.18:3:3857") None)
          = Normal (Some o)
        /\ o_matrixSet o = "google3857").
Proof.
  cbv zeta. split.
  - eexists. split; [vm_compute; reflexivity|].
    match goal with
    | |- o_matrixSet ?o = _ =>
        destruct (matrix_set_is_the_first_that_matches_the_projection
                    Z Z.eqb string (list string) (list string) unit
                    getProjection equivalent getExtent transformExtent containsExtent
                    createFromCapabilitiesMatrixSet
                    (describedDocument None) (request None (Some "EPSG:900913") None) o
                    "EPSG:900913")
          as (l & Hl & Hseveral & _)
    end.
    + vm_compute. reflexivity.
    + reflexivity.
    + vm_compute in Hl. inversion Hl; subst l. clear Hl.
      assert (Hlen : (1 < List.length (layer_TileMatrixSetLink described))%nat)
        by (simpl; lia).
      destruct (Hseveral Hlen)
        as [(before & link & after & Heq & _ & Hmatch & Hset) | [Hnone _]].
      * rewrite Hset.
        destruct (two_links_cut _ _ _ _ _ Heq) as [[_ ->] | [_ ->]]; [|reflexivity].
        exfalso. destruct Hmatch as (code & (m & Hm & Hcode) & Hcrs).
        vm_compute in Hm. inversion Hm; subst m. inversion Hcode; subst code.
        destruct Hcrs as [(p1 & p2 & Hk & Hp2 & Heqv) | [_ Heqc]]; [|discriminate Heqc].
        destruct Hk as [Hk | [Hk _]]; vm_compute in Hk; [|discriminate Hk].
        inversion Hk; subst p1. vm_compute in Hp2. inversion Hp2; subst p2.
        discriminate Heqv.
      * exfalso.
        destruct (Hnone (linkTo "google3857") (or_intror (or_introl eq_refl)))
          as (code & (m & Hm & Hcode) & Hnot).
        vm_compute in Hm. inversion Hm; subst m. inversion Hcode; subst code.
        apply Hnot. left. exists "EPSG:3857", "EPSG:900913".
        split; [left; reflexivity | split; reflexivity].
  - eexists. split; [vm_compute; reflexivity|].
    match goal with
    | |- o_matrixSet ?o = _ =>
        destruct (matrix_set_is_the_first_that_matches_the_projection
                    Z Z.eqb string (list string) (list string) unit
                    getProjection equivalent getExtent transformExtent containsExtent
                    createFromCapabilitiesMatrixSet
                    (describedDocument None)
                    (request None (Some "urn:ogc:def:crs:EPSG:6.18:3:3857") None) o
                    "urn:ogc:def:crs:EPSG:6.18:3:3857")
          as (l & Hl & Hseveral & _)
    end.
    + vm_compute. reflexivity.
    + reflexivity.
    + vm_compute in Hl. inversion Hl; subst l. clear Hl.
      assert (Hlen : (1 < List.length (layer_TileMatrixSetLink described))%nat)
        by (simpl; lia).
      destruct (Hseveral Hlen)
        as [(before & link & after & Heq & _ & Hmatch & Hset) | [Hnone _]].
      * rewrite Hset.
        destruct (two_links_cut _ _ _ _ _ Heq) as [[_ ->] | [_ ->]]; [|reflexivity].
        exfalso. destruct Hmatch as (code & (m & Hm & Hcode) & Hcrs).
        vm_compute in Hm. inversion Hm; subst m. inversion Hcode; subst code.
        destruct Hcrs as [(p1 & p2 & _ & Hp2 & _) | [_ Heqc]];
          [vm_compute in Hp2; discriminate Hp2 | discriminate Heqc].
      * exfalso.
        destruct (Hnone (linkTo "google3857") (or_intror (or_introl eq_refl)))
          as (code & (m & Hm & Hcode) & Hnot).
        vm_compute in Hm. inversion Hm; subst m. inversion Hcode; subst code.
        apply Hnot. right. split; [right; reflexivity | reflexivity].
Defined.


(** A bounding box of the whole world, in degrees. *)
Lemma tile_grid_extent_example :
  let wmtsCap := document [linkTo "WGS84"] None in
  let config := request None None None in
  exists o,
    resolve wmtsCap config = Normal (Some o)
    /\ exists matrixSetObj link extent,
         In link (layer_TileMatrixSetLink (roads [linkTo "WGS84"]))
         /\ createFromCapabilitiesMatrixSet matrixSetObj extent
                                            (link_TileMatrixSetLimits link)
            = Normal (o_tileGrid o)
         /\ forall e, extent = Some e ->
              exists projection projectionExtent,
                o_projection o = Some projection
                /\ getExtent projection = Some projectionExtent
                /\ containsExtent projectionExtent e = true.
Proof.
  cbv zeta. eexists. split; [vm_compute; reflexivity|].
  match goal with
  | |- exists matrixSetObj link extent, _ /\ _ = Normal (o_tileGrid ?o) /\ _ =>
      destruct (tile_grid_extent_lies_in_the_projection Z Z.eqb string (list string) (list string) unit
              getProjection equivalent getExtent transformExtent containsExtent
              createFromCapabilitiesMatrixSet
                  (document [linkTo "WGS84"] None) (request None None None) o)
        as (l & ms & link & extent & Hl & _ & Hin & _ & Hgrid & _ & Hextent)
  end.
  - vm_compute. reflexivity.
  - vm_compute in Hl. inversion Hl; subst l.
    exists ms, link, extent. split; [exact Hin|]. split; [exact Hgrid|].
    intros e He. destruct (Hextent e He) as (box & p & _ & Hp & _ & Hcontained).
    inversion Hp; subst p.
    exists "EPSG:4326", (-180, -90, 180, 90)%Z.
    split; [reflexivity|]. split; [reflexivity|]. now apply Hcontained.
Defined.

(** A layer without style. *)
Lemma incomplete_layer_example :
  let wmtsCap := {| cap_Layer := [unstyled];
                    cap_TileMatrixSet := [mercatorSet];
                    cap_GetTile := None |} in
  layer_Style unstyled = []
  /\ resolve wmtsCap (request None None None) = TypeError.
Proof.
  cbv zeta. split; [reflexivity|].
  apply (incomplete_layer_raises Z Z.eqb string (list string) (list string) unit
              getProjection equivalent getExtent transformExtent containsExtent
              createFromCapabilitiesMatrixSet _ _ unstyled); [reflexivity|].
  right. left. reflexivity.
Defined.




End MoreExamples.
